(** * aif/cache_nim.py: a content-addressed, disk-persisted cache

    A shallow embedding of [src/aif/cache_nim.py] and the properties of its
    key derivation, its hit/miss/staleness policy and its write protocol.

    Conventions of the embedding.
    - A Python [str] is the list of its code points ([pystr]); [bytes] is a
      list of octets.  Both are lists of [Z].
    - A JSON-like Python value is the closed variant [value]; a [dict] is an
      association list in insertion order (Python dictionaries keep it), with
      string keys.  [VObj] is any other object, known by its [str()], which
      is what [default=str] makes of it.  Integers are unbounded.  The
      encoder of the model is total: it is [json.dumps] on the values that
      [json.dumps] accepts, which [json_safe] singles out (the limits of the
      interpreter on the length of a decimal conversion and on the depth of
      nesting); mappings with keys that are not strings and cyclic values
      are outside the model.
    - A Python [float] is written [FFin m k], the decimal [m / 10^(k+1)]
      shown with its [k+1] fractional digits, or is one of the special
      values.  The decimal stands for the double nearest to it, as a decimal
      text does when Python reads it: subtraction and comparison round to
      doubles ([fsub], [fgt]).  The exponent notation of [repr] is outside
      the model.
    - [json.loads] follows the scanner of the [json] package: [scanstring]
      in strict mode, [NUMBER_RE], the constants [NaN] and [Infinity].
    - The file system, the clock and the failures of system calls are the
      [world] that every effectful function threads explicitly.  The test
      [p.exists()] answers; a failure of the test itself is outside the
      model.  Each call
      made to the outside (a system call, [fetch_fn], the hook, the warning)
      is appended to the record [log] of the world, so that what a call of
      [query_nim_cached] did, and in which order, can be stated.
    - [fetch_fn] is a function of the payload that returns or raises; the
      [save_extra] hook may rewrite any file and may raise. *)

From Stdlib Require Import ZArith List Lia Bool Permutation.
From Stdlib Require Import Strings.String Strings.Ascii.
From Stdlib Require Import DecimalPos DecimalN DecimalZ Zbitwise.
From stdpp Require Import base option list gmap sorting.

Set Warnings "-register-all,-clear-no-such-hyp,-implicit-create-rewrite-hint-db".
Local Open Scope Z_scope.

(** ** Strings and bytes *)

Abbreviation pystr := (list Z) (only parsing).
Abbreviation bytes := (list Z) (only parsing).

(** A string literal of the source, as code points. *)
Definition u (s : string) : pystr :=
  List.map (fun a => Z.of_N (N_of_ascii a)) (list_ascii_of_string s).

(** [a < b] on Python strings: lexicographic on code points. *)
Fixpoint str_ltb (a b : pystr) : bool :=
  match a, b with
  | [], [] => false
  | [], _ :: _ => true
  | _ :: _, [] => false
  | x :: a', y :: b' => if x <? y then true else if y <? x then false else str_ltb a' b'
  end.

Definition str_eqb (a b : pystr) : bool := bool_decide (a = b).

(** ** Values *)

Inductive pyfloat :=
| FFin (m : Z) (k : nat)
| FNan
| FInf (neg : bool).

Inductive value :=
| VNone
| VBool (b : bool)
| VInt (n : Z)
| VFloat (f : pyfloat)
| VStr (s : pystr)
| VList (l : list value)
| VDict (d : list (pystr * value))
| VObj (display : pystr).

Inductive exn :=
| OSError
| FileNotFoundError
| UnicodeError
| JSONDecodeError
| TypeError
| ValueError
| OverflowError
| AttributeError
| FetchError (code : Z).

Inductive res (A : Type) :=
| Ok (a : A)
| Raise (e : exn).
Arguments Ok {A} a.
Arguments Raise {A} e.

(** ** Dictionaries *)

Fixpoint dict_get {A} (d : list (pystr * A)) (k : pystr) : option A :=
  match d with
  | [] => None
  | (k', v) :: d' => if str_eqb k' k then Some v else dict_get d' k
  end.

(** [d[k] = v]: an existing key keeps its position, a new one goes last. *)
Fixpoint dict_set {A} (d : list (pystr * A)) (k : pystr) (v : A) : list (pystr * A) :=
  match d with
  | [] => [(k, v)]
  | (k', v') :: d' => if str_eqb k' k then (k', v) :: d' else (k', v') :: dict_set d' k v
  end.

(** [sorted(d.items())]: the keys of a dictionary are distinct, so the
    comparison of two items is decided by their keys. *)
Fixpoint insert_item {A} (x : pystr * A) (l : list (pystr * A)) : list (pystr * A) :=
  match l with
  | [] => [x]
  | y :: l' => if str_ltb (fst y) (fst x) then y :: insert_item x l' else x :: y :: l'
  end.

Fixpoint sort_items {A} (l : list (pystr * A)) : list (pystr * A) :=
  match l with
  | [] => []
  | x :: l' => insert_item x (sort_items l')
  end.

(** ** json.dumps(obj, sort_keys=True, separators=(",", ":"), default=str) *)

Definition hex_digit (d : Z) : Z := if d <? 10 then 48 + d else 87 + d.

Definition hex4 (n : Z) : pystr :=
  [hex_digit (n / 4096 mod 16); hex_digit (n / 256 mod 16);
   hex_digit (n / 16 mod 16); hex_digit (n mod 16)].

Definition u_escape (n : Z) : pystr := [92; 117] ++ hex4 n.

(** One character of [py_encode_basestring_ascii]. *)
Definition escape_char (c : Z) : pystr :=
  if c =? 34 then [92; 34]
  else if c =? 92 then [92; 92]
  else if c =? 8 then [92; 98]
  else if c =? 12 then [92; 102]
  else if c =? 10 then [92; 110]
  else if c =? 13 then [92; 114]
  else if c =? 9 then [92; 116]
  else if (32 <=? c) && (c <=? 126) then [c]
  else if c <? 65536 then u_escape c
  else
    let n := c - 65536 in
    u_escape (Z.lor 55296 (Z.land (Z.shiftr n 10) 1023))
      ++ u_escape (Z.lor 56320 (Z.land n 1023)).

Definition encode_basestring_ascii (s : pystr) : pystr :=
  [34] ++ flat_map escape_char s ++ [34].

Fixpoint uint_chars (d : Decimal.uint) : pystr :=
  match d with
  | Decimal.Nil => []
  | Decimal.D0 d => 48 :: uint_chars d
  | Decimal.D1 d => 49 :: uint_chars d
  | Decimal.D2 d => 50 :: uint_chars d
  | Decimal.D3 d => 51 :: uint_chars d
  | Decimal.D4 d => 52 :: uint_chars d
  | Decimal.D5 d => 53 :: uint_chars d
  | Decimal.D6 d => 54 :: uint_chars d
  | Decimal.D7 d => 55 :: uint_chars d
  | Decimal.D8 d => 56 :: uint_chars d
  | Decimal.D9 d => 57 :: uint_chars d
  end.

(** The decimal digits of a natural number, most significant first. *)
Definition nat_repr (n : N) : pystr := uint_chars (N.to_uint n).

(** [int.__repr__] *)
Definition int_repr (n : Z) : pystr :=
  if n <? 0 then 45 :: nat_repr (Z.abs_N n) else nat_repr (Z.abs_N n).

(** [float.__repr__] on the modelled floats: the decimal as it stands, in
    positional notation with its [k+1] fractional digits.  Python prints the
    shortest decimal that reads back as the same double; the two texts read
    back as the same double. *)
Definition float_repr (f : pyfloat) : pystr :=
  match f with
  | FFin m k =>
      let ds := nat_repr (Z.abs_N m) in
      let ds := replicate (S (S k) - length ds)%nat 48 ++ ds in
      let ip := take (length ds - S k)%nat ds in
      let fp := drop (length ds - S k)%nat ds in
      (if m <? 0 then [45] else []) ++ ip ++ [46] ++ fp
  | FNan => u "NaN"
  | FInf false => u "Infinity"
  | FInf true => u "-Infinity"
  end.

Fixpoint join (sep : pystr) (l : list pystr) : pystr :=
  match l with
  | [] => []
  | [x] => x
  | x :: l' => x ++ sep ++ join sep l'
  end.

Fixpoint dumps (v : value) : pystr :=
  match v with
  | VNone => u "null"
  | VBool true => u "true"
  | VBool false => u "false"
  | VInt n => int_repr n
  | VFloat f => float_repr f
  | VStr s => encode_basestring_ascii s
  | VList l => [91] ++ join [44] (List.map dumps l) ++ [93]
  | VDict d =>
      [123] ++
      join [44]
        (List.map (fun kv => encode_basestring_ascii (fst kv) ++ [58] ++ snd kv)
           (sort_items (List.map (fun kv => (fst kv, dumps (snd kv))) d)))
      ++ [125]
  | VObj s => encode_basestring_ascii s
  end.

Definition _stable_json_dumps (obj : value) : pystr := dumps obj.

(** The same encoder with the items sorted before they are rendered, as
    [json.encoder] does it. *)
Definition dumps_dict (d : list (pystr * value)) : pystr :=
  [123] ++
  join [44]
    (List.map (fun kv => encode_basestring_ascii (fst kv) ++ [58] ++ dumps (snd kv))
       (sort_items d))
  ++ [125].

(** ** str.encode("utf-8") and bytes.decode("utf-8") *)

Definition is_cont (b : Z) : bool := (128 <=? b) && (b <=? 191).

Definition utf8_char (c : Z) : res bytes :=
  if (c <? 0) || (1114111 <? c) then Raise UnicodeError
  else if c <? 128 then Ok [c]
  else if c <? 2048 then Ok [192 + c / 64; 128 + c mod 64]
  else if (55296 <=? c) && (c <=? 57343) then Raise UnicodeError
  else if c <? 65536 then Ok [224 + c / 4096; 128 + c / 64 mod 64; 128 + c mod 64]
  else Ok [240 + c / 262144; 128 + c / 4096 mod 64; 128 + c / 64 mod 64; 128 + c mod 64].

Fixpoint utf8_encode (s : pystr) : res bytes :=
  match s with
  | [] => Ok []
  | c :: s' =>
      match utf8_char c, utf8_encode s' with
      | Ok bs, Ok r => Ok (bs ++ r)
      | Raise e, _ => Raise e
      | _, Raise e => Raise e
      end
  end.

Fixpoint utf8_decode (bs : bytes) : res pystr :=
  match bs with
  | [] => Ok []
  | b0 :: r0 =>
      let next (c : Z) (r : res pystr) : res pystr :=
        match r with Ok s => Ok (c :: s) | Raise e => Raise e end in
      if (0 <=? b0) && (b0 <? 128) then next b0 (utf8_decode r0)
      else
        match r0 with
        | [] => Raise UnicodeError
        | b1 :: r1 =>
            if (194 <=? b0) && (b0 <=? 223) then
              if is_cont b1 then next ((b0 - 192) * 64 + (b1 - 128)) (utf8_decode r1)
              else Raise UnicodeError
            else
              match r1 with
              | [] => Raise UnicodeError
              | b2 :: r2 =>
                  if (224 <=? b0) && (b0 <=? 239) then
                    if is_cont b1 && is_cont b2
                       && negb ((b0 =? 224) && (b1 <? 160))
                       && negb ((b0 =? 237) && (159 <? b1))
                    then next ((b0 - 224) * 4096 + (b1 - 128) * 64 + (b2 - 128))
                              (utf8_decode r2)
                    else Raise UnicodeError
                  else
                    match r2 with
                    | [] => Raise UnicodeError
                    | b3 :: r3 =>
                        if (240 <=? b0) && (b0 <=? 244)
                           && is_cont b1 && is_cont b2 && is_cont b3
                           && negb ((b0 =? 240) && (b1 <? 144))
                           && negb ((b0 =? 244) && (143 <? b1))
                        then next ((b0 - 240) * 262144 + (b1 - 128) * 4096
                                   + (b2 - 128) * 64 + (b3 - 128))
                                  (utf8_decode r3)
                        else Raise UnicodeError
                    end
              end
        end
  end.

(** ** hashlib.sha1 *)

Definition w32 (x : Z) : Z := x mod 4294967296.

Definition rotl32 (n x : Z) : Z :=
  w32 (Z.lor (Z.shiftl x n) (Z.shiftr x (32 - n))).

Definition be_word (bs : bytes) : Z :=
  fold_left (fun acc b => acc * 256 + b) bs 0.

Fixpoint be_bytes (n : nat) (x : Z) : bytes :=
  match n with
  | O => []
  | S n' => be_bytes n' (x / 256) ++ [x mod 256]
  end.

Definition sha1_pad (msg : bytes) : bytes :=
  let len := Z.of_nat (length msg) in
  msg ++ [128] ++ replicate (Z.to_nat ((55 - len) mod 64)) 0 ++ be_bytes 8 (8 * len).

Fixpoint words_of (n : nat) (bs : bytes) : list Z :=
  match n with
  | O => []
  | S n' => be_word (take 4 bs) :: words_of n' (drop 4 bs)
  end.

(** The message schedule, most recent word first. *)
Fixpoint sha1_expand (n : nat) (ws : list Z) : list Z :=
  match n with
  | O => ws
  | S n' =>
      let w := rotl32 1 (Z.lxor (Z.lxor (nth 2 ws 0) (nth 7 ws 0))
                                (Z.lxor (nth 13 ws 0) (nth 15 ws 0))) in
      sha1_expand n' (w :: ws)
  end.

Definition sha1_state : Type := Z * Z * Z * Z * Z.

Definition sha1_round (t : Z) (w : Z) (st : sha1_state) : sha1_state :=
  let '(a, b, c, d, e) := st in
  let '(f, k) :=
    if t <? 20 then (Z.lor (Z.land b c) (Z.land (Z.lxor b 4294967295) d), 1518500249)
    else if t <? 40 then (Z.lxor (Z.lxor b c) d, 1859775393)
    else if t <? 60 then (Z.lor (Z.lor (Z.land b c) (Z.land b d)) (Z.land c d), 2400959708)
    else (Z.lxor (Z.lxor b c) d, 3395469782) in
  (w32 (rotl32 5 a + f + e + k + w), a, rotl32 30 b, c, d).

Fixpoint sha1_rounds (t : Z) (ws : list Z) (st : sha1_state) : sha1_state :=
  match ws with
  | [] => st
  | w :: ws' => sha1_rounds (t + 1) ws' (sha1_round t w st)
  end.

Definition sha1_block (h : sha1_state) (block : bytes) : sha1_state :=
  let ws := rev (sha1_expand 64 (rev (words_of 16 block))) in
  let '(a, b, c, d, e) := sha1_rounds 0 ws h in
  let '(h0, h1, h2, h3, h4) := h in
  (w32 (h0 + a), w32 (h1 + b), w32 (h2 + c), w32 (h3 + d), w32 (h4 + e)).

Fixpoint sha1_blocks (n : nat) (bs : bytes) (h : sha1_state) : sha1_state :=
  match n with
  | O => h
  | S n' => sha1_blocks n' (drop 64 bs) (sha1_block h (take 64 bs))
  end.

Definition sha1 (msg : bytes) : sha1_state :=
  let p := sha1_pad msg in
  sha1_blocks (length p / 64)%nat p
    (1732584193, 4023233417, 2562383102, 271733878, 3285377520).

Definition hex8 (w : Z) : pystr :=
  [hex_digit (w / 268435456 mod 16); hex_digit (w / 16777216 mod 16);
   hex_digit (w / 1048576 mod 16); hex_digit (w / 65536 mod 16);
   hex_digit (w / 4096 mod 16); hex_digit (w / 256 mod 16);
   hex_digit (w / 16 mod 16); hex_digit (w mod 16)].

Definition hexdigest (st : sha1_state) : pystr :=
  let '(h0, h1, h2, h3, h4) := st in
  hex8 h0 ++ hex8 h1 ++ hex8 h2 ++ hex8 h3 ++ hex8 h4.

(** ** _hash_key *)

Definition version_or_empty (version : option pystr) : pystr :=
  match version with
  | Some (c :: s) => c :: s
  | _ => []
  end.

Definition _hash_key (endpoint : pystr) (payload : value) (version : option pystr)
  : res pystr :=
  let material :=
    VDict [(u "endpoint", VStr endpoint);
           (u "payload", payload);
           (u "version", VStr (version_or_empty version))] in
  match utf8_encode (_stable_json_dumps material) with
  | Ok b => Ok (hexdigest (sha1 b))
  | Raise e => Raise e
  end.

(** ** json.loads *)

Definition is_ws (c : Z) : bool := (c =? 32) || (c =? 9) || (c =? 10) || (c =? 13).

Fixpoint skip_ws (s : pystr) : pystr :=
  match s with
  | [] => []
  | c :: s' => if is_ws c then skip_ws s' else s
  end.

Definition is_digit (c : Z) : bool := (48 <=? c) && (c <=? 57).

Definition hex_val (c : Z) : option Z :=
  if is_digit c then Some (c - 48)
  else if (97 <=? c) && (c <=? 102) then Some (c - 87)
  else if (65 <=? c) && (c <=? 70) then Some (c - 55)
  else None.

(** The four hexadecimal digits after a backslash-u. *)
Definition decode_uXXXX (s : pystr) : option (Z * pystr) :=
  match s with
  | a :: b :: c :: d :: r =>
      match hex_val a, hex_val b, hex_val c, hex_val d with
      | Some x, Some y, Some z, Some t => Some (((x * 16 + y) * 16 + z) * 16 + t, r)
      | _, _, _, _ => None
      end
  | _ => None
  end.

Definition simple_escape (e : Z) : option Z :=
  if e =? 34 then Some 34
  else if e =? 92 then Some 92
  else if e =? 47 then Some 47
  else if e =? 98 then Some 8
  else if e =? 102 then Some 12
  else if e =? 110 then Some 10
  else if e =? 114 then Some 13
  else if e =? 116 then Some 9
  else None.

Definition cons_fst (c : Z) (o : option (pystr * pystr)) : option (pystr * pystr) :=
  match o with
  | Some (s, r) => Some (c :: s, r)
  | None => None
  end.

Definition is_high (x : Z) : bool := (55296 <=? x) && (x <=? 56319).
Definition is_low (x : Z) : bool := (56320 <=? x) && (x <=? 57343).

(** [scanstring], strict: the input starts just after the opening quote; the
    result is the string and the input after the closing quote. *)
Fixpoint scanstring (s : pystr) : option (pystr * pystr) :=
  match s with
  | [] => None
  | c :: r =>
      if c =? 34 then Some ([], r)
      else if c =? 92 then
        match r with
        | [] => None
        | e :: r1 =>
            if e =? 117 then
              match r1 with
              | a :: b :: c1 :: d :: r2 =>
                  match decode_uXXXX [a; b; c1; d] with
                  | None => None
                  | Some (uni, _) =>
                      if is_high uni then
                        match r2 with
                        | bs :: uu :: a2 :: b2 :: c2 :: d2 :: r3 =>
                            if (bs =? 92) && (uu =? 117) then
                              match decode_uXXXX [a2; b2; c2; d2] with
                              | None => None
                              | Some (uni2, _) =>
                                  if is_low uni2 then
                                    cons_fst
                                      (65536 + Z.lor (Z.shiftl (uni - 55296) 10) (uni2 - 56320))
                                      (scanstring r3)
                                  else cons_fst uni (scanstring r2)
                              end
                            else cons_fst uni (scanstring r2)
                        | bs :: uu :: _ =>
                            if (bs =? 92) && (uu =? 117) then None
                            else cons_fst uni (scanstring r2)
                        | _ => cons_fst uni (scanstring r2)
                        end
                      else cons_fst uni (scanstring r2)
                  end
              | _ => None
              end
            else
              match simple_escape e with
              | Some ch => cons_fst ch (scanstring r1)
              | None => None
              end
        end
      else if (0 <=? c) && (c <? 32) then None
      else cons_fst c (scanstring r)
  end.

Fixpoint span_digits (s : pystr) : pystr * pystr :=
  match s with
  | [] => ([], [])
  | c :: r =>
      if is_digit c then let '(d, r') := span_digits r in (c :: d, r') else ([], s)
  end.

Fixpoint chars_uint (ds : pystr) : Decimal.uint :=
  match ds with
  | [] => Decimal.Nil
  | c :: r =>
      let d := chars_uint r in
      if c =? 48 then Decimal.D0 d else if c =? 49 then Decimal.D1 d
      else if c =? 50 then Decimal.D2 d else if c =? 51 then Decimal.D3 d
      else if c =? 52 then Decimal.D4 d else if c =? 53 then Decimal.D5 d
      else if c =? 54 then Decimal.D6 d else if c =? 55 then Decimal.D7 d
      else if c =? 56 then Decimal.D8 d else Decimal.D9 d
  end.

Definition digits_val (ds : pystr) : Z := Z.of_N (N.of_uint (chars_uint ds)).

(** The float denoted by a sign, integer digits, fraction digits and a
    decimal exponent: the decimal, which stands for the double nearest to
    it ([to_double]). *)
Definition mk_float (neg : bool) (ip fp : pystr) (ex : Z) : pyfloat :=
  let n := digits_val (ip ++ fp) in
  let n := if neg then - n else n in
  let e := ex - Z.of_nat (length fp) in
  if e <? 0 then FFin n (Z.to_nat (- e) - 1) else FFin (n * 10 ^ (e + 1)) 0.

(** [(\.[0-9]+)?] *)
Definition match_frac (s : pystr) : pystr * pystr :=
  match s with
  | dot :: r =>
      if dot =? 46 then
        match span_digits r with
        | ([], _) => ([], s)
        | (fd, r') => (fd, r')
        end
      else ([], s)
  | [] => ([], s)
  end.

(** [([eE][-+]?[0-9]+)?] *)
Definition match_exp (s : pystr) : option Z * pystr :=
  match s with
  | e :: r =>
      if (e =? 101) || (e =? 69) then
        let '(neg, r1) :=
          match r with
          | sg :: r' => if sg =? 45 then (true, r') else if sg =? 43 then (false, r') else (false, r)
          | [] => (false, r)
          end in
        match span_digits r1 with
        | ([], _) => (None, s)
        | (ed, r2) => (Some (if neg then - digits_val ed else digits_val ed), r2)
        end
      else (None, s)
  | [] => (None, s)
  end.

(** [NUMBER_RE] after the optional sign: an integer without fraction and
    exponent is an [int], any other match is a [float]. *)
Definition number_body (neg : bool) (s1 : pystr) : option (value * pystr) :=
  match s1 with
  | c :: r =>
      if is_digit c then
        let '(ip, r1) := if c =? 48 then ([48], r) else span_digits s1 in
        let '(fp, r2) := match_frac r1 in
        let '(ex, r3) := match_exp r2 in
        match fp, ex with
        | [], None => Some (VInt (if neg then - digits_val ip else digits_val ip), r3)
        | _, _ => Some (VFloat (mk_float neg ip fp (default 0 ex)), r3)
        end
      else None
  | [] => None
  end.

Definition match_number (s : pystr) : option (value * pystr) :=
  match s with
  | sg :: r => if sg =? 45 then number_body true r else number_body false s
  | [] => None
  end.

Fixpoint strip_prefix (p s : pystr) : option pystr :=
  match p, s with
  | [], _ => Some s
  | a :: p', b :: s' => if a =? b then strip_prefix p' s' else None
  | _ :: _, [] => None
  end.

Definition scan_literal (s : pystr) : option (value * pystr) :=
  match strip_prefix (u "null") s with
  | Some r => Some (VNone, r)
  | None =>
  match strip_prefix (u "true") s with
  | Some r => Some (VBool true, r)
  | None =>
  match strip_prefix (u "false") s with
  | Some r => Some (VBool false, r)
  | None =>
  match match_number s with
  | Some x => Some x
  | None =>
  match strip_prefix (u "NaN") s with
  | Some r => Some (VFloat FNan, r)
  | None =>
  match strip_prefix (u "Infinity") s with
  | Some r => Some (VFloat (FInf false), r)
  | None =>
  match strip_prefix (u "-Infinity") s with
  | Some r => Some (VFloat (FInf true), r)
  | None => None
  end end end end end end end.

(** [scan_once], [JSONArray] and [JSONObject].  The fuel bounds the number of
    nested calls; [json_loads] gives one unit per character. *)
Fixpoint scan_once (fuel : nat) (s : pystr) : option (value * pystr) :=
  match fuel with
  | O => None
  | S fuel' =>
      match s with
      | [] => None
      | c :: r =>
          if c =? 34 then
            match scanstring r with
            | Some (str, r') => Some (VStr str, r')
            | None => None
            end
          else if c =? 123 then
            match skip_ws r with
            | c1 :: r1 =>
                if c1 =? 125 then Some (VDict [], r1)
                else if c1 =? 34 then parse_object fuel' r1 []
                else None
            | [] => None
            end
          else if c =? 91 then
            match skip_ws r with
            | c1 :: r1 =>
                if c1 =? 93 then Some (VList [], r1)
                else parse_array fuel' (c1 :: r1) []
            | [] => None
            end
          else scan_literal s
      end
  end
with parse_array (fuel : nat) (s : pystr) (acc : list value) : option (value * pystr) :=
  match fuel with
  | O => None
  | S fuel' =>
      match scan_once fuel' s with
      | None => None
      | Some (v, r) =>
          match skip_ws r with
          | c :: r' =>
              if c =? 93 then Some (VList (rev (v :: acc)), r')
              else if c =? 44 then parse_array fuel' (skip_ws r') (v :: acc)
              else None
          | [] => None
          end
      end
  end
with parse_object (fuel : nat) (s : pystr) (acc : list (pystr * value))
  : option (value * pystr) :=
  match fuel with
  | O => None
  | S fuel' =>
      match scanstring s with
      | None => None
      | Some (key, r) =>
          match skip_ws r with
          | c :: r1 =>
              if c =? 58 then
                match scan_once fuel' (skip_ws r1) with
                | None => None
                | Some (v, r2) =>
                    let acc' := dict_set acc key v in
                    match skip_ws r2 with
                    | c2 :: r3 =>
                        if c2 =? 125 then Some (VDict acc', r3)
                        else if c2 =? 44 then
                          match skip_ws r3 with
                          | q :: r4 => if q =? 34 then parse_object fuel' r4 acc' else None
                          | [] => None
                          end
                        else None
                    | [] => None
                    end
                end
              else None
          | [] => None
          end
      end
  end.

Definition json_loads (s : pystr) : res value :=
  match scan_once (S (length s)) (skip_ws s) with
  | Some (v, r) =>
      match skip_ws r with
      | [] => Ok v
      | _ :: _ => Raise JSONDecodeError
      end
  | None => Raise JSONDecodeError
  end.

(** ** float(x), and the arithmetic of the staleness test *)

Definition lower (c : Z) : Z := if (65 <=? c) && (c <=? 90) then c + 32 else c.

(** [float(s)] for a string: surrounding blanks, a sign, then [inf],
    [infinity], [nan] in any case or a decimal number with an optional
    exponent.  What the model accepts Python accepts, with the same value;
    Python accepts more (underscores between digits, other blanks and
    digits), so that a refusal of the model says nothing about Python. *)
Definition float_of_str (s : pystr) : res pyfloat :=
  let s := rev (skip_ws (rev (skip_ws s))) in
  let '(neg, s1) :=
    match s with
    | sg :: r => if sg =? 45 then (true, r) else if sg =? 43 then (false, r) else (false, s)
    | [] => (false, s)
    end in
  let l := List.map lower s1 in
  if bool_decide (l = u "inf") || bool_decide (l = u "infinity") then Ok (FInf neg)
  else if bool_decide (l = u "nan") then Ok FNan
  else
    let '(ip, r1) := span_digits s1 in
    let '(fp, r2) :=
      match r1 with
      | dot :: r => if dot =? 46 then span_digits r else ([], r1)
      | [] => ([], r1)
      end in
    let '(ex, r3) := match_exp r2 in
    match ip ++ fp, r3 with
    | _ :: _, [] => Ok (mk_float neg ip fp (default 0 ex))
    | _, _ => Raise ValueError
    end.

(** *** The arithmetic of doubles

    A Python [float] is an IEEE 754 double.  A decimal of the model stands
    for the double nearest to it, as the decimal text of a float does when
    Python reads it, and arithmetic goes through that double. *)

(** [p/q] rounded to the nearest integer, a tie going to the even one
    ([0 < q]). *)
Definition round_ne (p q : Z) : Z :=
  let f := p / q in
  let r := p mod q in
  if 2 * r <? q then f
  else if q <? 2 * r then f + 1
  else if Z.even f then f else f + 1.

(** A double: [m * 2^e], an infinity or a NaN. *)
Inductive double :=
| DFin (m e : Z)
| DInf (neg : bool)
| DNan.

(** The exponent and the mantissa of the double nearest to [a/q]
    ([0 <= a], [0 < q]): a mantissa of 53 bits, an exponent from -1074 on, a
    tie going to the even mantissa. *)
Definition expo (a q : Z) : Z := Z.max (Z.log2 (a * 2 ^ 1074 / q) - 1126) (-1074).
Definition mant (a q e : Z) : Z :=
  if e <? 0 then round_ne (a * 2 ^ (- e)) q else round_ne a (q * 2 ^ e).

(** The double nearest to [p/q] ([0 < q]); the infinity from
    [2^1024 - 2^970] on. *)
Definition nearest_double (p q : Z) : double :=
  let a := Z.abs p in
  let e := expo a q in
  let m := mant a q e in
  if (971 <? e) || ((e =? 971) && (2 ^ 53 <=? m)) then DInf (p <? 0)
  else DFin (if p <? 0 then - m else m) e.

(** The value of the finite double [m * 2^e] in units of [2^-1074]. *)
Definition units (m e : Z) : Z := m * 2 ^ (e + 1074).

Definition to_double (f : pyfloat) : double :=
  match f with
  | FFin m k => nearest_double m (10 ^ Z.of_nat (S k))
  | FNan => DNan
  | FInf neg => DInf neg
  end.

(** The decimal that a double is. *)
Definition of_double (d : double) : pyfloat :=
  match d with
  | DFin m e =>
      if e <? 0 then FFin (m * 5 ^ (- e)) (Z.to_nat (- e) - 1) else FFin (m * 2 ^ e * 10) 0
  | DInf neg => FInf neg
  | DNan => FNan
  end.

(** [x - y] on doubles: the exact difference, rounded. *)
Definition dsub (x y : double) : double :=
  match x, y with
  | DNan, _ | _, DNan => DNan
  | DInf a, DInf b => if Bool.eqb a b then DNan else DInf a
  | DInf a, DFin _ _ => DInf a
  | DFin _ _, DInf b => DInf (negb b)
  | DFin m1 e1, DFin m2 e2 =>
      let e := Z.min e1 e2 in
      let d := m1 * 2 ^ (e1 - e) - m2 * 2 ^ (e2 - e) in
      if e <? 0 then nearest_double d (2 ^ (- e)) else nearest_double (d * 2 ^ e) 1
  end.

(** [float(v)]: an integer beyond the range of the doubles raises
    [OverflowError]. *)
Definition py_float (v : value) : res pyfloat :=
  match v with
  | VInt n =>
      match nearest_double n 1 with
      | DInf _ => Raise OverflowError
      | _ => Ok (FFin (n * 10) 0)
      end
  | VBool b => Ok (FFin (if b then 10 else 0) 0)
  | VFloat f => Ok f
  | VStr s => float_of_str s
  | VNone | VList _ | VDict _ | VObj _ => Raise TypeError
  end.

(** [a - b]: the difference of the two doubles, as a double; [a - 0.0] is
    [a]. *)
Definition fsub (a b : pyfloat) : pyfloat :=
  match b with
  | FFin 0 _ => a
  | _ => of_double (dsub (to_double a) (to_double b))
  end.

(** [a > n] for a float and an integer: the double against the exact
    integer. *)
Definition fgt (a : pyfloat) (n : Z) : bool :=
  match to_double a with
  | DFin m e => if e <? 0 then n * 2 ^ (- e) <? m else n <? m * 2 ^ e
  | DNan => false
  | DInf neg => negb neg
  end.

(** [meta.get(key, default)]: only a mapping has the method. *)
Definition py_get (v : value) (key : pystr) (dflt : value) : res value :=
  match v with
  | VDict d => Ok (default dflt (dict_get d key))
  | _ => Raise AttributeError
  end.

(** [if isinstance(resp, dict): resp["_from_cache"] = True] *)
Definition mark_from_cache (resp : value) : value :=
  match resp with
  | VDict d => VDict (dict_set d (u "_from_cache") (VBool true))
  | _ => resp
  end.

(** ** pathlib *)

Abbreviation path := (bool * list (list Z))%type (only parsing).

Fixpoint split_slash (s cur : pystr) : list pystr :=
  match s with
  | [] => [rev cur]
  | c :: s' => if c =? 47 then rev cur :: split_slash s' [] else split_slash s' (c :: cur)
  end.

Definition path_parts (s : pystr) : list pystr :=
  List.filter (fun x => negb (str_eqb x []) && negb (str_eqb x [46])) (split_slash s []).

(** [Path(s)]: whether it is anchored at the root, and its components. *)
Definition Path (s : pystr) : path :=
  (match s with c :: _ => c =? 47 | [] => false end, path_parts s).

(** [p / s] *)
Definition joinpath (p : path) (s : pystr) : path :=
  if fst (Path s) then Path s else (fst p, snd p ++ path_parts s).

Notation "p </> s" := (joinpath p s) (at level 40, left associativity).

(** [p.parent] *)
Definition parent (p : path) : path := (fst p, removelast (snd p)).

(** ** The world: files, clock, failures and the record of calls *)

Inductive event :=
| EvExists (p : path)
| EvRead (p : path)
| EvMkdir (p : path)
| EvCreate (p : path)
| EvWrite (p : path) (data : bytes)
| EvFlush (p : path)
| EvFsync (p : path)
| EvReplace (src dst : path)
| EvFetch (payload : value)
| EvHook (response : value) (outdir : path)
| EvWarn (e : exn).

(** [files] holds the content of every regular file and [synced] the files
    whose content has reached the disk.  Directories are not tracked.  Each
    system call takes the next decision of [faults]: [None] lets it succeed,
    [Some n] makes it raise [OSError] (a write has then stored [n] bytes);
    after the last decision nothing fails.  [log] records the calls made, in
    order. *)
Record world := World {
  files : gmap (bool * list (list Z)) (list Z);
  synced : gset (bool * list (list Z));
  clock : pyfloat;
  faults : list (option nat);
  log : list event;
}.

Definition set_files (f : gmap (bool * list (list Z)) (list Z)) (w : world) : world :=
  World f (synced w) (clock w) (faults w) (log w).
Definition set_synced (s : gset (bool * list (list Z))) (w : world) : world :=
  World (files w) s (clock w) (faults w) (log w).
Definition set_faults (fs : list (option nat)) (w : world) : world :=
  World (files w) (synced w) (clock w) fs (log w).
Definition set_log (l : list event) (w : world) : world :=
  World (files w) (synced w) (clock w) (faults w) l.

(** Computations that read and change the world and may raise. *)
Definition M (A : Type) : Type := world -> res A * world.

Definition ret {A} (a : A) : M A := fun w => (Ok a, w).
Definition raise {A} (e : exn) : M A := fun w => (Raise e, w).
Definition bind {A B} (m : M A) (k : A -> M B) : M B :=
  fun w =>
    match m w with
    | (Ok a, w') => k a w'
    | (Raise e, w') => (Raise e, w')
    end.
Definition lift {A} (r : res A) : M A := fun w => (r, w).

(** [try: m  except Exception as e: h e] *)
Definition try_except {A} (m : M A) (h : exn -> M A) : M A :=
  fun w =>
    match m w with
    | (Ok a, w') => (Ok a, w')
    | (Raise e, w') => h e w'
    end.

Declare Scope M_scope.
Delimit Scope M_scope with M.
Notation "x <- m ;; k" := (bind m (fun x => k))
  (at level 100, m at next level, k at level 200, right associativity) : M_scope.
Notation "m ;; k" := (bind m (fun _ => k))
  (at level 100, k at level 200, right associativity) : M_scope.
Local Open Scope M_scope.

Definition emit (e : event) : M unit :=
  fun w => (Ok tt, set_log (log w ++ [e]) w).

Definition next_fault : M (option nat) :=
  fun w =>
    match faults w with
    | [] => (Ok None, w)
    | f :: fs => (Ok f, set_faults fs w)
    end.

(** A system call without a result: recorded, then failing or not. *)
Definition syscall (e : event) : M unit :=
  emit e ;;
  f <- next_fault ;;
  match f with
  | Some _ => raise OSError
  | None => ret tt
  end.

Definition modify (f : world -> world) : M unit := fun w => (Ok tt, f w).

(** [time.time()] *)
Definition time_time : M pyfloat := fun w => (Ok (clock w), w).

(** [p.exists()] *)
Definition path_exists (p : path) : M bool :=
  emit (EvExists p) ;;
  fun w => (Ok (bool_decide (is_Some (files w !! p))), w).

(** [p.read_text(encoding="utf-8")] *)
Definition read_text (p : path) : M pystr :=
  syscall (EvRead p) ;;
  fun w =>
    match files w !! p with
    | None => (Raise FileNotFoundError, w)
    | Some b => (utf8_decode b, w)
    end.

(** [p.mkdir(parents=True, exist_ok=True)] *)
Definition mkdir (p : path) : M unit := syscall (EvMkdir p).

(** A name that no file bears: longer than every name in use. *)
Definition tmp_name (fs : gmap (bool * list (list Z)) (list Z)) : pystr :=
  u "tmp" ++
  replicate
    (S (max_list (List.map (fun p : path => length (default [] (last (snd p))))
                    (elements (dom fs)))))
    95.

(** [tempfile.NamedTemporaryFile(dir=d, delete=False)]: a new, empty file
    in [d]. *)
Definition named_temporary_file (d : path) : M path :=
  fun w =>
    let tmp : path := (fst d, snd d ++ [tmp_name (files w)]) in
    (syscall (EvCreate tmp) ;;
     modify (fun w => set_synced (synced w ∖ {[tmp]}) (set_files (<[tmp := []]> (files w)) w)) ;;
     ret tmp) w.

(** [tmp.write(data)] *)
Definition tmp_write (tmp : path) (data : bytes) : M unit :=
  emit (EvWrite tmp data) ;;
  f <- next_fault ;;
  match f with
  | Some n =>
      modify (fun w => set_synced (synced w ∖ {[tmp]})
                         (set_files (<[tmp := take n data]> (files w)) w)) ;;
      raise OSError
  | None =>
      modify (fun w => set_synced (synced w ∖ {[tmp]})
                         (set_files (<[tmp := data]> (files w)) w))
  end.

(** [tmp.flush()] *)
Definition tmp_flush (tmp : path) : M unit := syscall (EvFlush tmp).

(** [os.fsync(tmp.fileno())] *)
Definition os_fsync (tmp : path) : M unit :=
  syscall (EvFsync tmp) ;;
  modify (fun w => set_synced ({[tmp]} ∪ synced w) w).

(** [os.replace(src, dst)]: one step that moves the file and what is known
    of its durability. *)
Definition os_replace (src dst : path) : M unit :=
  syscall (EvReplace src dst) ;;
  fun w =>
    match files w !! src with
    | None => (Raise FileNotFoundError, w)
    | Some b =>
        (Ok tt,
         set_synced
           (if bool_decide (src ∈ synced w) then {[dst]} ∪ (synced w ∖ {[src]})
            else synced w ∖ {[src]} ∖ {[dst]})
           (set_files (<[dst := b]> (delete src (files w))) w))
    end.

(** ** The functions of cache_nim.py that touch the disk *)

Definition _atomic_write (p : path) (data : bytes) : M unit :=
  mkdir (parent p) ;;
  tmp <- named_temporary_file (parent p) ;;
  tmp_write tmp data ;;
  tmp_flush tmp ;;
  os_fsync tmp ;;
  os_replace tmp p.

Definition _read_json (p : path) : M value :=
  s <- read_text p ;;
  lift (json_loads s).

Definition _write_json (p : path) (obj : value) : M unit :=
  b <- lift (utf8_encode (_stable_json_dumps obj)) ;;
  _atomic_write p b.

(** The collaborators.  [fetch_fn] returns a status and a result or raises;
    the [save_extra] hook may change files and may raise. *)
Definition fetcher : Type := value -> res (Z * value).
Definition hook : Type :=
  value -> path -> gmap (bool * list (list Z)) (list Z)
  -> res unit * gmap (bool * list (list Z)) (list Z).

Definition call_fetch (fetch_fn : fetcher) (payload : value) : M (Z * value) :=
  emit (EvFetch payload) ;;
  lift (fetch_fn payload).

Definition call_hook (h : hook) (response : value) (outdir : path) : M unit :=
  emit (EvHook response outdir) ;;
  fun w =>
    let '(r, fs) := h response outdir (files w) in
    (r, set_synced (filter (fun p => fs !! p = files w !! p) (synced w)) (set_files fs w)).

(** ** query_nim_cached *)

Definition serve_result (result_path : path) : M (option (Z * value)) :=
  resp <- _read_json result_path ;;
  ret (Some (200, mark_from_cache resp)).

(** The body of the [try] of step 1: [Some] is a [return], [None] is the
    [pass] of a stale entry. *)
Definition cache_lookup (result_path meta_path : path) (ttl_seconds : option Z)
  : M (option (Z * value)) :=
  match ttl_seconds with
  | Some ttl =>
      ex <- path_exists meta_path ;;
      if ex then
        meta <- _read_json meta_path ;;
        now <- time_time ;;
        created <- lift (py_get meta (u "created_at") (VInt 0)) ;;
        c <- lift (py_float created) ;;
        let age := fsub now c in
        if fgt age ttl then ret None else serve_result result_path
      else serve_result result_path
  | None => serve_result result_path
  end.

(** Step 1 as a whole: the cached answer, if the cache may and can give one. *)
Definition load_from_cache (result_path meta_path : path) (ttl_seconds : option Z)
  (refresh : bool) : M (option (Z * value)) :=
  if negb refresh then
    ex <- path_exists result_path ;;
    if ex then try_except (cache_lookup result_path meta_path ttl_seconds) (fun _ => ret None)
    else ret None
  else ret None.

Definition version_value (version : option pystr) : value :=
  match version with
  | Some s => VStr s
  | None => VNone
  end.

(** The body of the [try] of step 3: the three artifacts, then the hook. *)
Definition store_artifacts (outdir : path) (meta payload response : value) : M unit :=
  mkdir outdir ;;
  _write_json (outdir </> u "meta.json") meta ;;
  _write_json (outdir </> u "payload.json") payload ;;
  _write_json (outdir </> u "result.json") response.

Definition persist (outdir : path) (meta payload response : value)
  (save_extra : option hook) : M unit :=
  store_artifacts outdir meta payload response ;;
  match save_extra with
  | Some h => call_hook h response outdir
  | None => ret tt
  end.

(** The [meta] dictionary of step 3. *)
Definition meta_record (step key endpoint : pystr) (version : option pystr)
  (now : pyfloat) : value :=
  VDict [(u "step", VStr step); (u "key", VStr key); (u "endpoint", VStr endpoint);
         (u "version", version_value version); (u "created_at", VFloat now)].

(** Steps 2 and 3. *)
Definition fetch_and_store (step key endpoint : pystr) (version : option pystr)
  (outdir : path) (payload : value) (fetch_fn : fetcher) (save_extra : option hook)
  : M (Z * value) :=
  r <- call_fetch fetch_fn payload ;;
  now <- time_time ;;
  let meta := meta_record step key endpoint version now in
  try_except (persist outdir meta payload (snd r) save_extra)
    (fun e => emit (EvWarn e)) ;;
  ret (fst r, snd r).

Definition query_nim_cached (step endpoint : pystr) (payload : value)
  (fetch_fn : fetcher) (cache_dir : pystr) (version : option pystr)
  (ttl_seconds : option Z) (refresh : bool) (save_extra : option hook)
  : M (Z * value) :=
  let base := Path cache_dir in
  key <- lift (_hash_key endpoint payload version) ;;
  let outdir := base </> step </> key in
  let result_path := outdir </> u "result.json" in
  let meta_path := outdir </> u "meta.json" in
  cached <- load_from_cache result_path meta_path ttl_seconds refresh ;;
  match cached with
  | Some hit => ret hit
  | None => fetch_and_store step key endpoint version outdir payload fetch_fn save_extra
  end.

(** ** Notions used to state the properties *)

Definition is_fetch (e : event) : bool :=
  match e with EvFetch _ => true | _ => false end.
Definition is_hook (e : event) : bool :=
  match e with EvHook _ _ => true | _ => false end.
Definition is_read (e : event) : bool :=
  match e with EvRead _ | EvExists _ => true | _ => false end.
Definition is_warn (e : event) : bool :=
  match e with EvWarn _ => true | _ => false end.

(** How many recorded calls satisfy [P]. *)
Definition count_ev (P : event -> bool) (l : list event) : nat :=
  length (List.filter P l).

(** No system call is made to fail. *)
Definition no_faults (w : world) : Prop := Forall (fun f => f = None) (faults w).

(** Python dictionaries have distinct keys: the values of the model that
    are Python values. *)
Fixpoint wf_value (v : value) : bool :=
  match v with
  | VList l => forallb wf_value l
  | VDict d =>
      bool_decide (NoDup (List.map fst d)) && forallb (fun kv => wf_value (snd kv)) d
  | _ => true
  end.

#[global] Instance pyfloat_eq_dec : EqDecision pyfloat.
Proof. solve_decision. Defined.

(** Two values with the same contents: equal scalars, sequences equal
    item by item, mappings with the same keys bound to the same contents, in
    any order. *)
Fixpoint same_contents (a b : value) : bool :=
  match a, b with
  | VNone, VNone => true
  | VBool x, VBool y => eqb x y
  | VInt x, VInt y => x =? y
  | VFloat x, VFloat y => bool_decide (x = y)
  | VStr x, VStr y => str_eqb x y
  | VObj x, VObj y => str_eqb x y
  | VList l1, VList l2 =>
      (fix go (l1 l2 : list value) : bool :=
         match l1, l2 with
         | [], [] => true
         | x :: l1', y :: l2' => same_contents x y && go l1' l2'
         | _, _ => false
         end) l1 l2
  | VDict d1, VDict d2 =>
      (length d1 =? length d2)%nat
      && forallb
           (fun kv =>
              match dict_get d2 (fst kv) with
              | Some y => same_contents (snd kv) y
              | None => false
              end) d1
  | _, _ => false
  end.

(** Strings of Unicode scalar values: no surrogate code points. *)
Definition is_scalar (c : Z) : bool :=
  (0 <=? c) && (c <=? 1114111) && negb ((55296 <=? c) && (c <=? 57343)).

Fixpoint wf_text (v : value) : bool :=
  match v with
  | VStr s | VObj s => forallb is_scalar s
  | VList l => forallb wf_text l
  | VDict d => forallb (fun kv => forallb is_scalar (fst kv) && wf_text (snd kv)) d
  | _ => true
  end.

(** What the file of a value holds, read back: the keys of a mapping in
    sorted order, the display form for a value that JSON does not have. *)
Fixpoint stored (v : value) : value :=
  match v with
  | VList l => VList (List.map stored l)
  | VDict d => VDict (sort_items (List.map (fun kv => (fst kv, stored (snd kv))) d))
  | VObj s => VStr s
  | _ => v
  end.


(** The values that [json.dumps] accepts with the limits that the
    interpreter has by default: integers of at most 4300 digits, and a
    nesting of at most a hundred levels, far from the limit of recursion. *)
Fixpoint small_ints (v : value) : bool :=
  match v with
  | VInt n => Z.abs n <? 10 ^ 4300
  | VList l => forallb small_ints l
  | VDict d => forallb (fun kv => small_ints (snd kv)) d
  | _ => true
  end.
Fixpoint depth (v : value) : nat :=
  match v with
  | VList l => S (list_max (List.map depth l))
  | VDict d => S (list_max (List.map (fun kv => depth (snd kv)) d))
  | _ => 0
  end.
Definition json_safe (v : value) : bool := small_ints v && (depth v <=? 100)%nat.

(** What may follow a value in the text of the encoder. *)
Definition delim (rest : pystr) : Prop :=
  match rest with
  | [] => True
  | c :: _ => c = 44 \/ c = 93 \/ c = 125
  end.

(** The fuel that the scanner needs for the text of a value. *)
Fixpoint vsize (v : value) : nat :=
  match v with
  | VList l => S (sum_list (List.map (fun x => S (vsize x)) l))
  | VDict d => S (sum_list (List.map (fun kv => S (vsize (snd kv))) d))
  | _ => 1
  end.

Definition starts_value (s : list Z) : Prop :=
  exists c r, s = c :: r /\ is_ws c = false /\ c <> 93 /\ c <> 125 /\ c <> 44 /\ c <> 58.

Definition render_item (kv : list Z * value) : list Z :=
  encode_basestring_ascii (fst kv) ++ [58] ++ dumps (snd kv).

(** The property of one value: its text, followed by what may follow a
    value, is scanned back to the stored value. *)
Definition scans_back (v : value) : Prop :=
  forall fuel rest,
    wf_value v = true -> wf_text v = true -> (vsize v <= fuel)%nat -> delim rest ->
    scan_once fuel (dumps v ++ rest) = Some (stored v, rest).

(** A lower-case hexadecimal digit. *)
Definition is_hex (c : Z) : bool := ((48 <=? c) && (c <=? 57)) || ((97 <=? c) && (c <=? 102)).

(** Items in the strict order of their keys. *)
Definition key_lt {A} (x y : pystr * A) : Prop := str_ltb (fst x) (fst y) = true.

(** The key of an entry: the digest that [_hash_key] returns. *)
Definition cache_key (endpoint : pystr) (payload : value) (version : option pystr)
  : pystr :=
  hexdigest
    (sha1 (dumps (VDict [(u "endpoint", VStr endpoint); (u "payload", payload);
                         (u "version", VStr (version_or_empty version))]))).

(** The entry directory and its artifacts, as [query_nim_cached] computes
    them. *)
Definition entry_dir (cache_dir step key : pystr) : path :=
  Path cache_dir </> step </> key.
Definition result_file (d : path) : path := d </> u "result.json".
Definition meta_file (d : path) : path := d </> u "meta.json".
Definition payload_file (d : path) : path := d </> u "payload.json".

(** The world once [fetch_fn] has been called. *)
Definition after_fetch (payload : value) (w : world) : world :=
  set_log (log w ++ [EvFetch payload]) w.

Definition is_write (e : event) : bool :=
  match e with
  | EvMkdir _ | EvCreate _ | EvWrite _ _ | EvFlush _ | EvFsync _ | EvReplace _ _ => true
  | _ => false
  end.

(** [m] appends to the record, and only calls of the kind [Q]. *)
Definition emits_only (Q : event -> bool) {A} (m : M A) : Prop :=
  forall w, exists l, log (snd (m w)) = log w ++ l /\ forallb Q l = true.

Definition ascii_str (s : list Z) : Prop := Forall (fun c => 0 <= c < 128) s.

(** The decision that the next system call takes, and the world after it. *)
Definition head_fault (w : world) : option nat :=
  match faults w with
  | f :: _ => f
  | [] => None
  end.
Definition pop_fault (w : world) : world :=
  match faults w with
  | [] => w
  | _ :: fs => set_faults fs w
  end.

(** What [_read_json] makes of the content of a file. *)
Definition loads_bytes (b : bytes) : res value :=
  match utf8_decode b with
  | Ok s => json_loads s
  | Raise e => Raise e
  end.
Definition read_file (w : world) (p : path) : res value :=
  match files w !! p with
  | None => Raise FileNotFoundError
  | Some b => loads_bytes b
  end.
Definition after_read (p : path) (w : world) : world :=
  pop_fault (set_log (log w ++ [EvRead p]) w).

(** The time [s] seconds before [now]. *)
Definition seconds_before (s : Z) (now : pyfloat) : pyfloat :=
  match now with
  | FFin m k => FFin (m - s * 10 ^ Z.of_nat (S k)) k
  | _ => now
  end.

(** A time within [2^40] seconds of the epoch. *)
Definition epoch_time (f : pyfloat) : bool :=
  match f with
  | FFin m k => Z.abs m <? 10 ^ Z.of_nat (S k) * 2 ^ 40
  | _ => false
  end.

(** [now - c], the difference of the two decimals, in milliseconds:
    at least [ms], at most [ms]. *)
Definition elapsed_ms_ge (now c : pyfloat) (ms : Z) : bool :=
  match now, c with
  | FFin mn kn, FFin mc kc =>
      let qn := 10 ^ Z.of_nat (S kn) in
      let qc := 10 ^ Z.of_nat (S kc) in
      ms * (qn * qc) <=? 1000 * (mn * qc - mc * qn)
  | _, _ => false
  end.
Definition elapsed_ms_le (now c : pyfloat) (ms : Z) : bool :=
  match now, c with
  | FFin mn kn, FFin mc kc =>
      let qn := 10 ^ Z.of_nat (S kn) in
      let qc := 10 ^ Z.of_nat (S kc) in
      1000 * (mn * qc - mc * qn) <=? ms * (qn * qc)
  | _, _ => false
  end.

(** The last component of a path, and the names that [tempfile] gives. *)
Definition file_name (p : path) : pystr := default [] (last (snd p)).
Definition temporary_name (s : pystr) : bool :=
  match strip_prefix (u "tmp") s with
  | Some _ => true
  | None => false
  end.

(** The temporary file of an [_atomic_write] to [p] that starts in [w]. *)
Definition tmp_of (p : path) (w : world) : path :=
  (fst (parent p), snd (parent p) ++ [tmp_name (files w)]).

(** The system calls of one [_atomic_write], in order. *)
Definition write_protocol (p tmp : path) (data : bytes) : list event :=
  [EvMkdir (parent p); EvCreate tmp; EvWrite tmp data; EvFlush tmp; EvFsync tmp;
   EvReplace tmp p].

(** What may be found after a crash: a synced file with its content, any
    other file with a part of its content or not at all. *)
Definition crash_view (w : world) (fs : gmap (bool * list (list Z)) (list Z)) : Prop :=
  forall p : path,
    if bool_decide (p ∈ synced w) then fs !! p = files w !! p
    else fs !! p = None \/ exists b n, files w !! p = Some b /\ fs !! p = Some (take n b).

(** The two outcomes of a call made in the world [w]. *)
Definition recomputed (run : res (Z * value) * world) (w : world)
  (fetch_fn : fetcher) (payload : value) : Prop :=
  fst run = fetch_fn payload
  /\ count_ev is_fetch (log (snd run)) = S (count_ev is_fetch (log w)).
Definition served (run : res (Z * value) * world) (w : world) (resp : value) : Prop :=
  fst run = Ok (200, mark_from_cache resp)
  /\ count_ev is_fetch (log (snd run)) = count_ev is_fetch (log w)
  /\ files (snd run) = files w.


(** ** A request and some worlds, for the properties shown on a concrete
    call *)

Definition ex_step : pystr := u "embed".
Definition ex_endpoint : pystr := u "v1/embed".
Definition ex_cache_dir : pystr := u ".nim_cache".
Definition ex_payload : value := VDict [(u "text", VStr (u "hi"))].
Definition ex_result : value :=
  VDict [(u "vector", VList [VFloat (FFin 1 0); VFloat (FFin 2 0)])].
Definition ex_fetch : fetcher := fun _ => Ok (200, ex_result).
Definition ex_busy : fetcher := fun _ => Ok (503, VStr (u "busy")).

(** A hook that writes one more file into the entry directory. *)
Definition ex_hook : hook :=
  fun _ d fs => (Ok tt, <[d </> u "structure.pdb" := u "ATOM"]> fs).
Definition ex_dir : path :=
  entry_dir ex_cache_dir ex_step (cache_key ex_endpoint ex_payload None).

(** The time 1700000600.0 *)
Definition ex_now : pyfloat := FFin 17000006000 0.

(** A world that holds the given files, synced. *)
Definition ex_world (fs : list (path * bytes)) (fl : list (option nat)) : world :=
  World (list_to_map fs) (list_to_set (List.map fst fs)) ex_now fl [].

Definition ex_meta (created : pyfloat) : bytes :=
  dumps (meta_record ex_step (cache_key ex_endpoint ex_payload None) ex_endpoint None created).

(** The entry of the request with metadata created [age] seconds before
    the clock. *)
Definition ex_aged (age : Z) : world :=
  ex_world [(result_file ex_dir, dumps ex_result);
            (meta_file ex_dir, ex_meta (seconds_before age ex_now))] [].

(** The entry of the request with metadata created at [created], at the
    time [now]. *)
Definition ex_at (now created : pyfloat) : world :=
  World (<[result_file ex_dir := dumps ex_result]>
           (<[meta_file ex_dir := ex_meta created]> ∅))
    ∅ now [] [].

(** An entry with a result file and an unreadable metadata file. *)
Definition ex_corrupt_meta : world :=
  ex_world [(result_file ex_dir, dumps ex_result); (meta_file ex_dir, u "not json")] [].

(** C3 as the specification has it: with a TTL and a readable result, a
    metadata file that is missing or cannot be parsed leaves the entry
    served. *)
Definition lenient_on_unreadable_meta : Prop :=
  forall step endpoint payload fetch_fn cache_dir version ttl save_extra w rb resp,
    let d := entry_dir cache_dir step (cache_key endpoint payload version) in
    files w !! result_file d = Some rb ->
    loads_bytes rb = Ok resp ->
    (files w !! meta_file d = None
     \/ exists mb e, files w !! meta_file d = Some mb /\ loads_bytes mb = Raise e) ->
    no_faults w ->
    served
      (query_nim_cached step endpoint payload fetch_fn cache_dir version (Some ttl) false
         save_extra w)
      w resp.

(** ** Further notions: the text of the encoder and the key material *)

(** Printable ASCII: from the space to the tilde. *)
Definition printable (s : pystr) : Prop := Forall (fun c => 32 <= c <= 126) s.

(** The [material] dictionary of [_hash_key]. *)
Definition key_material (endpoint : pystr) (payload : value) (version : option pystr)
  : value :=
  VDict [(u "endpoint", VStr endpoint);
         (u "payload", payload);
         (u "version", VStr (version_or_empty version))].

(** A path component as [pathlib] keeps it: no slash, not empty, not the
    single dot. *)
Definition plain_name (s : pystr) : bool :=
  forallb (fun c => negb (c =? 47)) s && negb (str_eqb s []) && negb (str_eqb s [46]).

(** A collaborator that is down. *)
Definition ex_down : fetcher := fun _ => Raise (FetchError 503).

(** A payload with an object that JSON does not have, and the same
    contents in another order of the keys. *)
Definition ex_mixed : value :=
  VDict [(u "when", VObj (u "2024-01-01")); (u "n", VInt 3); (u "tags", VList [VStr (u "a")])].
Definition ex_plain : value := VDict [(u "n", VInt 3); (u "tags", VList [VStr (u "a")])].
Definition ex_plain' : value := VDict [(u "tags", VList [VStr (u "a")]); (u "n", VInt 3)].

(** The first call of the request on an empty cache, and the world [age]
    seconds later with the files that the call left. *)
Definition ex_first_call : res (Z * value) * world :=
  query_nim_cached ex_step ex_endpoint ex_payload ex_fetch ex_cache_dir None None false None
    (ex_world [] []).
Definition ex_later (age : Z) : world :=
  World (files (snd ex_first_call)) ∅ (FFin (17000006000 + age * 10) 0) [] [].

(** The entry of the request, 61 seconds old, in a world where the tenth
    system call fails (the creation of the temporary file of
    [payload.json]); the call made there, and the world that it leaves. *)
Definition ex_failing : world :=
  ex_world [(result_file ex_dir, dumps ex_result);
            (meta_file ex_dir, ex_meta (seconds_before 61 ex_now))]
    (replicate 9 None ++ [Some 0%nat]).
Definition ex_failed_call : res (Z * value) * world :=
  query_nim_cached ex_step ex_endpoint ex_payload ex_busy ex_cache_dir None (Some 60) false
    None ex_failing.
Definition ex_after_failure : world :=
  World (files (snd ex_failed_call)) ∅ ex_now [] [].

(** ** Properties *)

Example sha1_abc :
  hexdigest (sha1 (u "abc")) = u "a9993e364706816aba3e25717850c26c9cd0d89d".
Proof. vm_compute. reflexivity. Qed.
Example sha1_empty :
  hexdigest (sha1 []) = u "da39a3ee5e6b4b0d3255bfef95601890afd80709".
Proof. vm_compute. reflexivity. Qed.
Example sha1_long :
  hexdigest (sha1 (u "abcdbcdecdefdefgefghfghighijhijkijkljklmklmnlmnomnopnopq"))
  = u "84983e441c3bd26ebaae4aa1f95129e5e54670f1".
Proof. vm_compute. reflexivity. Qed.

Example dumps_sorted_escaped :
  _stable_json_dumps
    (VDict [(u "b", VInt (-12));
            (u "a", VList [VBool true; VNone; VFloat (FFin 15 0); VStr [233; 10; 128512; 127]])])
  = [123; 34] ++ u "a" ++ [34] ++ u ":[true,null,1.5," ++ [34]
    ++ u "\u00e9\n\ud83d\ude00\u007f" ++ [34] ++ u "]," ++ [34] ++ u "b" ++ [34] ++ u ":-12}".
Proof. vm_compute. reflexivity. Qed.

(** [version or ""]: no version and the empty version give one key. *)
Example hash_key_no_version :
  _hash_key (u "e") (VDict []) None = _hash_key (u "e") (VDict []) (Some []).
Proof. vm_compute. reflexivity. Qed.

Example loads_ex1 :
  json_loads (u " {  } ") = Ok (VDict [])
  /\ json_loads (u "[1, -2.50,true ,null, 1e3, [], -0]")
     = Ok (VList [VInt 1; VFloat (FFin (-250) 1); VBool true; VNone;
                  VFloat (FFin 10000 0); VList []; VInt 0])
  /\ json_loads (u "[1,]") = Raise JSONDecodeError
  /\ json_loads (u "01") = Raise JSONDecodeError
  /\ json_loads ([34] ++ u "\ud83d\ude00\u00e9\n" ++ [34]) = Ok (VStr [128512; 233; 10])
  /\ json_loads (dumps (VDict [(u "b", VInt 1); (u "a", VFloat (FFin 5 2))]))
     = Ok (VDict [(u "a", VFloat (FFin 5 2)); (u "b", VInt 1)]).
Proof. vm_compute. repeat split; reflexivity. Qed.

(** *** Induction on values *)

Lemma value_rect' (P : value -> Prop)
  (HNone : P VNone) (HBool : forall b, P (VBool b)) (HInt : forall n, P (VInt n))
  (HFloat : forall f, P (VFloat f)) (HStr : forall s, P (VStr s))
  (HList : forall l, Forall P l -> P (VList l))
  (HDict : forall d, Forall (fun kv => P (snd kv)) d -> P (VDict d))
  (HObj : forall s, P (VObj s)) :
  forall v, P v.
Proof.
  fix IH 1. intros [ | b | n | f | s | l | d | s ].
  - exact HNone.
  - apply HBool.
  - apply HInt.
  - apply HFloat.
  - apply HStr.
  - apply HList. induction l as [ | x l IHl ]; constructor; [ apply IH | exact IHl ].
  - apply HDict. induction d as [ | [k x] d IHd ]; constructor; [ apply IH | exact IHd ].
  - apply HObj.
Qed.

(** *** The encoder writes ASCII *)


Lemma ascii_app s t : ascii_str s -> ascii_str t -> ascii_str (s ++ t).
Proof. apply Forall_app_2. Qed.

Lemma hex_digit_ascii x : ascii_str [hex_digit (x mod 16)].
Proof.
  constructor; [ | constructor ]. unfold hex_digit.
  pose proof (Z.mod_pos_bound x 16 ltac:(lia)). destruct (_ <? _); lia.
Qed.

Lemma hex4_ascii n : ascii_str (hex4 n).
Proof.
  unfold hex4. repeat (apply (ascii_app [_]); [ apply hex_digit_ascii | ]). constructor.
Qed.

Lemma u_escape_ascii n : ascii_str (u_escape n).
Proof. unfold u_escape. apply ascii_app; [ | apply hex4_ascii ]. repeat constructor; lia. Qed.

Lemma escape_char_ascii c : ascii_str (escape_char c).
Proof.
  unfold escape_char.
  repeat (match goal with |- context [if ?b then _ else _] => destruct b eqn:? end;
          [ first [ apply u_escape_ascii | repeat constructor; lia ] | ]).
  apply ascii_app; apply u_escape_ascii.
Qed.

Lemma encode_basestring_ascii_ascii s : ascii_str (encode_basestring_ascii s).
Proof.
  unfold encode_basestring_ascii. apply ascii_app; [ repeat constructor; lia | ].
  apply ascii_app; [ | repeat constructor; lia ].
  induction s as [ | c s IH ]; simpl; [ constructor | ].
  apply ascii_app; [ apply escape_char_ascii | exact IH ].
Qed.

Lemma uint_chars_ascii d : ascii_str (uint_chars d).
Proof. induction d; simpl; constructor; (lia || assumption). Qed.

Lemma ascii_check s : forallb (fun c => (0 <=? c) && (c <? 128)) s = true -> ascii_str s.
Proof.
  intros H. apply Forall_forall. intros c Hc.
  rewrite forallb_forall in H. specialize (H c (proj1 (list_elem_of_In _ _) Hc)). lia.
Qed.

Ltac ascii_lit := apply ascii_check; vm_compute; reflexivity.

Lemma int_repr_ascii n : ascii_str (int_repr n).
Proof.
  unfold int_repr, nat_repr. destruct (n <? 0); [ constructor; [ lia | ] | ]; apply uint_chars_ascii.
Qed.

Lemma float_repr_ascii f : ascii_str (float_repr f).
Proof.
  destruct f as [ m k | | [] ]; [ | ascii_lit .. ].
  unfold float_repr.
  assert (Hds : ascii_str (replicate (S (S k) - length (nat_repr (Z.abs_N m))) 48
                            ++ nat_repr (Z.abs_N m))).
  { apply ascii_app; [ | apply uint_chars_ascii ].
    apply Forall_replicate. lia. }
  apply ascii_app; [ destruct (m <? 0); repeat constructor; lia | ].
  apply ascii_app; [ apply Forall_take, Hds | ].
  apply ascii_app; [ repeat constructor; lia | apply Forall_drop, Hds ].
Qed.

Lemma join_ascii sep l : ascii_str sep -> Forall ascii_str l -> ascii_str (join sep l).
Proof.
  intros Hsep Hl. induction Hl as [ | x l Hx Hl IH ]; simpl; [ constructor | ].
  destruct l; [ exact Hx | ].
  apply ascii_app; [ exact Hx | apply ascii_app; [ exact Hsep | exact IH ] ].
Qed.

(** *** Sorting the items of a dictionary *)

Lemma insert_item_perm {A} (x : list Z * A) l : Permutation (insert_item x l) (x :: l).
Proof.
  induction l as [ | y l IH ]; simpl; [ reflexivity | ].
  destruct (str_ltb _ _); [ | reflexivity ].
  rewrite IH. apply perm_swap.
Qed.

Lemma sort_items_perm {A} (l : list (list Z * A)) : Permutation (sort_items l) l.
Proof.
  induction l as [ | x l IH ]; simpl; [ reflexivity | ].
  rewrite insert_item_perm. constructor. exact IH.
Qed.

Lemma insert_item_map {A B} (f : A -> B) (x : list Z * A) l :
  insert_item (fst x, f (snd x)) (List.map (fun kv => (fst kv, f (snd kv))) l)
  = List.map (fun kv => (fst kv, f (snd kv))) (insert_item x l).
Proof.
  induction l as [ | y l IH ]; simpl; [ reflexivity | ].
  destruct (str_ltb _ _); simpl; [ rewrite IH | ]; reflexivity.
Qed.

Lemma sort_items_map {A B} (f : A -> B) (l : list (list Z * A)) :
  sort_items (List.map (fun kv => (fst kv, f (snd kv))) l)
  = List.map (fun kv => (fst kv, f (snd kv))) (sort_items l).
Proof.
  induction l as [ | x l IH ]; simpl; [ reflexivity | ].
  rewrite IH. apply insert_item_map.
Qed.

(** The items are rendered in sorted order, as [json.encoder] does. *)
Lemma dumps_dict_eq d : dumps (VDict d) = dumps_dict d.
Proof.
  unfold dumps_dict. simpl. rewrite sort_items_map, List.map_map. reflexivity.
Qed.

Lemma dumps_ascii v : ascii_str (dumps v).
Proof.
  induction v as [ | [] | n | f | s | l IH | d IH | s ] using value_rect'.
  - ascii_lit.
  - ascii_lit.
  - ascii_lit.
  - apply int_repr_ascii.
  - apply float_repr_ascii.
  - apply encode_basestring_ascii_ascii.
  - simpl. constructor; [ lia | ]. apply ascii_app; [ | repeat constructor; lia ].
    apply join_ascii; [ repeat constructor; lia | ].
    apply Forall_forall. intros x Hx. apply list_elem_of_In, in_map_iff in Hx as (v & <- & Hv).
    rewrite Forall_forall in IH. apply IH. apply list_elem_of_In; exact Hv.
  - rewrite dumps_dict_eq. unfold dumps_dict.
    constructor; [ lia | ]. apply ascii_app; [ | repeat constructor; lia ].
    apply join_ascii; [ repeat constructor; lia | ].
    apply Forall_forall. intros x Hx. apply list_elem_of_In, in_map_iff in Hx as (kv & <- & Hkv).
    apply ascii_app; [ apply encode_basestring_ascii_ascii | ].
    constructor; [ lia | ].
    rewrite Forall_forall in IH. apply (IH kv).
    apply list_elem_of_In. eapply Permutation_in; [ apply sort_items_perm | exact Hkv ].
  - apply encode_basestring_ascii_ascii.
Qed.

Lemma utf8_encode_ascii s : ascii_str s -> utf8_encode s = Ok s.
Proof.
  induction 1 as [ | c s Hc Hs IH ]; simpl; [ reflexivity | ].
  rewrite IH. unfold utf8_char.
  replace ((c <? 0) || (1114111 <? c)) with false by lia.
  replace (c <? 128) with true by lia. reflexivity.
Qed.

Lemma utf8_decode_ascii s : ascii_str s -> utf8_decode s = Ok s.
Proof.
  induction 1 as [ | c s Hc Hs IH ]; simpl; [ reflexivity | ].
  rewrite IH. replace ((0 <=? c) && (c <? 128)) with true by lia. reflexivity.
Qed.

Lemma hash_key_ok endpoint payload version :
  _hash_key endpoint payload version
  = Ok (hexdigest (sha1 (dumps (VDict [(u "endpoint", VStr endpoint); (u "payload", payload);
                                       (u "version", VStr (version_or_empty version))])))).
Proof.
  unfold _hash_key, _stable_json_dumps. rewrite utf8_encode_ascii; [ reflexivity | apply dumps_ascii ].
Qed.

(** *** What a computation records *)

Lemma emits_ret Q {A} (a : A) : emits_only Q (ret a).
Proof. intros w. exists []. simpl. rewrite app_nil_r. auto. Qed.

Lemma emits_raise Q {A} e : emits_only Q (@raise A e).
Proof. intros w. exists []. simpl. rewrite app_nil_r. auto. Qed.

Lemma emits_lift Q {A} (r : res A) : emits_only Q (lift r).
Proof. intros w. exists []. simpl. rewrite app_nil_r. auto. Qed.

Lemma emits_same_log Q {A} (m : M A) : (forall w, log (snd (m w)) = log w) -> emits_only Q m.
Proof. intros H w. exists []. rewrite H, app_nil_r. auto. Qed.

Lemma emits_emit (Q : event -> bool) e : Q e = true -> emits_only Q (emit e).
Proof. intros H w. exists [e]. simpl. rewrite H. auto. Qed.

Lemma emits_bind Q {A B} (m : M A) (k : A -> M B) :
  emits_only Q m -> (forall a, emits_only Q (k a)) -> emits_only Q (bind m k).
Proof.
  intros Hm Hk w. unfold bind. destruct (Hm w) as (l1 & E1 & F1).
  destruct (m w) as [[a | e] w1]; simpl in *.
  - destruct (Hk a w1) as (l2 & E2 & F2). exists (l1 ++ l2).
    rewrite E2, E1, app_assoc, forallb_app, F1, F2. auto.
  - exists l1. auto.
Qed.

Lemma emits_try Q {A} (m : M A) (h : exn -> M A) :
  emits_only Q m -> (forall e, emits_only Q (h e)) -> emits_only Q (try_except m h).
Proof.
  intros Hm Hh w. unfold try_except. destruct (Hm w) as (l1 & E1 & F1).
  destruct (m w) as [[a | e] w1]; simpl in *.
  - exists l1. auto.
  - destruct (Hh e w1) as (l2 & E2 & F2). exists (l1 ++ l2).
    rewrite E2, E1, app_assoc, forallb_app, F1, F2. auto.
Qed.

Lemma emits_weaken (Q Q' : event -> bool) {A} (m : M A) :
  (forall e, Q e = true -> Q' e = true) -> emits_only Q m -> emits_only Q' m.
Proof.
  intros H Hm w. destruct (Hm w) as (l & E & F). exists l. split; [ exact E | ].
  rewrite forallb_forall in *. auto.
Qed.

Ltac emits_step :=
  first
    [ apply emits_bind; [ | intros ? ]
    | apply emits_ret
    | apply emits_raise
    | apply emits_lift
    | apply emits_emit; reflexivity
    | apply emits_same_log; intros ?; unfold next_fault, modify, time_time; simpl;
      repeat match goal with |- context [match ?x with _ => _ end] => destruct x end;
      reflexivity ].

Lemma emits_syscall (Q : event -> bool) e : Q e = true -> emits_only Q (syscall e).
Proof.
  intros H. unfold syscall. apply emits_bind; [ apply emits_emit, H | intros _ ].
  apply emits_bind; [ emits_step | intros [ n | ] ]; emits_step.
Qed.

Lemma emits_path_exists p : emits_only is_read (path_exists p).
Proof. unfold path_exists. repeat emits_step. Qed.

Lemma emits_read_json p : emits_only is_read (_read_json p).
Proof.
  unfold _read_json, read_text.
  apply emits_bind; [ | intros ?; emits_step ].
  apply emits_bind; [ apply emits_syscall; reflexivity | intros _ ]. emits_step.
Qed.

Lemma emits_serve_result p : emits_only is_read (serve_result p).
Proof. unfold serve_result. apply emits_bind; [ apply emits_read_json | intros ?; emits_step ]. Qed.

Lemma emits_cache_lookup rp mp ttl : emits_only is_read (cache_lookup rp mp ttl).
Proof.
  unfold cache_lookup. destruct ttl as [ ttl | ]; [ | apply emits_serve_result ].
  apply emits_bind; [ apply emits_path_exists | intros [] ]; [ | apply emits_serve_result ].
  apply emits_bind; [ apply emits_read_json | intros meta ].
  apply emits_bind; [ unfold time_time; emits_step | intros now ].
  apply emits_bind; [ emits_step | intros created ].
  apply emits_bind; [ emits_step | intros c ].
  destruct (fgt _ _); [ emits_step | apply emits_serve_result ].
Qed.

Lemma emits_load_from_cache rp mp ttl refresh :
  emits_only is_read (load_from_cache rp mp ttl refresh).
Proof.
  unfold load_from_cache. destruct refresh; simpl; [ emits_step | ].
  apply emits_bind; [ apply emits_path_exists | intros [] ]; [ | emits_step ].
  apply emits_try; [ apply emits_cache_lookup | intros ?; emits_step ].
Qed.

Lemma emits_atomic_write p data : emits_only is_write (_atomic_write p data).
Proof.
  unfold _atomic_write, mkdir.
  apply emits_bind; [ apply emits_syscall; reflexivity | intros _ ].
  apply emits_bind.
  { intros w. unfold named_temporary_file.
    match goal with |- context [bind ?m ?k w] => destruct (fun H1 H2 => emits_bind is_write m k H1 H2 w) as (l & E & F) end.
    - apply emits_syscall; reflexivity.
    - intros _. repeat emits_step.
    - exists l. auto. }
  intros tmp.
  apply emits_bind.
  { unfold tmp_write. apply emits_bind; [ emits_step | intros _ ].
    apply emits_bind; [ emits_step | intros [ n | ] ]; repeat emits_step. }
  intros _. unfold tmp_flush, os_fsync, os_replace.
  apply emits_bind; [ apply emits_syscall; reflexivity | intros _ ].
  apply emits_bind; [ apply emits_bind; [ apply emits_syscall; reflexivity | intros _; emits_step ] | intros _ ].
  apply emits_bind; [ apply emits_syscall; reflexivity | intros _; emits_step ].
Qed.

Lemma emits_write_json p v : emits_only is_write (_write_json p v).
Proof.
  unfold _write_json. apply emits_bind; [ emits_step | intros b; apply emits_atomic_write ].
Qed.

Lemma emits_store_artifacts d m p r : emits_only is_write (store_artifacts d m p r).
Proof.
  unfold store_artifacts, mkdir.
  apply emits_bind; [ apply emits_syscall; reflexivity | intros _ ].
  repeat (apply emits_bind; [ apply emits_write_json | intros _ ]). apply emits_write_json.
Qed.

(** *** The shape of a call *)

Lemma load_from_cache_total rp mp ttl refresh w :
  exists c, fst (load_from_cache rp mp ttl refresh w) = Ok c.
Proof.
  unfold load_from_cache. destruct refresh; simpl; [ eexists; reflexivity | ].
  unfold bind. destruct (path_exists rp w) as [[[] | e] w1] eqn:E; simpl.
  - unfold try_except. destruct (cache_lookup rp mp ttl w1) as [[c | e] w2]; eexists; reflexivity.
  - eexists; reflexivity.
  - unfold path_exists, bind, emit in E. simpl in E. discriminate.
Qed.

Lemma query_unfold step endpoint payload fetch_fn cache_dir version ttl refresh save_extra w :
  query_nim_cached step endpoint payload fetch_fn cache_dir version ttl refresh save_extra w
  = let key := cache_key endpoint payload version in
    let d := entry_dir cache_dir step key in
    match load_from_cache (result_file d) (meta_file d) ttl refresh w with
    | (Ok (Some hit), w0) => (Ok hit, w0)
    | (Ok None, w0) => fetch_and_store step key endpoint version d payload fetch_fn save_extra w0
    | (Raise e, w0) => (Raise e, w0)
    end.
Proof.
  unfold query_nim_cached. rewrite hash_key_ok. fold (cache_key endpoint payload version).
  unfold bind, lift, ret. cbv beta iota zeta.
  fold (entry_dir cache_dir step (cache_key endpoint payload version)).
  unfold result_file, meta_file.
  destruct (load_from_cache _ _ _ _ _) as [[[hit | ] | e] w0]; reflexivity.
Qed.

Lemma fetch_and_store_unfold step key endpoint version d payload fetch_fn save_extra w :
  fetch_and_store step key endpoint version d payload fetch_fn save_extra w
  = let w1 := after_fetch payload w in
    match fetch_fn payload with
    | Raise e => (Raise e, w1)
    | Ok (rc, response) =>
        match persist d (meta_record step key endpoint version (clock w1)) payload response
                save_extra w1 with
        | (Ok _, w2) => (Ok (rc, response), w2)
        | (Raise e, w2) => (Ok (rc, response), set_log (log w2 ++ [EvWarn e]) w2)
        end
    end.
Proof.
  unfold fetch_and_store, call_fetch, bind, emit, lift, time_time, try_except, ret. simpl.
  fold (after_fetch payload w).
  destruct (fetch_fn payload) as [[rc response] | e]; simpl; [ | reflexivity ].
  destruct (persist _ _ _ _ _ _) as [[[] | e] w2]; reflexivity.
Qed.

(** *** Counting recorded calls *)

Lemma count_ev_app P l1 l2 : count_ev P (l1 ++ l2) = (count_ev P l1 + count_ev P l2)%nat.
Proof. unfold count_ev. rewrite List.filter_app, length_app. reflexivity. Qed.

Lemma count_ev_none (P Q : event -> bool) l :
  (forall e, Q e = true -> P e = false) -> forallb Q l = true -> count_ev P l = 0%nat.
Proof.
  intros H. unfold count_ev. induction l as [ | e l IH ]; simpl; [ reflexivity | ].
  intros F. apply andb_prop in F as [F1 F2]. rewrite (H e F1). auto.
Qed.

Lemma emits_count (P Q : event -> bool) {A} (m : M A) w :
  emits_only Q m -> (forall e, Q e = true -> P e = false) ->
  count_ev P (log (snd (m w))) = count_ev P (log w).
Proof.
  intros Hm H. destruct (Hm w) as (l & E & F).
  rewrite E, count_ev_app, (count_ev_none P Q l H F). lia.
Qed.

Lemma emits_call_hook h r d : emits_only is_hook (call_hook h r d).
Proof.
  unfold call_hook. apply emits_bind; [ emits_step | intros _ ].
  apply emits_same_log. intros w. destruct (h r d (files w)). reflexivity.
Qed.

Lemma emits_persist d m p r se :
  emits_only (fun e => is_write e || is_hook e) (persist d m p r se).
Proof.
  unfold persist. apply emits_bind.
  - eapply emits_weaken; [ | apply emits_store_artifacts ]. intros e ->. reflexivity.
  - intros _. destruct se as [ h | ]; [ | emits_step ].
    eapply emits_weaken; [ | apply emits_call_hook ]. intros e ->. apply orb_true_r.
Qed.

Lemma persist_hook_count d m p r se w :
  count_ev is_hook (log (snd (persist d m p r se w)))
  = (count_ev is_hook (log w)
     + match fst (store_artifacts d m p r w), se with
       | Ok _, Some _ => 1
       | _, _ => 0
       end)%nat.
Proof.
  unfold persist, bind.
  pose proof (emits_count is_hook is_write (store_artifacts d m p r) w
                (emits_store_artifacts d m p r)) as Hs.
  destruct (store_artifacts d m p r w) as [[[] | e] w2]; simpl in *.
  - destruct se as [ h | ]; simpl.
    + unfold call_hook, bind, emit. simpl. destruct (h r d (files w2)) as [rh fs]. simpl.
      rewrite count_ev_app, Hs; [ reflexivity | ]. intros []; simpl; congruence.
    + rewrite Hs; [ lia | ]. intros []; simpl; congruence.
  - rewrite Hs; [ lia | ]. intros []; simpl; congruence.
Qed.

Lemma store_events_kind e :
  is_write e || is_hook e || is_warn e = true -> is_fetch e = false /\ is_read e = false.
Proof. destruct e; simpl; intros; split; congruence. Qed.

(** C7. With [refresh=True] the call goes to [fetch_fn] first, whatever the
    cache holds: the first call recorded is the fetch, it is the only one,
    and no artifact is tested for existence or read. *)
Theorem refresh_bypasses_cache step endpoint payload fetch_fn cache_dir version
  ttl_seconds save_extra w :
  let run := query_nim_cached step endpoint payload fetch_fn cache_dir version
               ttl_seconds true save_extra w in
  (exists l, log (snd run) = log w ++ EvFetch payload :: l)
  /\ count_ev is_fetch (log (snd run)) = S (count_ev is_fetch (log w))
  /\ count_ev is_read (log (snd run)) = count_ev is_read (log w)
  /\ fst run = fetch_fn payload.
Proof.
  set (key := cache_key endpoint payload version).
  set (d := entry_dir cache_dir step key).
  assert (Hrun : query_nim_cached step endpoint payload fetch_fn cache_dir version
                   ttl_seconds true save_extra w
                 = fetch_and_store step key endpoint version d payload fetch_fn save_extra w).
  { rewrite query_unfold. reflexivity. }
  cbv zeta. rewrite Hrun, fetch_and_store_unfold. clear Hrun. cbv zeta.
  assert (Hnew : forall l, forallb (fun e => is_write e || is_hook e || is_warn e) l = true ->
            count_ev is_fetch (log w ++ EvFetch payload :: l) = S (count_ev is_fetch (log w))
            /\ count_ev is_read (log w ++ EvFetch payload :: l) = count_ev is_read (log w)).
  { intros l F. rewrite !count_ev_app. change (EvFetch payload :: l) with ([EvFetch payload] ++ l).
    rewrite !count_ev_app.
    rewrite (count_ev_none is_fetch _ l (fun e H => proj1 (store_events_kind e H)) F).
    rewrite (count_ev_none is_read _ l (fun e H => proj2 (store_events_kind e H)) F).
    unfold count_ev. simpl. lia. }
  destruct (fetch_fn payload) as [[rc response] | e].
  - destruct (emits_persist d (meta_record step key endpoint version (clock (after_fetch payload w)))
                payload response save_extra (after_fetch payload w)) as (l & E & F).
    destruct (persist _ _ _ _ _ _) as [[[] | e] w2]; simpl in *.
    + rewrite E, <- app_assoc. simpl. split; [ eexists; reflexivity | ].
      destruct (Hnew l) as [H1 H2]; [ | repeat split; auto ].
      rewrite forallb_forall in *. intros x Hx. rewrite (F x Hx). reflexivity.
    + rewrite E, <- !app_assoc. simpl. split; [ eexists; reflexivity | ].
      destruct (Hnew (l ++ [EvWarn e])) as [H1 H2]; [ | repeat split; auto ].
      rewrite forallb_app. simpl. rewrite andb_true_r.
      rewrite forallb_forall in *. intros x Hx. rewrite (F x Hx). reflexivity.
  - simpl. split; [ exists []; reflexivity | ].
    destruct (Hnew []) as [H1 H2]; repeat split; auto.
Qed.

Lemma store_events_kind' e :
  is_read e = true -> is_fetch e = false /\ is_hook e = false /\ is_warn e = false.
Proof. destruct e; simpl; intros; repeat split; congruence. Qed.

(** The miss path: the answer is that of [fetch_fn], which is called once. *)
Lemma fetch_and_store_outcome step key endpoint version d payload fetch_fn save_extra w :
  let run := fetch_and_store step key endpoint version d payload fetch_fn save_extra w in
  fst run = fetch_fn payload
  /\ count_ev is_fetch (log (snd run)) = S (count_ev is_fetch (log w))
  /\ count_ev is_read (log (snd run)) = count_ev is_read (log w).
Proof.
  cbv zeta. rewrite fetch_and_store_unfold. cbv zeta.
  assert (Hnew : forall l, forallb (fun e => is_write e || is_hook e || is_warn e) l = true ->
            count_ev is_fetch (log w ++ EvFetch payload :: l) = S (count_ev is_fetch (log w))
            /\ count_ev is_read (log w ++ EvFetch payload :: l) = count_ev is_read (log w)).
  { intros l F. rewrite !count_ev_app. change (EvFetch payload :: l) with ([EvFetch payload] ++ l).
    rewrite !count_ev_app.
    rewrite (count_ev_none is_fetch _ l (fun e H => proj1 (store_events_kind e H)) F).
    rewrite (count_ev_none is_read _ l (fun e H => proj2 (store_events_kind e H)) F).
    unfold count_ev. simpl. lia. }
  destruct (fetch_fn payload) as [[rc response] | e].
  - destruct (emits_persist d (meta_record step key endpoint version (clock (after_fetch payload w)))
                payload response save_extra (after_fetch payload w)) as (l & E & F).
    destruct (persist _ _ _ _ _ _) as [[[] | e] w2]; simpl in *.
    + rewrite E, <- app_assoc. simpl.
      destruct (Hnew l) as [H1 H2]; [ | repeat split; auto ].
      rewrite forallb_forall in *. intros x Hx. rewrite (F x Hx). reflexivity.
    + rewrite E, <- !app_assoc. simpl.
      destruct (Hnew (l ++ [EvWarn e])) as [H1 H2]; [ | repeat split; auto ].
      rewrite forallb_app. simpl. rewrite andb_true_r.
      rewrite forallb_forall in *. intros x Hx. rewrite (F x Hx). reflexivity.
  - simpl. destruct (Hnew []) as [H1 H2]; repeat split; auto.
Qed.

Lemma query_miss step endpoint payload fetch_fn cache_dir version ttl refresh save_extra w :
  let key := cache_key endpoint payload version in
  let d := entry_dir cache_dir step key in
  fst (load_from_cache (result_file d) (meta_file d) ttl refresh w) = Ok None ->
  query_nim_cached step endpoint payload fetch_fn cache_dir version ttl refresh save_extra w
  = fetch_and_store step key endpoint version d payload fetch_fn save_extra
      (snd (load_from_cache (result_file d) (meta_file d) ttl refresh w)).
Proof.
  cbv zeta. intros H. rewrite query_unfold. cbv zeta.
  destruct (load_from_cache _ _ _ _ _) as [r w0]. simpl in H. subst r. reflexivity.
Qed.

Lemma query_hit step endpoint payload fetch_fn cache_dir version ttl refresh save_extra w hit :
  let key := cache_key endpoint payload version in
  let d := entry_dir cache_dir step key in
  fst (load_from_cache (result_file d) (meta_file d) ttl refresh w) = Ok (Some hit) ->
  query_nim_cached step endpoint payload fetch_fn cache_dir version ttl refresh save_extra w
  = (Ok hit, snd (load_from_cache (result_file d) (meta_file d) ttl refresh w)).
Proof.
  cbv zeta. intros H. rewrite query_unfold. cbv zeta.
  destruct (load_from_cache _ _ _ _ _) as [r w0]. simpl in H. subst r. reflexivity.
Qed.

(** A call that does not find its answer in the cache returns what
    [fetch_fn] returns, calls it once and reads nothing after it. *)
Lemma miss_outcome step endpoint payload fetch_fn cache_dir version ttl refresh save_extra w :
  let d := entry_dir cache_dir step (cache_key endpoint payload version) in
  let run := query_nim_cached step endpoint payload fetch_fn cache_dir version ttl refresh
               save_extra w in
  fst (load_from_cache (result_file d) (meta_file d) ttl refresh w) = Ok None ->
  fst run = fetch_fn payload
  /\ count_ev is_fetch (log (snd run)) = S (count_ev is_fetch (log w)).
Proof.
  cbv zeta. intros H. rewrite (query_miss _ _ _ _ _ _ _ _ _ _ H).
  destruct (fetch_and_store_outcome step (cache_key endpoint payload version) endpoint version
              (entry_dir cache_dir step (cache_key endpoint payload version)) payload fetch_fn
              save_extra
              (snd (load_from_cache
                      (result_file (entry_dir cache_dir step (cache_key endpoint payload version)))
                      (meta_file (entry_dir cache_dir step (cache_key endpoint payload version)))
                      ttl refresh w))) as (H1 & H2 & H3).
  split; [ exact H1 | ]. rewrite H2. f_equal.
  apply (emits_count is_fetch is_read); [ apply emits_load_from_cache | ].
  intros e He. apply store_events_kind', He.
Qed.

(** C6. On a miss the caller gets the pair of [fetch_fn] as it is, whatever
    becomes of the three writes and of the hook: a failure in them ends in
    the warning and nowhere else. *)
Theorem miss_returns_fetch_result step endpoint payload fetch_fn cache_dir version
  ttl_seconds refresh save_extra w rc result :
  let key := cache_key endpoint payload version in
  let d := entry_dir cache_dir step key in
  let load := load_from_cache (result_file d) (meta_file d) ttl_seconds refresh w in
  fst load = Ok None ->
  fetch_fn payload = Ok (rc, result) ->
  let w1 := after_fetch payload (snd load) in
  query_nim_cached step endpoint payload fetch_fn cache_dir version ttl_seconds refresh
    save_extra w
  = (Ok (rc, result),
     match persist d (meta_record step key endpoint version (clock w1)) payload result
             save_extra w1 with
     | (Ok _, w2) => w2
     | (Raise e, w2) => set_log (log w2 ++ [EvWarn e]) w2
     end).
Proof.
  cbv zeta. intros Hmiss Hfetch.
  rewrite (query_miss _ _ _ _ _ _ _ _ _ _ Hmiss), fetch_and_store_unfold. cbv zeta.
  rewrite Hfetch. destruct (persist _ _ _ _ _ _) as [[[] | e] w2]; reflexivity.
Qed.

(** *** Running the primitives *)

Lemma next_fault_run w : next_fault w = (Ok (head_fault w), pop_fault w).
Proof. unfold next_fault, head_fault, pop_fault. destruct (faults w); reflexivity. Qed.

Lemma syscall_run e w :
  syscall e w
  = (match head_fault w with Some _ => Raise OSError | None => Ok tt end,
     pop_fault (set_log (log w ++ [e]) w)).
Proof.
  unfold syscall, bind, emit. rewrite next_fault_run.
  change (head_fault (set_log (log w ++ [e]) w)) with (head_fault w).
  destruct (head_fault w); reflexivity.
Qed.

Lemma path_exists_run p w :
  path_exists p w
  = (Ok (bool_decide (is_Some (files w !! p))), set_log (log w ++ [EvExists p]) w).
Proof. reflexivity. Qed.

Lemma read_json_run p w :
  _read_json p w
  = (match head_fault w with Some _ => Raise OSError | None => read_file w p end,
     after_read p w).
Proof.
  unfold _read_json, read_text, bind, lift. rewrite syscall_run. fold (after_read p w).
  unfold read_file, loads_bytes.
  change (files (after_read p w)) with
    (files (match faults w with [] => set_log (log w ++ [EvRead p]) w
            | _ :: fs => set_faults fs (set_log (log w ++ [EvRead p]) w) end)).
  assert (E : files (match faults w with [] => set_log (log w ++ [EvRead p]) w
                     | _ :: fs => set_faults fs (set_log (log w ++ [EvRead p]) w) end)
              = files w) by (destruct (faults w); reflexivity).
  rewrite E.
  destruct (head_fault w); [ reflexivity | ].
  destruct (files w !! p) as [ b | ]; [ | reflexivity ].
  destruct (utf8_decode b); reflexivity.
Qed.

Lemma serve_result_run rp w :
  serve_result rp w
  = (match head_fault w with
     | Some _ => Raise OSError
     | None =>
         match read_file w rp with
         | Ok resp => Ok (Some (200, mark_from_cache resp))
         | Raise e => Raise e
         end
     end, after_read rp w).
Proof.
  unfold serve_result, bind. rewrite read_json_run.
  destruct (head_fault w); [ reflexivity | ]. destruct (read_file w rp); reflexivity.
Qed.

(** The worlds that a lookup goes through keep the files, the clock and
    the absence of faults. *)
Lemma after_read_files p w : files (after_read p w) = files w.
Proof. unfold after_read, pop_fault. simpl. destruct (faults w); reflexivity. Qed.

Lemma after_read_clock p w : clock (after_read p w) = clock w.
Proof. unfold after_read, pop_fault. simpl. destruct (faults w); reflexivity. Qed.

Lemma after_read_log p w : log (after_read p w) = log w ++ [EvRead p].
Proof. unfold after_read, pop_fault. simpl. destruct (faults w); reflexivity. Qed.

Lemma no_faults_head w : no_faults w -> head_fault w = None.
Proof.
  unfold no_faults, head_fault. destruct (faults w) as [ | f fs ]; [ reflexivity | ].
  intros H. apply Forall_inv in H. exact H.
Qed.

Lemma no_faults_pop w : no_faults w -> no_faults (pop_fault w).
Proof.
  unfold no_faults, pop_fault. destruct (faults w) as [ | f fs ] eqn:E; simpl.
  - rewrite E. auto.
  - intros H. apply Forall_inv_tail in H. exact H.
Qed.

Lemma no_faults_set_log l w : no_faults w -> no_faults (set_log l w).
Proof. auto. Qed.

Lemma no_faults_after_read p w : no_faults w -> no_faults (after_read p w).
Proof. intros H. apply no_faults_pop, no_faults_set_log, H. Qed.

Lemma read_file_same w w' p : files w' = files w -> read_file w' p = read_file w p.
Proof. unfold read_file. intros ->. reflexivity. Qed.

(** The lookup, case by case. *)
Lemma cache_lookup_run rp mp ttl w :
  cache_lookup rp mp ttl w
  = match ttl with
    | None => serve_result rp w
    | Some t =>
        let w1 := set_log (log w ++ [EvExists mp]) w in
        if bool_decide (is_Some (files w !! mp)) then
          match head_fault w with
          | Some _ => (Raise OSError, after_read mp w1)
          | None =>
              match read_file w mp with
              | Raise e => (Raise e, after_read mp w1)
              | Ok meta =>
                  match py_get meta (u "created_at") (VInt 0) with
                  | Raise e => (Raise e, after_read mp w1)
                  | Ok created =>
                      match py_float created with
                      | Raise e => (Raise e, after_read mp w1)
                      | Ok c =>
                          if fgt (fsub (clock w) c) t then (Ok None, after_read mp w1)
                          else serve_result rp (after_read mp w1)
                      end
                  end
              end
          end
        else serve_result rp w1
    end.
Proof.
  unfold cache_lookup. destruct ttl as [ t | ]; [ | reflexivity ].
  unfold bind at 1. rewrite path_exists_run. cbv zeta.
  destruct (bool_decide _); [ | reflexivity ].
  unfold bind at 1. rewrite read_json_run.
  change (head_fault (set_log (log w ++ [EvExists mp]) w)) with (head_fault w).
  change (read_file (set_log (log w ++ [EvExists mp]) w) mp) with (read_file w mp).
  destruct (head_fault w); [ reflexivity | ].
  destruct (read_file w mp) as [ meta | e ]; [ | reflexivity ].
  unfold bind, time_time, lift.
  rewrite after_read_clock. change (clock (set_log (log w ++ [EvExists mp]) w)) with (clock w).
  destruct (py_get _ _ _) as [ created | e ]; [ | reflexivity ].
  destruct (py_float created) as [ c | e ]; [ | reflexivity ].
  destruct (fgt _ _); reflexivity.
Qed.

Lemma load_from_cache_run rp mp ttl w :
  load_from_cache rp mp ttl false w
  = let w1 := set_log (log w ++ [EvExists rp]) w in
    if bool_decide (is_Some (files w !! rp)) then
      match cache_lookup rp mp ttl w1 with
      | (Ok c, w2) => (Ok c, w2)
      | (Raise _, w2) => (Ok None, w2)
      end
    else (Ok None, w1).
Proof.
  unfold load_from_cache. cbn [negb]. unfold bind. rewrite path_exists_run. cbv zeta.
  destruct (bool_decide _); [ | reflexivity ].
  unfold try_except. destruct (cache_lookup _ _ _ _) as [[c | e] w2]; reflexivity.
Qed.

Lemma serve_result_files rp w : files (snd (serve_result rp w)) = files w.
Proof. rewrite serve_result_run. apply after_read_files. Qed.

Lemma cache_lookup_files rp mp ttl w : files (snd (cache_lookup rp mp ttl w)) = files w.
Proof.
  rewrite cache_lookup_run. destruct ttl as [ t | ]; [ | apply serve_result_files ].
  cbv zeta.
  repeat match goal with
         | |- context [match ?x with _ => _ end] => destruct x
         end;
    cbn [fst snd]; try rewrite serve_result_files; try rewrite after_read_files; reflexivity.
Qed.

Lemma load_from_cache_files rp mp ttl refresh w :
  files (snd (load_from_cache rp mp ttl refresh w)) = files w.
Proof.
  destruct refresh; [ reflexivity | ].
  rewrite load_from_cache_run. cbv zeta.
  destruct (bool_decide _); [ | reflexivity ].
  pose proof (cache_lookup_files rp mp ttl (set_log (log w ++ [EvExists rp]) w)) as H.
  destruct (cache_lookup _ _ _ _) as [[c | e] w2]; exact H.
Qed.

(** A result file that cannot be read never yields an answer. *)
Lemma serve_result_corrupt rp w e :
  read_file w rp = Raise e -> exists e', fst (serve_result rp w) = Raise e'.
Proof.
  intros H. rewrite serve_result_run, H. simpl.
  destruct (head_fault w); eexists; reflexivity.
Qed.

Lemma cache_lookup_corrupt rp mp ttl w e :
  read_file w rp = Raise e ->
  fst (cache_lookup rp mp ttl w) = Ok None \/ exists e', fst (cache_lookup rp mp ttl w) = Raise e'.
Proof.
  intros H. rewrite cache_lookup_run.
  assert (Hs : forall w', files w' = files w -> exists e', fst (serve_result rp w') = Raise e').
  { intros w' E. apply (serve_result_corrupt rp w' e). rewrite (read_file_same w w' rp E). exact H. }
  destruct ttl as [ t | ]; [ | right; apply Hs; reflexivity ].
  cbv zeta.
  repeat match goal with
         | |- context [match ?x with _ => _ end] => destruct x
         end;
    cbn [fst snd]; try (left; reflexivity); try (right; eexists; reflexivity);
    right; apply Hs; try rewrite after_read_files; reflexivity.
Qed.

Lemma load_miss_recomputed step endpoint payload fetch_fn cache_dir version ttl refresh
  save_extra w :
  let d := entry_dir cache_dir step (cache_key endpoint payload version) in
  fst (load_from_cache (result_file d) (meta_file d) ttl refresh w) = Ok None ->
  recomputed
    (query_nim_cached step endpoint payload fetch_fn cache_dir version ttl refresh save_extra w)
    w fetch_fn payload.
Proof. apply miss_outcome. Qed.

Lemma load_hit_served step endpoint payload fetch_fn cache_dir version ttl refresh
  save_extra w resp :
  let d := entry_dir cache_dir step (cache_key endpoint payload version) in
  fst (load_from_cache (result_file d) (meta_file d) ttl refresh w)
  = Ok (Some (200, mark_from_cache resp)) ->
  served
    (query_nim_cached step endpoint payload fetch_fn cache_dir version ttl refresh save_extra w)
    w resp.
Proof.
  cbv zeta. intros H. rewrite (query_hit _ _ _ _ _ _ _ _ _ _ _ H). unfold served. cbn [fst snd].
  split; [ reflexivity | ]. split; [ | apply load_from_cache_files ].
  apply (emits_count is_fetch is_read); [ apply emits_load_from_cache | ].
  intros e He. apply store_events_kind', He.
Qed.

(** The [except] clause of step 1: a lookup that raises is a miss. *)
Lemma lookup_raise_misses rp mp ttl refresh w e :
  fst (cache_lookup rp mp ttl (set_log (log w ++ [EvExists rp]) w)) = Raise e ->
  fst (load_from_cache rp mp ttl refresh w) = Ok None.
Proof.
  intros He. destruct refresh; [ reflexivity | ].
  rewrite load_from_cache_run. cbv zeta.
  destruct (bool_decide _); [ | reflexivity ].
  destruct (cache_lookup _ _ _ _) as [r w2]. simpl in He. subst r. reflexivity.
Qed.

(** C5. An entry whose result file cannot be parsed, or a lookup in which a
    read raises, ends in a call of [fetch_fn] whose outcome is the outcome
    of the call: the error of the lookup reaches nobody. *)
Theorem corrupt_entry_recomputes step endpoint payload fetch_fn cache_dir version
  ttl_seconds refresh save_extra w :
  let d := entry_dir cache_dir step (cache_key endpoint payload version) in
  (exists c e, files w !! result_file d = Some c /\ loads_bytes c = Raise e)
  \/ (exists e, fst (cache_lookup (result_file d) (meta_file d) ttl_seconds
                       (set_log (log w ++ [EvExists (result_file d)]) w)) = Raise e) ->
  recomputed
    (query_nim_cached step endpoint payload fetch_fn cache_dir version ttl_seconds refresh
       save_extra w)
    w fetch_fn payload.
Proof.
  cbv zeta. intros H. apply load_miss_recomputed.
  set (d := entry_dir cache_dir step (cache_key endpoint payload version)) in *.
  destruct H as [(c & e & Hc & He) | (e & He)]; [ | exact (lookup_raise_misses _ _ _ _ _ _ He) ].
  destruct (cache_lookup_corrupt (result_file d) (meta_file d) ttl_seconds
              (set_log (log w ++ [EvExists (result_file d)]) w) e) as [E | (e' & E)].
  - unfold read_file. cbn [files set_log]. rewrite Hc. exact He.
  - destruct refresh; [ reflexivity | ].
    rewrite load_from_cache_run. cbv zeta.
    destruct (bool_decide _); [ | reflexivity ].
    destruct (cache_lookup _ _ _ _) as [r w2]. simpl in E. subst r. reflexivity.
  - exact (lookup_raise_misses _ _ _ _ _ _ E).
Qed.

(** *** The arithmetic of doubles *)

Lemma round_ne_error p q : 0 < q -> 2 * Z.abs (round_ne p q * q - p) <= q.
Proof.
  intros Hq. unfold round_ne.
  pose proof (Z.div_mod p q ltac:(lia)) as E.
  pose proof (Z.mod_pos_bound p q Hq) as B.
  set (f := p / q) in *. set (r := p mod q) in *.
  destruct (Z.ltb_spec (2 * r) q); [ nia | ].
  destruct (Z.ltb_spec q (2 * r)); [ nia | ].
  destruct (Z.even f); nia.
Qed.

Lemma nearest_double_eq p q :
  nearest_double p q
  = let e := expo (Z.abs p) q in
    let m := mant (Z.abs p) q e in
    if (971 <? e) || ((e =? 971) && (2 ^ 53 <=? m)) then DInf (p <? 0)
    else DFin (if p <? 0 then - m else m) e.
Proof. reflexivity. Qed.

Lemma expo_low a q : -1074 <= expo a q.
Proof. unfold expo. lia. Qed.

Lemma expo_bound a q b :
  0 <= a -> 0 < q -> 0 <= b -> a < q * 2 ^ b -> expo a q <= b - 53.
Proof.
  intros Ha Hq Hb H. unfold expo.
  destruct (Z.eq_dec (a * 2 ^ 1074 / q) 0) as [ E | E ].
  - rewrite E. change (Z.log2 0) with 0. lia.
  - assert (0 < 2 ^ 1074) by (apply Z.pow_pos_nonneg; lia).
    assert (0 <= a * 2 ^ 1074 / q) by (apply Z.div_pos; nia).
    assert (L : Z.log2 (a * 2 ^ 1074 / q) < b + 1074).
    { apply Z.log2_lt_pow2; [ lia | ].
      apply Z.div_lt_upper_bound; [ lia | ].
      rewrite Z.pow_add_r by lia.
      assert (0 < 2 ^ b) by (apply Z.pow_pos_nonneg; lia). nia. }
    lia.
Qed.

(** The value of a finite double, in units of [2^-1074]. *)
Lemma mant_error a q e :
  0 <= a -> 0 < q -> -1074 <= e ->
  2 * Z.abs (units (mant a q e) e * q - a * 2 ^ 1074) <= q * 2 ^ (e + 1074).
Proof.
  intros Ha Hq He. unfold units, mant.
  assert (P : 0 < 2 ^ (e + 1074)) by (apply Z.pow_pos_nonneg; lia).
  destruct (Z.ltb_spec e 0).
  - pose proof (round_ne_error (a * 2 ^ (- e)) q Hq) as R.
    assert (S : 2 ^ 1074 = 2 ^ (- e) * 2 ^ (e + 1074))
      by (rewrite <- Z.pow_add_r by lia; f_equal; lia).
    rewrite S. set (X := 2 ^ (e + 1074)) in *. set (Y := 2 ^ (- e)) in *.
    set (m := round_ne (a * Y) q) in *.
    replace (m * X * q - a * (Y * X)) with ((m * q - a * Y) * X) by ring.
    rewrite Z.abs_mul, (Z.abs_eq X) by lia. nia.
  - assert (Q : 0 < 2 ^ e) by (apply Z.pow_pos_nonneg; lia).
    pose proof (round_ne_error a (q * 2 ^ e) ltac:(nia)) as R.
    assert (S : 2 ^ (e + 1074) = 2 ^ e * 2 ^ 1074) by (apply Z.pow_add_r; lia).
    rewrite S. set (X := 2 ^ 1074) in *. set (Y := 2 ^ e) in *.
    assert (0 < X) by (apply Z.pow_pos_nonneg; lia).
    set (m := round_ne a (q * Y)) in *.
    replace (m * (Y * X) * q - a * X) with ((m * (q * Y) - a) * X) by ring.
    rewrite Z.abs_mul, (Z.abs_eq X) by lia. nia.
Qed.

(** What [nearest_double] returns below the range of overflow: a double
    within half a unit of its last place. *)
Lemma nearest_double_error p q b :
  0 < q -> 0 <= b -> b <= 1023 -> Z.abs p < q * 2 ^ b ->
  exists m e,
    nearest_double p q = DFin m e
    /\ -1074 <= e <= b - 53
    /\ 2 * Z.abs (units m e * q - p * 2 ^ 1074) <= q * 2 ^ (e + 1074).
Proof.
  intros Hq Hb Hb' H. rewrite nearest_double_eq. cbv zeta.
  pose proof (expo_low (Z.abs p) q) as E1.
  pose proof (expo_bound (Z.abs p) q b (Z.abs_nonneg p) Hq Hb H) as E2.
  pose proof (mant_error (Z.abs p) q _ (Z.abs_nonneg p) Hq E1) as M.
  set (e := expo (Z.abs p) q) in *. set (m := mant (Z.abs p) q e) in *.
  assert (e <= 970) by lia.
  replace (971 <? e) with false by (symmetry; apply Z.ltb_ge; lia).
  replace (e =? 971) with false by (symmetry; apply Z.eqb_neq; lia).
  cbn [orb andb].
  eexists _, e. split; [ reflexivity | ]. split; [ lia | ].
  unfold units in *.
  destruct (Z.ltb_spec p 0).
  - rewrite (Z.abs_neq p) in M by lia.
    replace (- m * 2 ^ (e + 1074) * q - p * 2 ^ 1074)
      with (- (m * 2 ^ (e + 1074) * q - - p * 2 ^ 1074)) by ring.
    rewrite Z.abs_opp. exact M.
  - rewrite (Z.abs_eq p) in M by lia. exact M.
Qed.

Lemma pow2_split a b : 0 <= a -> 0 <= b -> 2 ^ (a + b) = 2 ^ a * 2 ^ b.
Proof. intros. apply Z.pow_add_r; lia. Qed.

Lemma pow2_pos a : 0 <= a -> 0 < 2 ^ a.
Proof. intros. apply Z.pow_pos_nonneg; lia. Qed.

(** A rational that is a double is rounded to itself. *)
Lemma nearest_double_exact p q M E :
  0 < q -> -1074 <= E <= 970 -> Z.abs M < 2 ^ 53 ->
  p * 2 ^ 1074 = M * 2 ^ (E + 1074) * q ->
  exists m e,
    nearest_double p q = DFin m e /\ -1074 <= e <= E /\ units m e = M * 2 ^ (E + 1074).
Proof.
  intros Hq HE HM Hp. rewrite nearest_double_eq. cbv zeta.
  pose proof (expo_low (Z.abs p) q) as E1.
  pose proof (mant_error (Z.abs p) q _ (Z.abs_nonneg p) Hq E1) as Merr.
  assert (PX : 0 < 2 ^ (E + 1074)) by (apply pow2_pos; lia).
  assert (Hs : Z.abs p * 2 ^ 1074 = Z.abs M * 2 ^ (E + 1074) * q).
  { replace (Z.abs p * 2 ^ 1074) with (Z.abs (p * 2 ^ 1074))
      by (rewrite Z.abs_mul; f_equal; apply Z.abs_eq; apply Z.pow_nonneg; lia).
    rewrite Hp, !Z.abs_mul. rewrite (Z.abs_eq (2 ^ (E + 1074))), (Z.abs_eq q) by lia.
    reflexivity. }
  assert (E2 : expo (Z.abs p) q <= E).
  { unfold expo. rewrite Hs, Z.div_mul by lia.
    destruct (Z.eq_dec M 0) as [ -> | HM0 ].
    - cbn [Z.abs]. rewrite Z.mul_0_l. change (Z.log2 0) with 0. lia.
    - assert (L : Z.log2 (Z.abs M * 2 ^ (E + 1074)) < 53 + (E + 1074)).
      { apply Z.log2_lt_pow2; [ nia | ].
        rewrite (pow2_split 53 (E + 1074)) by lia.
        assert (0 < 2 ^ 53) by (apply pow2_pos; lia). nia. }
      lia. }
  set (e := expo (Z.abs p) q) in *. set (m := mant (Z.abs p) q e) in *.
  replace (971 <? e) with false by (symmetry; apply Z.ltb_ge; lia).
  replace (e =? 971) with false by (symmetry; apply Z.eqb_neq; lia).
  cbn [orb andb].
  assert (PY : 0 < 2 ^ (e + 1074)) by (apply pow2_pos; lia).
  assert (Hsplit : 2 ^ (E + 1074) = 2 ^ (E - e) * 2 ^ (e + 1074)).
  { rewrite <- pow2_split by lia. f_equal. lia. }
  assert (Hm : units m e = Z.abs M * 2 ^ (E + 1074)).
  { unfold units in *. rewrite Hs, Hsplit in Merr. rewrite Hsplit.
    set (X := 2 ^ (e + 1074)) in *. set (K := 2 ^ (E - e)) in *.
    replace (m * X * q - Z.abs M * (K * X) * q) with ((m - Z.abs M * K) * (X * q)) in Merr
      by ring.
    rewrite Z.abs_mul, (Z.abs_eq (X * q)) in Merr by nia.
    assert (Z.abs (m - Z.abs M * K) = 0) by nia.
    assert (Hmk : m = Z.abs M * K) by lia. rewrite Hmk. ring. }
  eexists _, e. split; [ reflexivity | ]. split; [ lia | ].
  assert (Hsign : (p <? 0) = (M <? 0)).
  { destruct (Z.ltb_spec p 0), (Z.ltb_spec M 0); try reflexivity; exfalso.
    - assert (p * 2 ^ 1074 < 0) by (assert (0 < 2 ^ 1074) by (apply pow2_pos; lia); nia).
      nia.
    - assert (0 <= p * 2 ^ 1074) by (assert (0 < 2 ^ 1074) by (apply pow2_pos; lia); nia).
      nia. }
  rewrite Hsign. unfold units in *.
  destruct (Z.ltb_spec M 0).
  - rewrite (Z.abs_neq M) in Hm by lia.
    replace (- m * 2 ^ (e + 1074)) with (- (m * 2 ^ (e + 1074))) by ring. rewrite Hm. ring.
  - rewrite (Z.abs_eq M) in Hm by lia. exact Hm.
Qed.

Lemma nearest_double_zero q : 0 < q -> nearest_double 0 q = DFin 0 (-1074).
Proof.
  intros Hq. unfold nearest_double, expo, mant. cbn [Z.abs].
  rewrite Z.mul_0_l, Z.div_0_l by lia.
  change (Z.log2 0) with 0. change (Z.max (0 - 1126) (-1074)) with (-1074).
  cbn [Z.ltb Z.compare]. unfold round_ne. rewrite Z.mul_0_l, Z.div_0_l, Z.mod_0_l by lia.
  replace (2 * 0 <? q) with true by (symmetry; apply Z.ltb_lt; lia). reflexivity.
Qed.

(** *** Subtraction and comparison, in units of [2^-1074] *)

Lemma fgt_units x m e n :
  to_double x = DFin m e -> -1074 <= e -> fgt x n = (n * 2 ^ 1074 <? units m e).
Proof.
  intros Hx He. unfold fgt, units. rewrite Hx.
  assert (PX : 0 < 2 ^ (e + 1074)) by (apply pow2_pos; lia).
  destruct (Z.ltb_spec e 0).
  - assert (S : 2 ^ 1074 = 2 ^ (- e) * 2 ^ (e + 1074))
      by (rewrite <- pow2_split by lia; f_equal; lia).
    rewrite S. set (X := 2 ^ (e + 1074)) in *.
    destruct (Z.ltb_spec (n * 2 ^ (- e)) m), (Z.ltb_spec (n * (2 ^ (- e) * X)) (m * X));
      try reflexivity; nia.
  - rewrite (pow2_split e 1074) by lia.
    assert (0 < 2 ^ 1074) by (apply pow2_pos; lia). set (X := 2 ^ 1074) in *.
    destruct (Z.ltb_spec n (m * 2 ^ e)), (Z.ltb_spec (n * X) (m * (2 ^ e * X)));
      try reflexivity; nia.
Qed.

Lemma to_double_error m k b :
  0 <= b <= 1023 -> Z.abs m < 10 ^ Z.of_nat (S k) * 2 ^ b ->
  exists M e,
    to_double (FFin m k) = DFin M e
    /\ -1074 <= e <= b - 53
    /\ 2 * Z.abs (units M e * 10 ^ Z.of_nat (S k) - m * 2 ^ 1074)
       <= 10 ^ Z.of_nat (S k) * 2 ^ (e + 1074).
Proof.
  intros Hb H. apply nearest_double_error; try lia; apply Z.pow_pos_nonneg; lia.
Qed.

Lemma dsub_error m1 e1 m2 e2 b :
  -1074 <= e1 -> -1074 <= e2 -> 0 <= b <= 1023 ->
  Z.abs (units m1 e1 - units m2 e2) < 2 ^ b * 2 ^ 1074 ->
  exists m e,
    dsub (DFin m1 e1) (DFin m2 e2) = DFin m e
    /\ -1074 <= e <= b - 53
    /\ 2 * Z.abs (units m e - (units m1 e1 - units m2 e2)) <= 2 ^ (e + 1074).
Proof.
  intros H1 H2 Hb H. cbn [dsub]. cbv zeta.
  set (e0 := Z.min e1 e2). set (d := m1 * 2 ^ (e1 - e0) - m2 * 2 ^ (e2 - e0)).
  assert (He0 : -1074 <= e0) by (unfold e0; lia).
  assert (Hd : d * 2 ^ (e0 + 1074) = units m1 e1 - units m2 e2).
  { unfold d, units. rewrite Z.mul_sub_distr_r, <- !Z.mul_assoc, <- !pow2_split
      by (unfold e0; lia).
    do 2 f_equal; f_equal; lia. }
  rewrite <- Hd in *.
  assert (PX : 0 < 2 ^ (e0 + 1074)) by (apply pow2_pos; lia).
  assert (PB : 0 < 2 ^ b) by (apply pow2_pos; lia).
  destruct (Z.ltb_spec e0 0).
  - assert (S : 2 ^ 1074 = 2 ^ (- e0) * 2 ^ (e0 + 1074))
      by (rewrite <- pow2_split by lia; f_equal; lia).
    assert (PY : 0 < 2 ^ (- e0)) by (apply pow2_pos; lia).
    assert (Hlt : Z.abs d < 2 ^ (- e0) * 2 ^ b).
    { rewrite S in H. rewrite Z.abs_mul, (Z.abs_eq (2 ^ (e0 + 1074))) in H by lia. nia. }
    destruct (nearest_double_error d (2 ^ (- e0)) b ltac:(lia) ltac:(lia) ltac:(lia) Hlt)
      as (m & e & Hn & He & Herr).
    exists m, e. split; [ exact Hn | ]. split; [ exact He | ].
    rewrite S in Herr.
    set (X := 2 ^ (e0 + 1074)) in *. set (Y := 2 ^ (- e0)) in *.
    replace (units m e * Y - d * (Y * X)) with ((units m e - d * X) * Y) in Herr by ring.
    rewrite Z.abs_mul, (Z.abs_eq Y) in Herr by lia.
    assert (0 < 2 ^ (e + 1074)) by (apply pow2_pos; lia). nia.
  - assert (S : 2 ^ (e0 + 1074) = 2 ^ e0 * 2 ^ 1074) by (apply pow2_split; lia).
    assert (PS : 0 < 2 ^ 1074) by (apply pow2_pos; lia).
    assert (Hlt : Z.abs (d * 2 ^ e0) < 1 * 2 ^ b).
    { rewrite S in H. replace (d * (2 ^ e0 * 2 ^ 1074)) with (d * 2 ^ e0 * 2 ^ 1074) in H by ring.
      rewrite Z.abs_mul, (Z.abs_eq (2 ^ 1074)) in H by lia.
      apply (Z.mul_lt_mono_pos_r (2 ^ 1074)); [ assumption | ].
      rewrite Z.mul_1_l. exact H. }
    destruct (nearest_double_error (d * 2 ^ e0) 1 b ltac:(lia) ltac:(lia) ltac:(lia) Hlt)
      as (m & e & Hn & He & Herr).
    exists m, e. split; [ exact Hn | ]. split; [ exact He | ].
    rewrite S. replace (d * (2 ^ e0 * 2 ^ 1074)) with (d * 2 ^ e0 * 2 ^ 1074) by ring.
    rewrite !Z.mul_1_r in Herr. lia.
Qed.

Lemma of_nat_digits E : 0 < E -> Z.of_nat (S (Z.to_nat E - 1)) = E.
Proof. intros. lia. Qed.

(** The decimal of a double: ten to the number of its digits is
    [2^E * 5^E]. *)
Lemma pow10_split E : 0 <= E -> 10 ^ E = 2 ^ E * 5 ^ E.
Proof. intros. change 10 with (2 * 5). apply Z.pow_mul_l. Qed.

Lemma of_double_error m e b :
  -1074 <= e -> 0 <= b <= 1023 -> Z.abs (units m e) < 2 ^ b * 2 ^ 1074 ->
  exists M e',
    to_double (of_double (DFin m e)) = DFin M e'
    /\ -1074 <= e' <= b - 53
    /\ 2 * Z.abs (units M e' - units m e) <= 2 ^ (e' + 1074).
Proof.
  intros He Hb H. cbn [of_double].
  assert (PX : 0 < 2 ^ (e + 1074)) by (apply pow2_pos; lia).
  assert (PB : 0 < 2 ^ b) by (apply pow2_pos; lia).
  assert (PS : 0 < 2 ^ 1074) by (apply pow2_pos; lia).
  unfold units in H. rewrite Z.abs_mul, (Z.abs_eq (2 ^ (e + 1074))) in H by lia.
  destruct (Z.ltb_spec e 0).
  - cbn [to_double]. rewrite of_nat_digits by lia.
    assert (S : 2 ^ 1074 = 2 ^ (- e) * 2 ^ (e + 1074))
      by (rewrite <- pow2_split by lia; f_equal; lia).
    assert (PY : 0 < 2 ^ (- e)) by (apply pow2_pos; lia).
    assert (P5 : 0 < 5 ^ (- e)) by (apply Z.pow_pos_nonneg; lia).
    rewrite (pow10_split (- e)) by lia.
    assert (Hq : 0 < 2 ^ (- e) * 5 ^ (- e)) by (apply Z.mul_pos_pos; assumption).
    assert (Hlt : Z.abs (m * 5 ^ (- e)) < 2 ^ (- e) * 5 ^ (- e) * 2 ^ b).
    { rewrite Z.abs_mul, (Z.abs_eq (5 ^ (- e))) by lia. rewrite S in H.
      set (X := 2 ^ (e + 1074)) in *. set (Y := 2 ^ (- e)) in *. set (F := 5 ^ (- e)) in *.
      set (B := 2 ^ b) in *.
      assert (Z.abs m < Y * B) by nia. nia. }
    destruct (nearest_double_error (m * 5 ^ (- e)) (2 ^ (- e) * 5 ^ (- e)) b
                Hq ltac:(lia) ltac:(lia) Hlt) as (M & e' & Hn & He' & Herr).
    exists M, e'. split; [ exact Hn | ]. split; [ exact He' | ].
    unfold units at 2. rewrite S in Herr.
    set (X := 2 ^ (e + 1074)) in *. set (Y := 2 ^ (- e)) in *. set (F := 5 ^ (- e)) in *.
    replace (units M e' * (Y * F) - m * F * (Y * X)) with ((units M e' - m * X) * (Y * F))
      in Herr by ring.
    rewrite Z.abs_mul, (Z.abs_eq (Y * F)) in Herr by nia.
    assert (0 < 2 ^ (e' + 1074)) by (apply pow2_pos; lia). nia.
  - cbn [to_double]. change (10 ^ Z.of_nat 1) with 10.
    assert (S : 2 ^ (e + 1074) = 2 ^ e * 2 ^ 1074) by (apply pow2_split; lia).
    assert (Hlt : Z.abs (m * 2 ^ e * 10) < 10 * 2 ^ b).
    { rewrite S in H. rewrite !Z.abs_mul, (Z.abs_eq 10) by lia.
      rewrite (Z.abs_eq (2 ^ e)) by (apply Z.pow_nonneg; lia).
      set (Y := 2 ^ e) in *. set (P := 2 ^ 1074) in *. set (B := 2 ^ b) in *.
      assert (Z.abs m * Y < B) by nia. lia. }
    destruct (nearest_double_error (m * 2 ^ e * 10) 10 b ltac:(lia) ltac:(lia) ltac:(lia) Hlt)
      as (M & e' & Hn & He' & Herr).
    exists M, e'. split; [ exact Hn | ]. split; [ exact He' | ].
    unfold units at 2. rewrite S.
    replace (units M e' * 10 - m * 2 ^ e * 10 * 2 ^ 1074)
      with ((units M e' - m * (2 ^ e * 2 ^ 1074)) * 10) in Herr by ring.
    rewrite Z.abs_mul in Herr. change (Z.abs 10) with 10 in Herr.
    assert (0 < 2 ^ (e' + 1074)) by (apply pow2_pos; lia). nia.
Qed.

Lemma pow2_le a b : a <= b -> 2 ^ a <= 2 ^ b.
Proof. intros. apply Z.pow_le_mono_r; lia. Qed.

Lemma pow10_pos k : 0 < 10 ^ Z.of_nat (S k).
Proof. apply Z.pow_pos_nonneg; lia. Qed.

Lemma fsub_nonzero a m k :
  m <> 0 -> fsub a (FFin m k) = of_double (dsub (to_double a) (to_double (FFin m k))).
Proof. intros Hm. unfold fsub. destruct m; [ contradiction | | ]; reflexivity. Qed.

(** The double of a time stamp below [2^40] seconds, within [2^-14]. *)
Lemma timestamp_double m k :
  Z.abs m < 10 ^ Z.of_nat (S k) * 2 ^ 40 ->
  exists M e,
    to_double (FFin m k) = DFin M e /\ -1074 <= e
    /\ 2 * Z.abs (units M e * 10 ^ Z.of_nat (S k) - m * 2 ^ 1074)
       <= 10 ^ Z.of_nat (S k) * 2 ^ 1061.
Proof.
  intros H. destruct (to_double_error m k 40 ltac:(lia) H) as (M & e & Hd & He & Herr).
  exists M, e. split; [ exact Hd | ]. split; [ lia | ].
  pose proof (pow2_le (e + 1074) 1061 ltac:(lia)) as L.
  pose proof (pow10_pos k) as Q.
  set (q := 10 ^ Z.of_nat (S k)) in *. set (X := 2 ^ (e + 1074)) in *.
  set (Y := 2 ^ 1061) in *. nia.
Qed.

Lemma units_bound U q m P :
  0 < q -> 0 < P -> 2 * Z.abs (U * q - m * (8192 * P)) <= q * P ->
  Z.abs m < q * 1099511627776 ->
  Z.abs U < 2199023255552 * (8192 * P).
Proof.
  intros Hq HP H Hm.
  assert (H1 : Z.abs m * (8192 * P) <= (q * 1099511627776 - 1) * (8192 * P))
    by (apply Z.mul_le_mono_nonneg_r; lia).
  assert (H2 : Z.abs (m * (8192 * P)) = Z.abs m * (8192 * P))
    by (rewrite Z.abs_mul, (Z.abs_eq (8192 * P)) by lia; reflexivity).
  assert (H3 : Z.abs (U * q) = Z.abs U * q)
    by (rewrite Z.abs_mul, (Z.abs_eq q) by lia; reflexivity).
  apply (Z.mul_lt_mono_pos_r q); [ exact Hq | ].
  rewrite <- H3.
  replace ((q * 1099511627776 - 1) * (8192 * P))
    with (1099511627776 * (8192 * (q * P)) - 8192 * P) in H1 by ring.
  replace (2199023255552 * (8192 * P) * q) with (2199023255552 * (8192 * (q * P))) by ring.
  set (a := U * q) in *. set (b := m * (8192 * P)) in *. set (g := q * P) in *.
  assert (0 < g) by (apply Z.mul_pos_pos; assumption).
  clearbody a b g. lia.
Qed.

(** The computed age of two time stamps below [2^40] seconds is within
    [7 * 2^-13] seconds of their difference. *)
Lemma age_error mn kn mc kc :
  let qn := 10 ^ Z.of_nat (S kn) in
  let qc := 10 ^ Z.of_nat (S kc) in
  Z.abs mn < qn * 2 ^ 40 -> Z.abs mc < qc * 2 ^ 40 ->
  exists m e,
    to_double (fsub (FFin mn kn) (FFin mc kc)) = DFin m e /\ -1074 <= e
    /\ Z.abs (units m e * (qn * qc) - (mn * qc - mc * qn) * 2 ^ 1074)
       <= 7 * (qn * qc) * 2 ^ 1061.
Proof.
  cbv zeta. intros Hn Hc.
  pose proof (pow10_pos kn) as Qn. pose proof (pow10_pos kc) as Qc.
  assert (EP : 2 ^ 1074 = 8192 * 2 ^ 1061)
    by (transitivity (2 ^ (13 + 1061)); [ reflexivity | apply pow2_split; lia ]).
  assert (PP : 0 < 2 ^ 1061) by (apply pow2_pos; lia).
  assert (E40 : 2 ^ 40 = 1099511627776) by reflexivity.
  destruct (timestamp_double mn kn Hn) as (M1 & e1 & D1 & L1 & R1).
  destruct (Z.eq_dec mc 0) as [ Z0 | NZ ].
  - subst mc. cbn [fsub]. exists M1, e1. split; [ exact D1 | ]. split; [ exact L1 | ].
    set (qn := 10 ^ Z.of_nat (S kn)) in *. set (qc := 10 ^ Z.of_nat (S kc)) in *.
    set (P := 2 ^ 1061) in *. rewrite EP in *. clearbody P qn qc.
    replace (units M1 e1 * (qn * qc) - (mn * qc - 0 * qn) * (8192 * P))
      with ((units M1 e1 * qn - mn * (8192 * P)) * qc) by ring.
    rewrite Z.abs_mul, (Z.abs_eq qc) by lia. nia.
  - rewrite fsub_nonzero by exact NZ.
    destruct (timestamp_double mc kc Hc) as (M2 & e2 & D2 & L2 & R2).
    rewrite D1, D2.
    assert (B1 : Z.abs (units M1 e1) < 2 ^ 41 * 2 ^ 1061 * 8192 / 8192 + 1
                 -> True) by auto. clear B1.
    set (qn := 10 ^ Z.of_nat (S kn)) in *. set (qc := 10 ^ Z.of_nat (S kc)) in *.
    set (P := 2 ^ 1061) in *.
    set (U1 := units M1 e1) in *. set (U2 := units M2 e2) in *.
    assert (A1 : Z.abs U1 < 2 ^ 41 * 2 ^ 1074).
    { rewrite EP. fold P. change (2 ^ 41) with 2199023255552.
      apply (units_bound U1 qn mn P Qn PP).
      - rewrite EP in R1. exact R1.
      - rewrite E40 in Hn. exact Hn. }
    assert (A2 : Z.abs U2 < 2 ^ 41 * 2 ^ 1074).
    { rewrite EP. fold P. change (2 ^ 41) with 2199023255552.
      apply (units_bound U2 qc mc P Qc PP).
      - rewrite EP in R2. exact R2.
      - rewrite E40 in Hc. exact Hc. }
    assert (A12 : Z.abs (U1 - U2) < 2 ^ 42 * 2 ^ 1074).
    { change (2 ^ 42) with (2 * 2 ^ 41). set (T := 2 ^ 41 * 2 ^ 1074) in *.
      rewrite <- Z.mul_assoc. fold T. lia. }
    destruct (dsub_error M1 e1 M2 e2 42 L1 L2 ltac:(lia) A12) as (M3 & e3 & D3 & L3 & R3).
    fold U1 U2 in R3. set (U3 := units M3 e3) in *.
    pose proof (pow2_le (e3 + 1074) 1063 ltac:(lia)) as G3.
    assert (E63 : 2 ^ 1063 = 4 * 2 ^ 1061)
      by (transitivity (2 ^ (2 + 1061)); [ reflexivity | apply pow2_split; lia ]).
    fold P in E63. rewrite E63 in G3.
    assert (A3 : Z.abs U3 < 2 ^ 43 * 2 ^ 1074).
    { change (2 ^ 43) with (2 * 2 ^ 42). rewrite <- Z.mul_assoc.
      set (T := 2 ^ 42 * 2 ^ 1074) in *.
      assert (4 * P <= T).
      { unfold T. rewrite EP. fold P. change (2 ^ 42) with 4398046511104. lia. }
      lia. }
    destruct (of_double_error M3 e3 43 ltac:(lia) ltac:(lia) A3) as (M4 & e4 & D4 & L4 & R4).
    fold U3 in R4. set (U4 := units M4 e4) in *.
    pose proof (pow2_le (e4 + 1074) 1064 ltac:(lia)) as G4.
    assert (E64 : 2 ^ 1064 = 8 * 2 ^ 1061)
      by (transitivity (2 ^ (3 + 1061)); [ reflexivity | apply pow2_split; lia ]).
    fold P in E64. rewrite E64 in G4.
    rewrite D3. exists M4, e4. split; [ exact D4 | ]. split; [ lia | ].
    fold U4. rewrite EP in *. fold P in R1, R2 |- *.
    set (X3 := 2 ^ (e3 + 1074)) in *. set (X4 := 2 ^ (e4 + 1074)) in *.
    clear A1 A2 A12 A3 D1 D2 D3 D4 Hn Hc E40 EP E63 E64.
    clearbody U1 U2 U3 U4 X3 X4 P qn qc.
    assert (S1 : 2 * Z.abs (U1 * (qn * qc) - mn * qc * (8192 * P)) <= qn * qc * P).
    { replace (U1 * (qn * qc) - mn * qc * (8192 * P))
        with ((U1 * qn - mn * (8192 * P)) * qc) by ring.
      rewrite Z.abs_mul, (Z.abs_eq qc) by lia. nia. }
    assert (S2 : 2 * Z.abs (U2 * (qn * qc) - mc * qn * (8192 * P)) <= qn * qc * P).
    { replace (U2 * (qn * qc) - mc * qn * (8192 * P))
        with ((U2 * qc - mc * (8192 * P)) * qn) by ring.
      rewrite Z.abs_mul, (Z.abs_eq qn) by lia. nia. }
    assert (Q : 0 < qn * qc) by (apply Z.mul_pos_pos; assumption).
    assert (S3 : 2 * Z.abs (U3 * (qn * qc) - (U1 - U2) * (qn * qc)) <= 4 * (qn * qc * P)).
    { rewrite <- Z.mul_sub_distr_r, Z.abs_mul, (Z.abs_eq (qn * qc)) by lia.
      set (Q' := qn * qc) in *. clearbody Q'. nia. }
    assert (S4 : 2 * Z.abs (U4 * (qn * qc) - U3 * (qn * qc)) <= 8 * (qn * qc * P)).
    { rewrite <- Z.mul_sub_distr_r, Z.abs_mul, (Z.abs_eq (qn * qc)) by lia.
      set (Q' := qn * qc) in *. clearbody Q'. nia. }
    replace ((mn * qc - mc * qn) * (8192 * P))
      with (mn * qc * (8192 * P) - mc * qn * (8192 * P)) by ring.
    replace (7 * (qn * qc) * P) with (7 * (qn * qc * P)) by ring.
    set (g := qn * qc * P) in *.
    set (x1 := U1 * (qn * qc)) in *. set (x2 := U2 * (qn * qc)) in *.
    set (x3 := U3 * (qn * qc)) in *. set (x4 := U4 * (qn * qc)) in *.
    replace ((U1 - U2) * (qn * qc)) with (x1 - x2) in S3 by (unfold x1, x2; ring).
    set (t := mn * qc * (8192 * P)) in *. set (s := mc * qn * (8192 * P)) in *.
    clearbody g x1 x2 x3 x4 t s. lia.
Qed.

Lemma pow2_1074 : 2 ^ 1074 = 8192 * 2 ^ 1061.
Proof. transitivity (2 ^ (13 + 1061)); [ reflexivity | apply pow2_split; lia ]. Qed.

(** A difference of more than the TTL by a millisecond is a computed age
    above the TTL. *)
Lemma age_above mn kn mc kc ttl :
  let qn := 10 ^ Z.of_nat (S kn) in
  let qc := 10 ^ Z.of_nat (S kc) in
  Z.abs mn < qn * 2 ^ 40 -> Z.abs mc < qc * 2 ^ 40 ->
  (1000 * ttl + 1) * (qn * qc) <= 1000 * (mn * qc - mc * qn) ->
  fgt (fsub (FFin mn kn) (FFin mc kc)) ttl = true.
Proof.
  cbv zeta. intros Hn Hc H.
  destruct (age_error mn kn mc kc Hn Hc) as (m & e & D & L & R).
  rewrite (fgt_units _ m e ttl D L). apply Z.ltb_lt.
  pose proof (pow10_pos kn) as Qn. pose proof (pow10_pos kc) as Qc.
  assert (PP : 0 < 2 ^ 1061) by (apply pow2_pos; lia).
  rewrite pow2_1074 in *.
  set (qn := 10 ^ Z.of_nat (S kn)) in *. set (qc := 10 ^ Z.of_nat (S kc)) in *.
  set (P := 2 ^ 1061) in *. set (U := units m e) in *.
  assert (Q : 0 < qn * qc) by (apply Z.mul_pos_pos; assumption).
  apply (Z.mul_lt_mono_pos_r (qn * qc)); [ exact Q | ].
  assert (H' : (1000 * ttl + 1) * (qn * qc) * (8192 * P)
               <= 1000 * (mn * qc - mc * qn) * (8192 * P))
    by (apply Z.mul_le_mono_nonneg_r; lia).
  replace ((1000 * ttl + 1) * (qn * qc) * (8192 * P))
    with (1000 * (ttl * (8192 * P) * (qn * qc)) + 8192 * (qn * qc * P)) in H' by ring.
  replace (1000 * (mn * qc - mc * qn) * (8192 * P))
    with (1000 * ((mn * qc - mc * qn) * (8192 * P))) in H' by ring.
  replace (7 * (qn * qc) * P) with (7 * (qn * qc * P)) in R by ring.
  assert (G : 0 < qn * qc * P) by (apply Z.mul_pos_pos; assumption).
  set (g := qn * qc * P) in *. set (x := U * (qn * qc)) in *.
  set (dd := (mn * qc - mc * qn) * (8192 * P)) in *.
  set (T := ttl * (8192 * P) * (qn * qc)) in *.
  clearbody g x dd T. lia.
Qed.

(** A difference of less than the TTL by a millisecond is a computed age
    that is not above the TTL. *)
Lemma age_below mn kn mc kc ttl :
  let qn := 10 ^ Z.of_nat (S kn) in
  let qc := 10 ^ Z.of_nat (S kc) in
  Z.abs mn < qn * 2 ^ 40 -> Z.abs mc < qc * 2 ^ 40 ->
  1000 * (mn * qc - mc * qn) <= (1000 * ttl - 1) * (qn * qc) ->
  fgt (fsub (FFin mn kn) (FFin mc kc)) ttl = false.
Proof.
  cbv zeta. intros Hn Hc H.
  destruct (age_error mn kn mc kc Hn Hc) as (m & e & D & L & R).
  rewrite (fgt_units _ m e ttl D L). apply Z.ltb_ge.
  pose proof (pow10_pos kn) as Qn. pose proof (pow10_pos kc) as Qc.
  assert (PP : 0 < 2 ^ 1061) by (apply pow2_pos; lia).
  rewrite pow2_1074 in *.
  set (qn := 10 ^ Z.of_nat (S kn)) in *. set (qc := 10 ^ Z.of_nat (S kc)) in *.
  set (P := 2 ^ 1061) in *. set (U := units m e) in *.
  assert (Q : 0 < qn * qc) by (apply Z.mul_pos_pos; assumption).
  apply (Z.mul_le_mono_pos_r _ _ (qn * qc)); [ exact Q | ].
  assert (H' : 1000 * (mn * qc - mc * qn) * (8192 * P)
               <= (1000 * ttl - 1) * (qn * qc) * (8192 * P))
    by (apply Z.mul_le_mono_nonneg_r; lia).
  replace ((1000 * ttl - 1) * (qn * qc) * (8192 * P))
    with (1000 * (ttl * (8192 * P) * (qn * qc)) - 8192 * (qn * qc * P)) in H' by ring.
  replace (1000 * (mn * qc - mc * qn) * (8192 * P))
    with (1000 * ((mn * qc - mc * qn) * (8192 * P))) in H' by ring.
  replace (7 * (qn * qc) * P) with (7 * (qn * qc * P)) in R by ring.
  assert (G : 0 < qn * qc * P) by (apply Z.mul_pos_pos; assumption).
  set (g := qn * qc * P) in *. set (x := U * (qn * qc)) in *.
  set (dd := (mn * qc - mc * qn) * (8192 * P)) in *.
  set (T := ttl * (8192 * P) * (qn * qc)) in *.
  clearbody g x dd T. lia.
Qed.

(** *** Exact cases *)

Lemma dsub_exact m1 e1 m2 e2 M E :
  -1074 <= e1 -> -1074 <= e2 -> -1074 <= E <= 970 -> Z.abs M < 2 ^ 53 ->
  units m1 e1 - units m2 e2 = M * 2 ^ (E + 1074) ->
  exists m e,
    dsub (DFin m1 e1) (DFin m2 e2) = DFin m e /\ -1074 <= e
    /\ units m e = M * 2 ^ (E + 1074).
Proof.
  intros H1 H2 HE HM H. cbn [dsub]. cbv zeta.
  set (e0 := Z.min e1 e2). set (d := m1 * 2 ^ (e1 - e0) - m2 * 2 ^ (e2 - e0)).
  assert (He0 : -1074 <= e0) by (unfold e0; lia).
  assert (Hd : d * 2 ^ (e0 + 1074) = units m1 e1 - units m2 e2).
  { unfold d, units. rewrite Z.mul_sub_distr_r, <- !Z.mul_assoc, <- !pow2_split
      by (unfold e0; lia).
    do 2 f_equal; f_equal; lia. }
  rewrite H in Hd.
  destruct (Z.ltb_spec e0 0).
  - assert (S : 2 ^ 1074 = 2 ^ (e0 + 1074) * 2 ^ (- e0))
      by (rewrite <- pow2_split by lia; f_equal; lia).
    assert (PY : 0 < 2 ^ (- e0)) by (apply pow2_pos; lia).
    destruct (nearest_double_exact d (2 ^ (- e0)) M E PY HE HM) as (m & e & Hn & He & Hu).
    { rewrite S, Z.mul_assoc, Hd. reflexivity. }
    exists m, e. split; [ exact Hn | ]. split; [ lia | exact Hu ].
  - assert (S : 2 ^ (e0 + 1074) = 2 ^ e0 * 2 ^ 1074) by (apply pow2_split; lia).
    destruct (nearest_double_exact (d * 2 ^ e0) 1 M E ltac:(lia) HE HM)
      as (m & e & Hn & He & Hu).
    { rewrite Z.mul_1_r, <- Hd, S. ring. }
    exists m, e. split; [ exact Hn | ]. split; [ lia | exact Hu ].
Qed.

Lemma of_double_exact m e M E :
  -1074 <= e -> -1074 <= E <= 970 -> Z.abs M < 2 ^ 53 ->
  units m e = M * 2 ^ (E + 1074) ->
  exists m' e',
    to_double (of_double (DFin m e)) = DFin m' e' /\ -1074 <= e'
    /\ units m' e' = M * 2 ^ (E + 1074).
Proof.
  intros He HE HM H. cbn [of_double]. unfold units in H.
  destruct (Z.ltb_spec e 0).
  - cbn [to_double]. rewrite of_nat_digits by lia.
    assert (S : 2 ^ 1074 = 2 ^ (e + 1074) * 2 ^ (- e))
      by (rewrite <- pow2_split by lia; f_equal; lia).
    assert (PY : 0 < 2 ^ (- e)) by (apply pow2_pos; lia).
    assert (P5 : 0 < 5 ^ (- e)) by (apply Z.pow_pos_nonneg; lia).
    rewrite (pow10_split (- e)) by lia.
    assert (Hq : 0 < 2 ^ (- e) * 5 ^ (- e)) by (apply Z.mul_pos_pos; assumption).
    destruct (nearest_double_exact (m * 5 ^ (- e)) (2 ^ (- e) * 5 ^ (- e)) M E Hq HE HM)
      as (m' & e' & Hn & He' & Hu).
    { rewrite <- H, S. ring. }
    exists m', e'. split; [ exact Hn | ]. split; [ lia | exact Hu ].
  - cbn [to_double]. change (10 ^ Z.of_nat 1) with 10.
    assert (S : 2 ^ (e + 1074) = 2 ^ e * 2 ^ 1074) by (apply pow2_split; lia).
    destruct (nearest_double_exact (m * 2 ^ e * 10) 10 M E ltac:(lia) HE HM)
      as (m' & e' & Hn & He' & Hu).
    { rewrite <- H, S. ring. }
    exists m', e'. split; [ exact Hn | ]. split; [ lia | exact Hu ].
Qed.

(** A whole number of seconds below [2^53] is a double. *)
Lemma whole_seconds_double N :
  Z.abs N < 2 ^ 53 ->
  exists m e, to_double (FFin (N * 10) 0) = DFin m e /\ -1074 <= e
              /\ units m e = N * 2 ^ 1074.
Proof.
  intros HN. cbn [to_double]. change (10 ^ Z.of_nat 1) with 10.
  destruct (nearest_double_exact (N * 10) 10 N 0 ltac:(lia) ltac:(lia) HN)
    as (m & e & Hn & He & Hu).
  { change (0 + 1074) with 1074. ring. }
  exists m, e. split; [ exact Hn | ]. split; [ lia | exact Hu ].
Qed.

(** Between whole seconds the computed age is the difference. *)
Lemma age_whole_seconds N C ttl :
  Z.abs N < 2 ^ 52 -> Z.abs C < 2 ^ 52 ->
  fgt (fsub (FFin (N * 10) 0) (FFin (C * 10) 0)) ttl = (ttl <? N - C).
Proof.
  intros HN HC.
  assert (L : 2 ^ 52 < 2 ^ 53) by reflexivity.
  assert (PS : 0 < 2 ^ 1074) by (apply pow2_pos; lia).
  destruct (whole_seconds_double N ltac:(lia)) as (m1 & e1 & D1 & L1 & U1).
  assert (G : forall m e, -1074 <= e -> units m e = (N - C) * 2 ^ 1074 ->
              ((ttl * 2 ^ 1074 <? units m e) = (ttl <? N - C))).
  { intros m e _ ->. set (X := 2 ^ 1074) in *. clearbody X.
    destruct (Z.ltb_spec (ttl * X) ((N - C) * X)), (Z.ltb_spec ttl (N - C));
      try reflexivity; nia. }
  destruct (Z.eq_dec C 0) as [ -> | NZ ].
  - change (0 * 10) with 0. cbn [fsub]. rewrite (fgt_units _ m1 e1 ttl D1 L1). apply G; [ exact L1 | ].
    rewrite U1. f_equal. lia.
  - rewrite fsub_nonzero by lia.
    destruct (whole_seconds_double C ltac:(lia)) as (m2 & e2 & D2 & L2 & U2).
    rewrite D1, D2.
    assert (HM : Z.abs (N - C) < 2 ^ 53) by (change (2 ^ 53) with (2 * 2 ^ 52); lia).
    destruct (dsub_exact m1 e1 m2 e2 (N - C) 0 L1 L2 ltac:(lia) HM) as (m3 & e3 & D3 & L3 & U3).
    { rewrite U1, U2. change (0 + 1074) with 1074. ring. }
    rewrite D3.
    destruct (of_double_exact m3 e3 (N - C) 0 L3 ltac:(lia) HM U3) as (m4 & e4 & D4 & L4 & U4).
    rewrite (fgt_units _ m4 e4 ttl D4 L4). apply G; [ exact L4 | exact U4 ].
Qed.

(** *** The age of the present *)

Lemma dsub_same m e : dsub (DFin m e) (DFin m e) = DFin 0 (-1074).
Proof.
  cbn [dsub]. cbv zeta. rewrite Z.min_id, Z.sub_diag.
  destruct (Z.ltb_spec e 0).
  - apply nearest_double_zero, pow2_pos. lia.
  - rewrite Z.mul_0_l. apply nearest_double_zero. lia.
Qed.

Lemma fgt_zero_double x ttl : to_double x = DFin 0 (-1074) -> 0 <= ttl -> fgt x ttl = false.
Proof.
  intros Hx Httl. rewrite (fgt_units _ 0 (-1074) ttl Hx ltac:(lia)).
  unfold units. rewrite Z.mul_0_l. apply Z.ltb_ge.
  assert (0 < 2 ^ 1074) by (apply pow2_pos; lia). nia.
Qed.

Lemma age_of_now m k ttl : 0 <= ttl -> fgt (fsub (FFin m k) (FFin m k)) ttl = false.
Proof.
  intros Httl. destruct (Z.eq_dec m 0) as [ -> | NZ ].
  - cbn [fsub]. apply fgt_zero_double; [ | exact Httl ].
    cbn [to_double]. apply nearest_double_zero, pow10_pos.
  - rewrite fsub_nonzero by exact NZ.
    destruct (to_double (FFin m k)) as [ m' e' | neg | ].
    + rewrite dsub_same. apply fgt_zero_double; [ | exact Httl ].
      unfold of_double. change (-1074 <? 0) with true. cbn [to_double].
      rewrite Z.mul_0_l. apply nearest_double_zero, pow10_pos.
    + cbn [dsub]. rewrite Bool.eqb_reflx. reflexivity.
    + reflexivity.
Qed.

(** *** Beyond the range *)

Lemma nearest_double_overflow n :
  2 ^ 1024 <= Z.abs n -> exists neg, nearest_double n 1 = DInf neg.
Proof.
  intros H. exists (n <? 0). rewrite nearest_double_eq. cbv zeta.
  assert (E : 971 < expo (Z.abs n) 1).
  { unfold expo. rewrite Z.div_1_r.
    assert (L : Z.log2 (2 ^ 1024 * 2 ^ 1074) <= Z.log2 (Z.abs n * 2 ^ 1074)).
    { apply Z.log2_le_mono. apply Z.mul_le_mono_nonneg_r; [ | exact H ].
      apply Z.pow_nonneg. lia. }
    rewrite <- pow2_split, Z.log2_pow2 in L by lia. lia. }
  apply Z.ltb_lt in E. rewrite E. reflexivity.
Qed.

(** *** The staleness test *)

Lemma fsub_zero now : fsub now (FFin 0 0) = now.
Proof. reflexivity. Qed.

Lemma py_float_zero : py_float (VInt 0) = Ok (FFin 0 0).
Proof. unfold py_float. rewrite nearest_double_zero by lia. reflexivity. Qed.

(** A stale entry is a miss, whatever else holds. *)
Lemma stale_entry_misses rp mp t w meta created c :
  read_file w mp = Ok meta ->
  py_get meta (u "created_at") (VInt 0) = Ok created ->
  py_float created = Ok c ->
  fgt (fsub (clock w) c) t = true ->
  fst (load_from_cache rp mp (Some t) false w) = Ok None.
Proof.
  intros Hm Hg Hf Hs. rewrite load_from_cache_run. cbv zeta.
  destruct (bool_decide _); [ | reflexivity ].
  rewrite cache_lookup_run. cbv zeta.
  change (files (set_log (log w ++ [EvExists rp]) w)) with (files w).
  change (head_fault (set_log (log w ++ [EvExists rp]) w)) with (head_fault w).
  change (read_file (set_log (log w ++ [EvExists rp]) w) mp) with (read_file w mp).
  change (clock (set_log (log w ++ [EvExists rp]) w)) with (clock w).
  assert (Hex : bool_decide (is_Some (files w !! mp)) = true).
  { apply bool_decide_eq_true. unfold read_file in Hm. destruct (files w !! mp); [ eauto | discriminate ]. }
  rewrite Hex. destruct (head_fault w); [ reflexivity | ].
  rewrite Hm, Hg, Hf, Hs. reflexivity.
Qed.

(** A fresh entry with a readable result is a hit when no system call
    fails. *)
Lemma fresh_entry_hits rp mp t w meta created c resp :
  no_faults w ->
  read_file w mp = Ok meta ->
  py_get meta (u "created_at") (VInt 0) = Ok created ->
  py_float created = Ok c ->
  fgt (fsub (clock w) c) t = false ->
  read_file w rp = Ok resp ->
  fst (load_from_cache rp mp (Some t) false w) = Ok (Some (200, mark_from_cache resp)).
Proof.
  intros Hnf Hm Hg Hf Hs Hr. rewrite load_from_cache_run. cbv zeta.
  assert (Hrp : bool_decide (is_Some (files w !! rp)) = true).
  { apply bool_decide_eq_true. unfold read_file in Hr. destruct (files w !! rp); [ eauto | discriminate ]. }
  assert (Hmp : bool_decide (is_Some (files w !! mp)) = true).
  { apply bool_decide_eq_true. unfold read_file in Hm. destruct (files w !! mp); [ eauto | discriminate ]. }
  rewrite Hrp, cache_lookup_run. cbv zeta.
  change (files (set_log (log w ++ [EvExists rp]) w)) with (files w).
  change (head_fault (set_log (log w ++ [EvExists rp]) w)) with (head_fault w).
  change (read_file (set_log (log w ++ [EvExists rp]) w) mp) with (read_file w mp).
  change (clock (set_log (log w ++ [EvExists rp]) w)) with (clock w).
  rewrite Hmp, (no_faults_head w Hnf), Hm, Hg, Hf, Hs, serve_result_run.
  rewrite no_faults_head by (apply no_faults_after_read; exact Hnf).
  rewrite (read_file_same w) by (rewrite after_read_files; reflexivity).
  rewrite Hr. reflexivity.
Qed.

(** Without a TTL, or without a metadata file, the result file is read
    directly. *)
Lemma untimed_entry_hits rp mp ttl w resp :
  no_faults w ->
  ttl = None \/ files w !! mp = None ->
  read_file w rp = Ok resp ->
  fst (load_from_cache rp mp ttl false w) = Ok (Some (200, mark_from_cache resp)).
Proof.
  intros Hnf Hcase Hr. rewrite load_from_cache_run. cbv zeta.
  assert (Hrp : bool_decide (is_Some (files w !! rp)) = true).
  { apply bool_decide_eq_true. unfold read_file in Hr. destruct (files w !! rp); [ eauto | discriminate ]. }
  rewrite Hrp, cache_lookup_run. cbv zeta.
  change (files (set_log (log w ++ [EvExists rp]) w)) with (files w).
  assert (Hs : forall w', no_faults w' -> files w' = files w ->
            fst (serve_result rp w') = Ok (Some (200, mark_from_cache resp))).
  { intros w' Hnf' E. rewrite serve_result_run, (no_faults_head w' Hnf'),
      (read_file_same w w' rp E), Hr. reflexivity. }
  destruct ttl as [ t | ].
  - destruct Hcase as [ | Hnone ]; [ discriminate | ]. rewrite Hnone.
    rewrite bool_decide_eq_false_2 by (intros [x Hx]; discriminate).
    specialize (Hs (set_log (log (set_log (log w ++ [EvExists rp]) w) ++ [EvExists mp])
                      (set_log (log w ++ [EvExists rp]) w)) Hnf eq_refl).
    destruct (serve_result _ _) as [r w2]. simpl in Hs. subst r. reflexivity.
  - specialize (Hs (set_log (log w ++ [EvExists rp]) w) Hnf eq_refl).
    destruct (serve_result _ _) as [r w2]. simpl in Hs. subst r. reflexivity.
Qed.

Lemma read_file_lookup w p b : files w !! p = Some b -> read_file w p = loads_bytes b.
Proof. unfold read_file. intros ->. reflexivity. Qed.

(** C4. With a TTL, readable metadata that give a time [created_at] and a
    readable result, the entry is stale exactly when the age that the code
    computes, the clock minus [created_at] as doubles, is above
    [ttl_seconds]: a stale entry is recomputed, any other is served without
    a call of [fetch_fn].  For times within [2^40] seconds of the epoch the
    computed age is within a millisecond of the difference of the two
    times: an entry created more than [ttl_seconds] before the clock by a
    millisecond or more (61 seconds for a TTL of 60) is recomputed, and one
    created less than [ttl_seconds] before it by a millisecond or more (59
    seconds) is served.  Between two times that are whole seconds the
    computed age is their difference: the entry is stale exactly when that
    difference is above [ttl_seconds]. *)
Theorem ttl_expiry_boundary step endpoint payload fetch_fn cache_dir version ttl
  save_extra w mb meta created c rb resp :
  let d := entry_dir cache_dir step (cache_key endpoint payload version) in
  files w !! meta_file d = Some mb ->
  loads_bytes mb = Ok meta ->
  py_get meta (u "created_at") (VInt 0) = Ok created ->
  py_float created = Ok c ->
  files w !! result_file d = Some rb ->
  loads_bytes rb = Ok resp ->
  no_faults w ->
  let run := query_nim_cached step endpoint payload fetch_fn cache_dir version (Some ttl)
               false save_extra w in
  let age := fsub (clock w) c in
  (if fgt age ttl then recomputed run w fetch_fn payload else served run w resp)
  /\ (epoch_time (clock w) = true -> epoch_time c = true ->
      (elapsed_ms_ge (clock w) c (1000 * ttl + 1) = true ->
       recomputed run w fetch_fn payload)
      /\ (elapsed_ms_le (clock w) c (1000 * ttl - 1) = true -> served run w resp))
  /\ (forall N C,
        clock w = FFin (N * 10) 0 -> c = FFin (C * 10) 0 ->
        Z.abs N < 2 ^ 52 -> Z.abs C < 2 ^ 52 ->
        fgt age ttl = (ttl <? N - C)).
Proof.
  cbv zeta. intros Hmb Hmeta Hget Hfloat Hrb Hresp Hnf.
  assert (Hstale : fgt (fsub (clock w) c) ttl = true ->
                   recomputed
                     (query_nim_cached step endpoint payload fetch_fn cache_dir version
                        (Some ttl) false save_extra w) w fetch_fn payload).
  { intros Hgt. apply load_miss_recomputed.
    eapply stale_entry_misses; eauto. rewrite (read_file_lookup _ _ _ Hmb). exact Hmeta. }
  assert (Hfresh : fgt (fsub (clock w) c) ttl = false ->
                   served
                     (query_nim_cached step endpoint payload fetch_fn cache_dir version
                        (Some ttl) false save_extra w) w resp).
  { intros Hgt. apply load_hit_served.
    eapply fresh_entry_hits; eauto.
    - rewrite (read_file_lookup _ _ _ Hmb). exact Hmeta.
    - rewrite (read_file_lookup _ _ _ Hrb). exact Hresp. }
  split; [ | split ].
  - destruct (fgt (fsub (clock w) c) ttl); auto.
  - intros Hn Hc.
    destruct (clock w) as [ mn kn | | ? ]; try discriminate Hn.
    destruct c as [ mc kc | | ? ]; try discriminate Hc.
    cbn [epoch_time] in Hn, Hc. apply Z.ltb_lt in Hn, Hc.
    split; intros H; cbn [elapsed_ms_ge elapsed_ms_le] in H; cbv zeta in H;
      apply Z.leb_le in H.
    + apply Hstale, age_above; assumption.
    + apply Hfresh, age_below; assumption.
  - intros N C -> -> HN HC. apply age_whole_seconds; assumption.
Qed.

(** C9. Readable metadata without [created_at] count as created at time
    0: once the clock exceeds the TTL the entry is stale and recomputed. *)
Theorem meta_without_created_at_is_stale step endpoint payload fetch_fn cache_dir version
  ttl save_extra w mb md :
  let d := entry_dir cache_dir step (cache_key endpoint payload version) in
  files w !! meta_file d = Some mb ->
  loads_bytes mb = Ok (VDict md) ->
  dict_get md (u "created_at") = None ->
  fgt (clock w) ttl = true ->
  let run := query_nim_cached step endpoint payload fetch_fn cache_dir version (Some ttl)
               false save_extra w in
  py_get (VDict md) (u "created_at") (VInt 0) = Ok (VInt 0)
  /\ fsub (clock w) (FFin 0 0) = clock w
  /\ recomputed run w fetch_fn payload.
Proof.
  cbv zeta. intros Hmb Hmeta Hget Hnow.
  assert (Hg : py_get (VDict md) (u "created_at") (VInt 0) = Ok (VInt 0)).
  { unfold py_get. rewrite Hget. reflexivity. }
  split; [ exact Hg | ]. split; [ apply fsub_zero | ].
  apply load_miss_recomputed.
  eapply stale_entry_misses.
  - rewrite (read_file_lookup _ _ _ Hmb). exact Hmeta.
  - exact Hg.
  - exact py_float_zero.
  - rewrite fsub_zero. exact Hnow.
Qed.

(** C3, as the code has it.  With a TTL and a readable result: when the
    metadata file is missing the result is served; when the metadata file is
    there and cannot be parsed the entry is recomputed. *)
Theorem missing_meta_serves_corrupt_meta_recomputes step endpoint payload fetch_fn cache_dir
  version ttl save_extra w rb resp :
  let d := entry_dir cache_dir step (cache_key endpoint payload version) in
  files w !! result_file d = Some rb ->
  loads_bytes rb = Ok resp ->
  let run := query_nim_cached step endpoint payload fetch_fn cache_dir version (Some ttl)
               false save_extra w in
  match files w !! meta_file d with
  | None => no_faults w -> served run w resp
  | Some mb => forall e, loads_bytes mb = Raise e -> recomputed run w fetch_fn payload
  end.
Proof.
  cbv zeta. intros Hrb Hresp.
  destruct (files w !! meta_file _) as [ mb | ] eqn:Hmb.
  - intros e He. apply load_miss_recomputed.
    assert (exists e', fst (cache_lookup
                              (result_file (entry_dir cache_dir step
                                              (cache_key endpoint payload version)))
                              (meta_file (entry_dir cache_dir step
                                            (cache_key endpoint payload version)))
                              (Some ttl)
                              (set_log (log w ++ [EvExists (result_file
                                 (entry_dir cache_dir step
                                    (cache_key endpoint payload version)))]) w)) = Raise e')
      as [e' He']; [ | exact (lookup_raise_misses _ _ _ _ _ _ He') ].
    rewrite cache_lookup_run. cbv zeta.
    change (files (set_log (log w ++ [EvExists ?p]) w)) with (files w).
    rewrite Hmb, bool_decide_eq_true_2 by eauto.
    change (read_file (set_log (log w ++ [EvExists ?p]) w)) with (read_file w).
    rewrite (read_file_lookup _ _ _ Hmb), He.
    destruct (head_fault _); eexists; reflexivity.
  - intros Hnf. apply load_hit_served. apply untimed_entry_hits; auto.
    rewrite (read_file_lookup _ _ _ Hrb). exact Hresp.
Qed.

(** *** The temporary file *)

Lemma tmp_name_temporary fs : temporary_name (tmp_name fs) = true.
Proof. reflexivity. Qed.

Lemma tmp_name_length fs (p : bool * list (list Z)) :
  is_Some (fs !! p) -> (length (file_name p) < length (tmp_name fs))%nat.
Proof.
  intros Hp. unfold tmp_name. rewrite length_app, length_replicate.
  assert (length (file_name p)
          <= max_list (List.map (fun p : bool * list (list Z) => length (default [] (last (snd p))))
                         (elements (dom fs))))%nat; [ | lia ].
  apply max_list_elem_of_le. apply list_elem_of_In, in_map_iff. exists p. split; [ reflexivity | ].
  apply list_elem_of_In, elem_of_elements, elem_of_dom, Hp.
Qed.

Lemma tmp_fresh fs (d : bool * list (list Z)) :
  fs !! (fst d, snd d ++ [tmp_name fs]) = None.
Proof.
  destruct (fs !! (fst d, snd d ++ [tmp_name fs])) eqn:E; [ | reflexivity ].
  pose proof (tmp_name_length fs (fst d, snd d ++ [tmp_name fs]) ltac:(eauto)) as H.
  unfold file_name in H. cbn [snd] in H. rewrite last_snoc in H. simpl in H. lia.
Qed.

Lemma tmp_other fs (p : bool * list (list Z)) :
  temporary_name (file_name p) = false ->
  (fst (parent p), snd (parent p) ++ [tmp_name fs]) <> p.
Proof.
  intros Hp E. rewrite <- E in Hp. unfold file_name in Hp. cbn [snd] in Hp.
  rewrite last_snoc in Hp. discriminate.
Qed.

Lemma tmp_parent (d : bool * list (list Z)) name : parent (fst d, snd d ++ [name]) = d.
Proof. unfold parent. cbn [fst snd]. rewrite removelast_last. destruct d; reflexivity. Qed.

(** *** The world under [pop_fault] *)

Lemma files_pop_fault w : files (pop_fault w) = files w.
Proof. unfold pop_fault. destruct (faults w); reflexivity. Qed.
Lemma synced_pop_fault w : synced (pop_fault w) = synced w.
Proof. unfold pop_fault. destruct (faults w); reflexivity. Qed.
Lemma log_pop_fault w : log (pop_fault w) = log w.
Proof. unfold pop_fault. destruct (faults w); reflexivity. Qed.
Lemma clock_pop_fault w : clock (pop_fault w) = clock w.
Proof. unfold pop_fault. destruct (faults w); reflexivity. Qed.

(** *** One run of [_atomic_write] *)

Lemma named_temporary_file_run d w :
  named_temporary_file d w
  = let tmp := (fst d, snd d ++ [tmp_name (files w)]) in
    let w1 := pop_fault (set_log (log w ++ [EvCreate tmp]) w) in
    match head_fault w with
    | Some _ => (Raise OSError, w1)
    | None => (Ok tmp, set_synced (synced w1 ∖ {[tmp]}) (set_files (<[tmp := []]> (files w1)) w1))
    end.
Proof.
  unfold named_temporary_file. cbv zeta. unfold bind at 1. rewrite syscall_run.
  destruct (head_fault w); reflexivity.
Qed.

Lemma tmp_write_run tmp data w :
  tmp_write tmp data w
  = let w1 := pop_fault (set_log (log w ++ [EvWrite tmp data]) w) in
    match head_fault w with
    | Some n =>
        (Raise OSError,
         set_synced (synced w1 ∖ {[tmp]}) (set_files (<[tmp := take n data]> (files w1)) w1))
    | None =>
        (Ok tt, set_synced (synced w1 ∖ {[tmp]}) (set_files (<[tmp := data]> (files w1)) w1))
    end.
Proof.
  unfold tmp_write, bind, emit. rewrite next_fault_run.
  change (head_fault (set_log (log w ++ [EvWrite tmp data]) w)) with (head_fault w).
  destruct (head_fault w); reflexivity.
Qed.

Lemma os_fsync_run tmp w :
  os_fsync tmp w
  = let w1 := pop_fault (set_log (log w ++ [EvFsync tmp]) w) in
    match head_fault w with
    | Some _ => (Raise OSError, w1)
    | None => (Ok tt, set_synced ({[tmp]} ∪ synced w1) w1)
    end.
Proof.
  unfold os_fsync, bind. rewrite syscall_run. destruct (head_fault w); reflexivity.
Qed.

Lemma os_replace_run src dst w :
  os_replace src dst w
  = let w1 := pop_fault (set_log (log w ++ [EvReplace src dst]) w) in
    match head_fault w with
    | Some _ => (Raise OSError, w1)
    | None =>
        match files w1 !! src with
        | None => (Raise FileNotFoundError, w1)
        | Some b =>
            (Ok tt,
             set_synced
               (if bool_decide (src ∈ synced w1) then {[dst]} ∪ (synced w1 ∖ {[src]})
                else synced w1 ∖ {[src]} ∖ {[dst]})
               (set_files (<[dst := b]> (delete src (files w1))) w1))
        end
    end.
Proof.
  unfold os_replace, bind. rewrite syscall_run. destruct (head_fault w); reflexivity.
Qed.

Lemma log_set_synced s w : log (set_synced s w) = log w.
Proof. reflexivity. Qed.
Lemma log_set_files f w : log (set_files f w) = log w.
Proof. reflexivity. Qed.
Lemma files_set_synced s w : files (set_synced s w) = files w.
Proof. reflexivity. Qed.
Lemma files_set_files f w : files (set_files f w) = f.
Proof. reflexivity. Qed.
Lemma synced_set_synced s w : synced (set_synced s w) = s.
Proof. reflexivity. Qed.
Lemma synced_set_files f w : synced (set_files f w) = synced w.
Proof. reflexivity. Qed.
Lemma clock_set_synced s w : clock (set_synced s w) = clock w.
Proof. reflexivity. Qed.
Lemma clock_set_files f w : clock (set_files f w) = clock w.
Proof. reflexivity. Qed.
Lemma log_set_log l w : log (set_log l w) = l.
Proof. reflexivity. Qed.
Lemma files_set_log l w : files (set_log l w) = files w.
Proof. reflexivity. Qed.
Lemma synced_set_log l w : synced (set_log l w) = synced w.
Proof. reflexivity. Qed.
Lemma clock_set_log l w : clock (set_log l w) = clock w.
Proof. reflexivity. Qed.

#[export] Hint Rewrite log_set_synced log_set_files files_set_synced files_set_files
  synced_set_synced synced_set_files clock_set_synced clock_set_files log_set_log
  files_set_log synced_set_log clock_set_log files_pop_fault synced_pop_fault log_pop_fault
  clock_pop_fault : world.

(** Every run of [_atomic_write] stops after some of the calls of the
    protocol, the temporary file being the only one touched, or makes them
    all and leaves the data at the final path, synced. *)
Lemma atomic_write_cases p data w r w' :
  _atomic_write p data w = (r, w') ->
  let tmp := tmp_of p w in
  (exists k e, (k <= 6)%nat /\ r = Raise e /\ ~ no_faults w
     /\ log w' = log w ++ take k (write_protocol p tmp data)
     /\ forall q, q <> tmp ->
          files w' !! q = files w !! q /\ (q ∈ synced w' <-> q ∈ synced w))
  \/ (r = Ok tt
      /\ log w' = log w ++ write_protocol p tmp data
      /\ files w' = <[p := data]> (files w)
      /\ p ∈ synced w'
      /\ clock w' = clock w
      /\ (no_faults w -> no_faults w')).
Proof.
  intros E. cbv zeta. unfold _atomic_write, mkdir, tmp_flush in E.
  assert (N0 : no_faults w -> no_faults w) by auto.
  set (tmp := tmp_of p w).
  (* mkdir *)
  unfold bind at 1 in E. rewrite syscall_run in E.
  set (w1 := pop_fault (set_log (log w ++ [EvMkdir (parent p)]) w)) in *.
  assert (F1 : files w1 = files w) by (unfold w1; rewrite files_pop_fault; reflexivity).
  assert (S1 : synced w1 = synced w) by (unfold w1; rewrite synced_pop_fault; reflexivity).
  assert (L1 : log w1 = log w ++ [EvMkdir (parent p)])
    by (unfold w1; rewrite log_pop_fault; reflexivity).
  assert (C1 : clock w1 = clock w) by (unfold w1; rewrite clock_pop_fault; reflexivity).
  assert (N1 : no_faults w -> no_faults w1) by (intros; apply no_faults_pop; assumption).
  clearbody w1.
  destruct (head_fault w) eqn:HF; cbv beta iota in E.
  { injection E as <- <-. left. assert (NF : ~ no_faults w) by (intros Hnf'; rewrite (no_faults_head _ (N0 Hnf')) in HF; discriminate). clear HF. exists 1%nat, OSError. rewrite L1, F1, S1. repeat split; auto; lia. }
  clear HF.
  (* the temporary file *)
  unfold bind at 1 in E. rewrite named_temporary_file_run in E. cbv zeta in E.
  rewrite F1 in E. fold (tmp_of p w) in E. fold tmp in E.
  set (w2 := pop_fault (set_log (log w1 ++ [EvCreate tmp]) w1)) in *.
  assert (F2 : files w2 = files w) by (unfold w2; rewrite files_pop_fault; exact F1).
  assert (S2 : synced w2 = synced w) by (unfold w2; rewrite synced_pop_fault; exact S1).
  assert (L2 : log w2 = log w ++ [EvMkdir (parent p); EvCreate tmp])
    by (unfold w2; rewrite log_pop_fault; cbn [log set_log]; rewrite L1, <- app_assoc; reflexivity).
  assert (C2 : clock w2 = clock w) by (unfold w2; rewrite clock_pop_fault; exact C1).
  assert (N2 : no_faults w -> no_faults w2) by (intros; apply no_faults_pop, N1; assumption).
  clearbody w2.
  destruct (head_fault w1) eqn:HF; cbv beta iota in E.
  { injection E as <- <-. left. assert (NF : ~ no_faults w) by (intros Hnf'; rewrite (no_faults_head _ (N1 Hnf')) in HF; discriminate). clear HF. exists 2%nat, OSError. rewrite L2, F2, S2. repeat split; auto; lia. }
  clear HF.
  (* write *)
  unfold bind at 1 in E. rewrite tmp_write_run in E. cbv zeta in E.
  match type of E with context [pop_fault ?x] =>
    match x with set_log (_ ++ [EvWrite _ _]) ?y =>
      set (w3 := pop_fault x) in *; set (w2' := y) in * end end.
  assert (F3 : files w3 = <[tmp := []]> (files w))
    by (unfold w3; rewrite files_pop_fault; cbn; rewrite F2; reflexivity).
  assert (S3 : synced w3 = synced w ∖ {[tmp]})
    by (unfold w3; rewrite synced_pop_fault; cbn; rewrite S2; reflexivity).
  assert (L3 : log w3 = log w ++ [EvMkdir (parent p); EvCreate tmp; EvWrite tmp data])
    by (unfold w3; rewrite log_pop_fault; cbn; rewrite L2, <- app_assoc; reflexivity).
  assert (C3 : clock w3 = clock w) by (unfold w3; rewrite clock_pop_fault; exact C2).
  assert (N3 : no_faults w -> no_faults w3) by (intros; apply no_faults_pop, N2; assumption).
  assert (N2' : no_faults w -> no_faults w2') by (intros H; exact (N2 H)).
  clearbody w3 w2'.
  assert (Hother : forall q b, q <> tmp ->
            <[tmp := b]> (files w3) !! q = files w !! q
            /\ (q ∈ synced w3 ∖ {[tmp]} <-> q ∈ synced w)).
  { intros q b Hq. rewrite F3, S3, !lookup_insert_ne by congruence.
    split; [ reflexivity | set_solver ]. }
  destruct (head_fault w2') eqn:HF; cbv beta iota in E.
  { injection E as <- <-. left. assert (NF : ~ no_faults w) by (intros Hnf'; rewrite (no_faults_head _ (N2' Hnf')) in HF; discriminate). clear HF. exists 3%nat, OSError.
    autorewrite with world. rewrite L3.
    repeat split; try lia; try exact NF; apply Hother; auto. }
  clear HF.
  (* flush *)
  unfold bind at 1 in E. rewrite syscall_run in E.
  match type of E with context [pop_fault ?x] =>
    match x with set_log (_ ++ [EvFlush _]) ?y =>
      set (w4 := pop_fault x) in *; set (w3' := y) in * end end.
  assert (F4 : files w4 = <[tmp := data]> (files w3))
    by (unfold w4; rewrite files_pop_fault; reflexivity).
  assert (S4 : synced w4 = synced w3 ∖ {[tmp]})
    by (unfold w4; rewrite synced_pop_fault; reflexivity).
  assert (L4 : log w4 = log w ++ [EvMkdir (parent p); EvCreate tmp; EvWrite tmp data; EvFlush tmp])
    by (unfold w4; rewrite log_pop_fault; cbn; rewrite L3, <- app_assoc; reflexivity).
  assert (C4 : clock w4 = clock w) by (unfold w4; rewrite clock_pop_fault; exact C3).
  assert (N4 : no_faults w -> no_faults w4) by (intros; apply no_faults_pop, N3; assumption).
  assert (N3' : no_faults w -> no_faults w3') by (intros H; exact (N3 H)).
  clearbody w4 w3'.
  destruct (head_fault w3') eqn:HF; cbv beta iota in E.
  { injection E as <- <-. left. assert (NF : ~ no_faults w) by (intros Hnf'; rewrite (no_faults_head _ (N3' Hnf')) in HF; discriminate). clear HF. exists 4%nat, OSError. rewrite L4, F4, S4.
    repeat split; try lia; try exact NF; apply Hother; auto. }
  clear HF.
  (* fsync *)
  unfold bind at 1 in E. rewrite os_fsync_run in E. cbv zeta in E.
  set (w5 := pop_fault (set_log (log w4 ++ [EvFsync tmp]) w4)) in *.
  assert (F5 : files w5 = <[tmp := data]> (files w3))
    by (unfold w5; rewrite files_pop_fault; exact F4).
  assert (S5 : synced w5 = synced w3 ∖ {[tmp]})
    by (unfold w5; rewrite synced_pop_fault; exact S4).
  assert (L5 : log w5 = log w ++ [EvMkdir (parent p); EvCreate tmp; EvWrite tmp data; EvFlush tmp;
                                  EvFsync tmp])
    by (unfold w5; rewrite log_pop_fault; cbn; rewrite L4, <- app_assoc; reflexivity).
  assert (C5 : clock w5 = clock w) by (unfold w5; rewrite clock_pop_fault; exact C4).
  assert (N5 : no_faults w -> no_faults w5) by (intros; apply no_faults_pop, N4; assumption).
  clearbody w5.
  destruct (head_fault w4) eqn:HF; cbv beta iota in E.
  { injection E as <- <-. left. assert (NF : ~ no_faults w) by (intros Hnf'; rewrite (no_faults_head _ (N4 Hnf')) in HF; discriminate). clear HF. exists 5%nat, OSError. rewrite L5, F5, S5.
    repeat split; try lia; try exact NF; apply Hother; auto. }
  clear HF.
  (* replace *)
  rewrite os_replace_run in E. cbv zeta in E.
  match type of E with context [pop_fault ?x] =>
    match x with set_log (_ ++ [EvReplace _ _]) ?y =>
      set (w6 := pop_fault x) in *; set (w5' := y) in * end end.
  assert (F6 : files w6 = <[tmp := data]> (files w3))
    by (unfold w6; rewrite files_pop_fault; exact F5).
  assert (S6 : synced w6 = {[tmp]} ∪ synced w5)
    by (unfold w6; rewrite synced_pop_fault; reflexivity).
  assert (L6 : log w6 = log w ++ write_protocol p tmp data)
    by (unfold w6; rewrite log_pop_fault; cbn; rewrite L5, <- app_assoc; reflexivity).
  assert (C6 : clock w6 = clock w) by (unfold w6; rewrite clock_pop_fault; exact C5).
  assert (N6 : no_faults w -> no_faults w6) by (intros; apply no_faults_pop, N5; assumption).
  assert (N5' : no_faults w -> no_faults w5') by (intros H; exact (N5 H)).
  clearbody w6 w5'.
  destruct (head_fault w5') eqn:HF; cbv beta iota in E.
  { injection E as <- <-. left. assert (NF : ~ no_faults w) by (intros Hnf'; rewrite (no_faults_head _ (N5' Hnf')) in HF; discriminate). clear HF. exists 6%nat, OSError. rewrite L6, F6, S6, S5.
    repeat split; try lia; try exact NF; try (apply Hother; auto).
    - intros Hq. destruct (Hother q data H) as [_ Hs]. apply Hs. set_solver.
    - intros Hq. destruct (Hother q data H) as [_ Hs]. apply Hs in Hq. set_solver. }
  clear HF.
  rewrite F6, lookup_insert_eq in E. injection E as <- <-. right.
  autorewrite with world.
  rewrite bool_decide_eq_true_2 by (rewrite S6; set_solver).
  split; [ reflexivity | ]. split; [ exact L6 | ].
  split; [ | split; [ set_solver | split; [ exact C6 | exact N6 ] ] ].
  rewrite F3, delete_insert_eq, delete_insert_eq, delete_id; [ reflexivity | ].
  apply tmp_fresh.
Qed.


(** C8. One [_atomic_write] makes the calls of the protocol in order
    (create a temporary file in the directory of the final path, write,
    flush, fsync, then one replace) and stops at the first that fails.
    However it ends, and whatever a crash then leaves of the unsynced
    files, the final path holds what it held before or the whole data. *)
Theorem atomic_write_all_or_nothing p data w :
  temporary_name (file_name p) = false ->
  files w !! p = None \/ p ∈ synced w ->
  let run := _atomic_write p data w in
  let tmp := tmp_of p w in
  parent tmp = parent p /\ tmp <> p /\ files w !! tmp = None
  /\ (exists evs, log (snd run) = log w ++ evs
        /\ evs `prefix_of` write_protocol p tmp data
        /\ (fst run = Ok tt -> evs = write_protocol p tmp data))
  /\ (fst run = Ok tt -> files (snd run) !! p = Some data)
  /\ (files (snd run) !! p = files w !! p \/ files (snd run) !! p = Some data)
  /\ (forall fs, crash_view (snd run) fs -> fs !! p = files w !! p \/ fs !! p = Some data).
Proof.
  intros Hname Hold. cbv zeta.
  assert (Hne : tmp_of p w <> p) by (apply tmp_other, Hname).
  split; [ apply tmp_parent | ]. split; [ exact Hne | ]. split; [ apply tmp_fresh | ].
  destruct (_atomic_write p data w) as [r w'] eqn:E. cbn [fst snd].
  apply atomic_write_cases in E
    as [(k & e & Hk & -> & NF & HL & Hq) | (-> & HL & HF & HS & HC & HN)].
  - destruct (Hq p (not_eq_sym Hne)) as [Hfp Hsp].
    split; [ | split; [ discriminate | split; [ left; exact Hfp | ] ] ].
    + exists (take k (write_protocol p (tmp_of p w) data)).
      split; [ exact HL | ]. split; [ | discriminate ].
      exists (drop k (write_protocol p (tmp_of p w) data)). symmetry. apply take_drop.
    + intros fs Hfs. specialize (Hfs p). rewrite <- Hfp. case_bool_decide as Hin.
      * left. exact Hfs.
      * destruct Hold as [Hnone | Hsync]; [ | apply Hsp in Hsync; contradiction ].
        left. rewrite Hfp, Hnone in *. destruct Hfs as [ | (b & n & Hb & _) ]; congruence.
  - assert (Hp : files w' !! p = Some data) by (rewrite HF; apply lookup_insert_eq).
    split; [ | split; [ intros _; exact Hp | split; [ right; exact Hp | ] ] ].
    + exists (write_protocol p (tmp_of p w) data). repeat split; auto.
    + intros fs Hfs. specialize (Hfs p). rewrite bool_decide_eq_true_2 in Hfs by exact HS.
      right. congruence.
Qed.

(** *** The order of strings *)

Lemma str_ltb_irrefl a : str_ltb a a = false.
Proof. induction a as [ | x a IH ]; simpl; [ reflexivity | ]. rewrite Z.ltb_irrefl. exact IH. Qed.

Lemma str_ltb_trans a b c : str_ltb a b = true -> str_ltb b c = true -> str_ltb a c = true.
Proof.
  revert b c. induction a as [ | x a IH ]; intros [ | y b ] [ | z c ]; simpl; try congruence.
  destruct (x <? y) eqn:Exy, (y <? x) eqn:Eyx, (y <? z) eqn:Eyz, (z <? y) eqn:Ezy,
    (x <? z) eqn:Exz, (z <? x) eqn:Ezx; try congruence; try lia.
  apply IH.
Qed.

Lemma str_ltb_total a b : str_ltb a b = false -> a <> b -> str_ltb b a = true.
Proof.
  revert b. induction a as [ | x a IH ]; intros [ | y b ]; simpl; try congruence.
  destruct (x <? y) eqn:Exy, (y <? x) eqn:Eyx; try congruence; try lia.
  intros H Hne. apply IH; [ exact H | ]. assert (x = y) by lia. congruence.
Qed.

Lemma str_ltb_asym a b : str_ltb a b = true -> str_ltb b a = true -> False.
Proof. intros H1 H2. pose proof (str_ltb_trans _ _ _ H1 H2) as H. rewrite str_ltb_irrefl in H. discriminate. Qed.

Lemma str_eqb_eq a b : str_eqb a b = true <-> a = b.
Proof. unfold str_eqb. apply bool_decide_eq_true. Qed.

(** *** Sorting puts distinct keys in one order *)

Lemma insert_item_sorted {A} (x : list Z * A) l :
  StronglySorted key_lt l -> fst x ∉ List.map fst l -> StronglySorted key_lt (insert_item x l).
Proof.
  induction 1 as [ | y l Hl IH Hy ]; intros Hx; simpl.
  - repeat constructor.
  - assert (Hxy : fst x <> fst y) by (intros E; apply Hx; rewrite E; left).
    assert (Hxl : fst x ∉ List.map fst l) by (intros E; apply Hx; right; exact E).
    destruct (str_ltb (fst y) (fst x)) eqn:Hlt.
    + constructor; [ apply IH, Hxl | ].
      apply Forall_forall. intros z Hz.
      apply list_elem_of_In in Hz. apply (Permutation_in _ (insert_item_perm x l)) in Hz.
      destruct Hz as [ <- | Hz ]; [ exact Hlt | ].
      rewrite Forall_forall in Hy. apply Hy, list_elem_of_In, Hz.
    + assert (Hlt' : key_lt x y) by (apply str_ltb_total; auto).
      constructor; [ constructor; assumption | ].
      constructor; [ exact Hlt' | ].
      eapply Forall_impl; [ exact Hy | ]. intros z Hz. eapply str_ltb_trans; eassumption.
Qed.

Lemma sort_items_sorted {A} (l : list (list Z * A)) :
  NoDup (List.map fst l) -> StronglySorted key_lt (sort_items l).
Proof.
  induction l as [ | x l IH ]; simpl; intros Hnd; [ constructor | ].
  apply NoDup_cons in Hnd as [Hx Hnd].
  apply insert_item_sorted; [ apply IH, Hnd | ].
  intros Hin. apply Hx. apply list_elem_of_In. apply list_elem_of_In in Hin.
  eapply Permutation_in; [ | exact Hin ]. apply Permutation_map, sort_items_perm.
Qed.

Lemma sort_items_unique {A} (l1 l2 : list (list Z * A)) :
  NoDup (List.map fst l1) -> Permutation l1 l2 -> sort_items l1 = sort_items l2.
Proof.
  intros Hnd Hp.
  apply (StronglySorted_unique_strong key_lt).
  - intros x1 x2 _ _ H1 H2. destruct (str_ltb_asym _ _ H1 H2).
  - apply sort_items_sorted, Hnd.
  - apply sort_items_sorted.
    assert (Hm : Permutation (List.map fst l1) (List.map fst l2)) by (apply Permutation_map, Hp).
    rewrite <- Hm. exact Hnd.
  - rewrite !sort_items_perm. exact Hp.
Qed.

(** *** Well-formed values *)

Lemma wf_dict d :
  wf_value (VDict d) = true ->
  NoDup (List.map fst d) /\ Forall (fun kv => wf_value (snd kv) = true) d.
Proof.
  cbn [wf_value]. intros H. apply andb_prop in H as [H1 H2].
  split; [ apply bool_decide_eq_true in H1; exact H1 | ].
  apply Forall_forall. intros kv Hkv. rewrite forallb_forall in H2.
  apply H2, list_elem_of_In, Hkv.
Qed.

Lemma wf_list l : wf_value (VList l) = true -> Forall (fun v => wf_value v = true) l.
Proof.
  cbn [wf_value]. intros H. apply Forall_forall. intros v Hv.
  rewrite forallb_forall in H. apply H, list_elem_of_In, Hv.
Qed.

Lemma dict_get_in {A} (d : list (list Z * A)) k v : dict_get d k = Some v -> (k, v) ∈ d.
Proof.
  induction d as [ | [k' v'] d IH ]; simpl; [ discriminate | ].
  destruct (str_eqb k' k) eqn:E.
  - apply str_eqb_eq in E. intros [= ->]. subst. left.
  - intros H. right. apply IH, H.
Qed.


(** *** Same contents, same text *)

Lemma dumps_same_contents a :
  forall b, wf_value a = true -> wf_value b = true -> same_contents a b = true ->
            dumps a = dumps b.
Proof.
  induction a as [ | x | x | x | x | l IH | d IH | x ] using value_rect';
    intros [ | y | y | y | y | l' | d' | y ] Hwa Hwb Hs; simpl in Hs; try discriminate.
  - reflexivity.
  - apply eqb_prop in Hs. subst. reflexivity.
  - apply Z.eqb_eq in Hs. subst. reflexivity.
  - apply bool_decide_eq_true in Hs. subst. reflexivity.
  - apply str_eqb_eq in Hs. subst. reflexivity.
  - cbn [dumps]. do 3 f_equal.
    apply wf_list in Hwa, Hwb. revert l' Hwb Hs.
    induction IH as [ | x l Hx Hl IHl ]; intros [ | y l' ] Hwb Hs; try discriminate; [ reflexivity | ].
    apply andb_prop in Hs as [Hs1 Hs2].
    apply Forall_cons in Hwa as [Hwx Hwl]. apply Forall_cons in Hwb as [Hwy Hwl'].
    simpl. f_equal; [ apply Hx; assumption | apply IHl; assumption ].
  - apply andb_prop in Hs as [Hlen Hall]. apply Nat.eqb_eq in Hlen.
    apply wf_dict in Hwa as [Hnd Hwd]. apply wf_dict in Hwb as [Hnd' Hwd'].
    cbn [dumps]. do 4 f_equal.
    set (enc := fun kv : list Z * value => (fst kv, dumps (snd kv))).
    apply sort_items_unique.
    { rewrite List.map_map. exact Hnd. }
    apply submseteq_length_Permutation; [ | rewrite !length_map; lia ].
    apply NoDup_submseteq.
    { apply (NoDup_fmap_1 fst). change (NoDup (List.map fst (List.map enc d))).
      rewrite List.map_map. exact Hnd. }
    intros e He. apply list_elem_of_In, in_map_iff in He as ([k v] & <- & Hkv).
    rewrite forallb_forall in Hall. specialize (Hall _ Hkv). cbn [fst snd] in Hall.
    destruct (dict_get d' k) as [ y | ] eqn:Hget; [ | discriminate ].
    apply dict_get_in in Hget.
    rewrite Forall_forall in IH, Hwd, Hwd'.
    apply list_elem_of_In in Hkv.
    pose proof (IH _ Hkv y (Hwd _ Hkv) (Hwd' _ Hget) Hall) as Hd. cbn [snd] in Hd.
    apply list_elem_of_In, in_map_iff. exists (k, y). unfold enc. cbn [fst snd].
    rewrite Hd. split; [ reflexivity | ].
    apply list_elem_of_In, Hget.
  - apply str_eqb_eq in Hs. subst. reflexivity.
Qed.

(** *** The digest *)

Lemma hex_digit_is_hex x : is_hex (hex_digit (x mod 16)) = true.
Proof.
  unfold is_hex, hex_digit. pose proof (Z.mod_pos_bound x 16 ltac:(lia)).
  destruct (x mod 16 <? 10) eqn:E; lia.
Qed.

Lemma hex8_is_hex w : forallb is_hex (hex8 w) = true.
Proof. unfold hex8. cbn [forallb]. rewrite !hex_digit_is_hex. reflexivity. Qed.

Lemma hexdigest_length st : length (hexdigest st) = 40%nat.
Proof. destruct st as [[[[a b] c] d] e]. reflexivity. Qed.

Lemma hexdigest_is_hex st : forallb is_hex (hexdigest st) = true.
Proof.
  destruct st as [[[[a b] c] d] e]. unfold hexdigest.
  rewrite !forallb_app, !hex8_is_hex. reflexivity.
Qed.

(** C1. Payloads with the same contents, whatever the order of their
    keys, have the same canonical text, and with equal endpoint and version
    the same key: forty hexadecimal digits. *)
Theorem key_derivation_is_order_independent endpoint version payload1 payload2 :
  wf_value payload1 = true ->
  wf_value payload2 = true ->
  same_contents payload1 payload2 = true ->
  _stable_json_dumps payload1 = _stable_json_dumps payload2
  /\ exists key,
       _hash_key endpoint payload1 version = Ok key
       /\ _hash_key endpoint payload2 version = Ok key
       /\ length key = 40%nat
       /\ forallb is_hex key = true.
Proof.
  intros Hw1 Hw2 Hs.
  pose proof (dumps_same_contents payload1 payload2 Hw1 Hw2 Hs) as Hd.
  split; [ exact Hd | ].
  exists (cache_key endpoint payload1 version).
  rewrite !hash_key_ok. fold (cache_key endpoint payload1 version).
  split; [ reflexivity | ]. split.
  - f_equal. unfold cache_key. do 2 f_equal. cbn [dumps List.map fst snd]. rewrite Hd. reflexivity.
  - split; [ apply hexdigest_length | apply hexdigest_is_hex ].
Qed.

(** *** Numbers, written and read back *)

Lemma chars_uint_chars d : chars_uint (uint_chars d) = d.
Proof. induction d as [ | d IH | d IH | d IH | d IH | d IH | d IH | d IH | d IH | d IH | d IH ]; simpl; [ reflexivity | rewrite IH; reflexivity .. ]. Qed.

Lemma uint_chars_digits d : Forall (fun c => is_digit c = true) (uint_chars d).
Proof. induction d; simpl; constructor; auto. Qed.

Lemma delim_not_digit rest :
  delim rest ->
  match rest with
  | [] => True
  | c :: _ => is_digit c = false /\ c <> 46 /\ c <> 101 /\ c <> 69
  end.
Proof. destruct rest as [ | c r ]; [ auto | ]. unfold delim, is_digit. intros [-> | [-> | ->]]; repeat split; lia. Qed.

Lemma span_digits_app ds rest :
  Forall (fun c => is_digit c = true) ds -> delim rest -> span_digits (ds ++ rest) = (ds, rest).
Proof.
  intros Hds Hr. induction Hds as [ | c ds Hc Hds IH ]; simpl.
  - apply delim_not_digit in Hr. destruct rest as [ | c r ]; [ reflexivity | ].
    simpl. destruct Hr as [-> _]. reflexivity.
  - rewrite Hc, IH. reflexivity.
Qed.

Lemma match_frac_delim rest : delim rest -> match_frac rest = ([], rest).
Proof.
  intros Hr. apply delim_not_digit in Hr. destruct rest as [ | c r ]; [ reflexivity | ].
  unfold match_frac. destruct Hr as (_ & Hdot & _). rewrite (proj2 (Z.eqb_neq c 46) Hdot). reflexivity.
Qed.

Lemma match_exp_delim rest : delim rest -> match_exp rest = (None, rest).
Proof.
  intros Hr. apply delim_not_digit in Hr. destruct rest as [ | c r ]; [ reflexivity | ].
  unfold match_exp. destruct Hr as (_ & _ & He & HE).
  rewrite (proj2 (Z.eqb_neq c 101) He), (proj2 (Z.eqb_neq c 69) HE). reflexivity.
Qed.

Lemma digits_val_nat_repr n : digits_val (nat_repr n) = Z.of_N n.
Proof. unfold digits_val, nat_repr. rewrite chars_uint_chars, DecimalN.Unsigned.of_to. reflexivity. Qed.

(** The digits of a number start with 0 only for 0. *)
Lemma nzhead_head d : match Decimal.nzhead d with Decimal.D0 _ => False | _ => True end.
Proof. induction d; simpl; auto. Qed.

Lemma nat_repr_head n :
  nat_repr n = [48] \/ exists c r, nat_repr n = c :: r /\ is_digit c = true /\ c <> 48.
Proof.
  unfold nat_repr.
  assert (E : N.to_uint n = Decimal.unorm (N.to_uint n)).
  { rewrite <- DecimalN.Unsigned.to_of, DecimalN.Unsigned.of_to. reflexivity. }
  rewrite E. unfold Decimal.unorm. pose proof (nzhead_head (N.to_uint n)) as H.
  destruct (Decimal.nzhead (N.to_uint n)); simpl; try contradiction;
    try (left; reflexivity); right; eexists _, _; repeat split; lia.
Qed.

Lemma int_body_loads neg n rest :
  delim rest ->
  number_body neg (nat_repr n ++ rest)
  = Some (VInt (if neg then - Z.of_N n else Z.of_N n), rest).
Proof.
  intros Hr. unfold number_body.
  pose proof (digits_val_nat_repr n) as Hv.
  destruct (nat_repr_head n) as [E | (c & r & E & Hc & Hc0)].
  - rewrite E in *. simpl.
    rewrite match_frac_delim, match_exp_delim by assumption. rewrite Hv. reflexivity.
  - pose proof (uint_chars_digits (N.to_uint n)) as Hd. fold (nat_repr n) in Hd.
    pose proof (span_digits_app _ rest Hd Hr) as Hsp.
    rewrite E in *. cbn [app] in *. rewrite Hc, (proj2 (Z.eqb_neq c 48) Hc0), Hsp.
    rewrite match_frac_delim, match_exp_delim by assumption. rewrite Hv. reflexivity.
Qed.

Lemma int_repr_loads n rest :
  delim rest -> match_number (int_repr n ++ rest) = Some (VInt n, rest).
Proof.
  intros Hr. unfold int_repr, match_number.
  destruct (Z.ltb_spec n 0) as [Hneg | Hpos].
  - cbn [app]. change (45 =? 45) with true. cbv iota.
    rewrite int_body_loads by assumption. do 3 f_equal. rewrite N2Z.inj_abs_N. lia.
  - pose proof (int_body_loads false (Z.abs_N n) rest Hr) as Hb.
    destruct (nat_repr_head (Z.abs_N n)) as [E | (c & r & E & Hc & Hc0)].
    + rewrite E in *. cbn [app] in *. change (48 =? 45) with false. cbv iota. rewrite Hb.
      do 3 f_equal. rewrite N2Z.inj_abs_N. lia.
    + rewrite E in *. cbn [app] in *.
      assert (c <> 45) by (unfold is_digit in Hc; lia).
      rewrite (proj2 (Z.eqb_neq c 45) H). rewrite Hb.
      do 3 f_equal. rewrite N2Z.inj_abs_N. lia.
Qed.

Lemma span_digits_stop ds rest :
  Forall (fun c => is_digit c = true) ds ->
  match rest with [] => True | c :: _ => is_digit c = false end ->
  span_digits (ds ++ rest) = (ds, rest).
Proof.
  intros Hds Hr. induction Hds as [ | c ds Hc Hds IH ]; simpl.
  - destruct rest as [ | c r ]; [ reflexivity | ]. simpl. rewrite Hr. reflexivity.
  - rewrite Hc, IH. reflexivity.
Qed.

Lemma delim_stop rest : delim rest -> match rest with [] => True | c :: _ => is_digit c = false end.
Proof. intros H. apply delim_not_digit in H. destruct rest; [ auto | apply H ]. Qed.

Lemma digits_val_zeros j ds : digits_val (replicate j 48 ++ ds) = digits_val ds.
Proof. induction j as [ | j IH ]; [ reflexivity | ]. exact IH. Qed.

Lemma float_body_loads neg (m : N) k rest :
  delim rest ->
  let d0 := nat_repr m in
  let ds := replicate (S (S k) - length d0) 48 ++ d0 in
  number_body neg (take (length ds - S k) ds ++ [46] ++ drop (length ds - S k) ds ++ rest)
  = Some (VFloat (FFin (if neg then - Z.of_N m else Z.of_N m) k), rest).
Proof.
  intros Hr d0 ds.
  assert (Hdig : Forall (fun c => is_digit c = true) ds).
  { apply Forall_app_2; [ apply Forall_replicate; reflexivity | apply uint_chars_digits ]. }
  assert (Hlen : (S (S k) <= length ds)%nat).
  { unfold ds. rewrite length_app, length_replicate. lia. }
  set (ip := take (length ds - S k) ds). set (fp := drop (length ds - S k) ds).
  assert (Hds : ip ++ fp = ds) by apply take_drop.
  assert (Hfp : length fp = S k) by (unfold fp; rewrite length_drop; lia).
  assert (Hip : (1 <= length ip)%nat) by (unfold ip; rewrite length_take; lia).
  assert (Hdip : Forall (fun c => is_digit c = true) ip) by (apply Forall_take, Hdig).
  assert (Hdfp : Forall (fun c => is_digit c = true) fp) by (apply Forall_drop, Hdig).
  assert (Hval : digits_val (ip ++ fp) = Z.of_N m).
  { rewrite Hds. unfold ds. rewrite digits_val_zeros. apply digits_val_nat_repr. }
  assert (Hfrac : match_frac ([46] ++ fp ++ rest) = (fp, rest)).
  { unfold match_frac. cbn [app]. change (46 =? 46) with true. cbv iota.
    rewrite (span_digits_stop fp rest Hdfp (delim_stop rest Hr)).
    destruct fp; [ discriminate | reflexivity ]. }
  assert (Hmk : mk_float neg ip fp 0 = FFin (if neg then - Z.of_N m else Z.of_N m) k).
  { unfold mk_float. rewrite Hval, Hfp.
    destruct (Z.ltb_spec (0 - Z.of_nat (S k)) 0) as [ _ | Hge ]; [ | lia ].
    f_equal. lia. }
  assert (Hcase : ip = [48] \/ exists c r, ip = c :: r /\ c <> 48).
  { destruct (decide (length d0 < S (S k))%nat) as [Hlt | Hge].
    - left. unfold ip, ds. rewrite length_app, length_replicate.
      replace (S (S k) - length d0 + length d0 - S k)%nat with 1%nat by lia.
      destruct (S (S k) - length d0)%nat eqn:E; [ lia | reflexivity ].
    - right. unfold ip, ds. replace (S (S k) - length d0)%nat with 0%nat by lia. cbn [replicate app].
      unfold d0 in *. destruct (nat_repr_head m) as [E | (c & r & E & Hc & Hc0)].
      + rewrite E in Hge. simpl in Hge. lia.
      + rewrite E. rewrite E in Hge. simpl in Hge.
        destruct (length (c :: r) - S k)%nat eqn:E'; [ simpl in E'; lia | ].
        exists c, (take n r). split; [ reflexivity | exact Hc0 ]. }
  unfold number_body.
  destruct Hcase as [E | (c & r & E & Hc0)].
  - rewrite E in *. cbn [app]. change (is_digit 48) with true. change (48 =? 48) with true. cbv iota.
    change (46 :: fp ++ rest) with ([46] ++ fp ++ rest). rewrite Hfrac, match_exp_delim by assumption.
    destruct fp as [ | f0 fp' ]; [ discriminate | ]. rewrite <- Hmk. reflexivity.
  - assert (Hc : is_digit c = true) by (rewrite E in Hdip; apply Forall_inv in Hdip; exact Hdip).
    assert (Hsp : span_digits (ip ++ [46] ++ fp ++ rest) = (ip, [46] ++ fp ++ rest)).
    { apply span_digits_stop; [ exact Hdip | reflexivity ]. }
    rewrite E in Hsp |- *. cbn [app] in Hsp |- *. rewrite Hc, (proj2 (Z.eqb_neq c 48) Hc0), Hsp.
    change (46 :: fp ++ rest) with ([46] ++ fp ++ rest). rewrite Hfrac, match_exp_delim by assumption.
    rewrite <- E in *.
    destruct fp as [ | f0 fp' ]; [ discriminate | ]. rewrite <- Hmk. reflexivity.
Qed.

Lemma float_repr_loads m k rest :
  delim rest -> match_number (float_repr (FFin m k) ++ rest) = Some (VFloat (FFin m k), rest).
Proof.
  intros Hr. unfold float_repr.
  pose proof (float_body_loads (m <? 0) (Z.abs_N m) k rest Hr) as Hb. cbv zeta in Hb.
  set (ds := replicate (S (S k) - length (nat_repr (Z.abs_N m))) 48 ++ nat_repr (Z.abs_N m)) in *.
  assert (Hm : (if m <? 0 then - Z.of_N (Z.abs_N m) else Z.of_N (Z.abs_N m)) = m).
  { rewrite N2Z.inj_abs_N. destruct (Z.ltb_spec m 0); lia. }
  rewrite Hm in Hb. rewrite <- !app_assoc.
  unfold match_number. destruct (m <? 0).
  - cbn [app]. change (45 =? 45) with true. cbv iota. exact Hb.
  - cbn [app].
    assert (Hdig : Forall (fun c => is_digit c = true) (take (length ds - S k) ds)).
    { apply Forall_take, Forall_app_2; [ apply Forall_replicate; reflexivity | apply uint_chars_digits ]. }
    assert (Hlen : (1 <= length (take (length ds - S k) ds))%nat).
    { rewrite length_take. unfold ds. rewrite length_app, length_replicate. lia. }
    destruct (take (length ds - S k) ds) as [ | c r ] eqn:E; [ simpl in Hlen; lia | ].
    cbn [app] in *. apply Forall_inv in Hdig.
    assert (c <> 45) by (unfold is_digit in Hdig; lia).
    rewrite (proj2 (Z.eqb_neq c 45) H). exact Hb.
Qed.

(** *** Strings, written and read back *)

Lemma hex_val_hex_digit x : 0 <= x < 16 -> hex_val (hex_digit x) = Some x.
Proof.
  intros Hx. unfold hex_val, hex_digit, is_digit.
  destruct (Z.ltb_spec x 10).
  - replace ((48 <=? 48 + x) && (48 + x <=? 57)) with true by lia. f_equal. lia.
  - replace ((48 <=? 87 + x) && (87 + x <=? 57)) with false by lia.
    replace ((97 <=? 87 + x) && (87 + x <=? 102)) with true by lia. f_equal. lia.
Qed.

Lemma decode_hex4 n : 0 <= n < 65536 -> decode_uXXXX (hex4 n) = Some (n, []).
Proof.
  intros Hn. unfold hex4, decode_uXXXX.
  rewrite !hex_val_hex_digit by (apply Z.mod_pos_bound; lia).
  do 2 f_equal. 
  pose proof (Z.div_mod n 16 ltac:(lia)). pose proof (Z.mod_pos_bound n 16 ltac:(lia)).
  pose proof (Z.div_mod (n / 16) 16 ltac:(lia)). pose proof (Z.mod_pos_bound (n / 16) 16 ltac:(lia)).
  pose proof (Z.div_mod (n / 256) 16 ltac:(lia)). pose proof (Z.mod_pos_bound (n / 256) 16 ltac:(lia)).
  assert (n / 256 = n / 16 / 16) by (rewrite Z.div_div by lia; reflexivity).
  assert (n / 4096 = n / 256 / 16) by (rewrite Z.div_div by lia; reflexivity).
  assert (n / 4096 mod 16 = n / 4096).
  { apply Z.mod_small. split; [ apply Z.div_pos; lia | apply Z.div_lt_upper_bound; lia ]. }
  lia.
Qed.

Lemma land_shifted_low a b n : 0 <= n -> 0 <= b < 2 ^ n -> Z.land (a * 2 ^ n) b = 0.
Proof.
  intros Hn Hb. apply Z.bits_inj'. intros i Hi. rewrite Z.land_spec, Z.bits_0.
  destruct (Z.lt_ge_cases i n) as [Hlt | Hge].
  - rewrite Z.mul_pow2_bits_low by lia. reflexivity.
  - destruct (Z.eq_dec b 0) as [-> | Hb0]; [ rewrite Z.bits_0; apply andb_false_r | ].
    rewrite (Z.bits_above_log2 b i); [ apply andb_false_r | lia | ].
    apply Z.log2_lt_pow2; [ lia | ].
    apply Z.lt_le_trans with (2 ^ n); [ lia | apply Z.pow_le_mono_r; lia ].
Qed.

Lemma lor_shifted_low a b n : 0 <= n -> 0 <= b < 2 ^ n -> Z.lor (a * 2 ^ n) b = a * 2 ^ n + b.
Proof.
  intros Hn Hb. rewrite <- (Zbitwise.Z.add_lor_land (a * 2 ^ n) b), land_shifted_low by assumption. lia.
Qed.

(** The surrogate pair of a code point beyond the basic plane, and back. *)
Lemma surrogates c :
  65536 <= c <= 1114111 ->
  let n := c - 65536 in
  let hi := Z.lor 55296 (Z.land (Z.shiftr n 10) 1023) in
  let lo := Z.lor 56320 (Z.land n 1023) in
  is_high hi = true /\ is_low lo = true /\ 0 <= hi < 65536 /\ 0 <= lo < 65536
  /\ 65536 + Z.lor (Z.shiftl (hi - 55296) 10) (lo - 56320) = c.
Proof.
  intros Hc n hi lo.
  assert (Hn : 0 <= n < 1048576) by (unfold n; lia).
  assert (Hq : 0 <= n / 1024 < 1024).
  { split; [ apply Z.div_pos; lia | apply Z.div_lt_upper_bound; lia ]. }
  pose proof (Z.mod_pos_bound n 1024 ltac:(lia)) as Hr.
  assert (Hhi : hi = 55296 + n / 1024).
  { unfold hi. change 1023 with (Z.ones 10). rewrite Z.land_ones, Z.shiftr_div_pow2 by lia.
    change (2 ^ 10) with 1024. rewrite (Z.mod_small (n / 1024) 1024) by lia.
    change 55296 with (54 * 2 ^ 10). rewrite lor_shifted_low; [ reflexivity | lia | ].
    change (2 ^ 10) with 1024. lia. }
  assert (Hlo : lo = 56320 + n mod 1024).
  { unfold lo. change 1023 with (Z.ones 10). rewrite Z.land_ones by lia.
    change (2 ^ 10) with 1024.
    change 56320 with (55 * 2 ^ 10). rewrite lor_shifted_low; [ reflexivity | lia | ].
    change (2 ^ 10) with 1024. lia. }
  unfold is_high, is_low. rewrite Hhi, Hlo.
  repeat split; try lia.
  replace (55296 + n / 1024 - 55296) with (n / 1024) by lia.
  replace (56320 + n mod 1024 - 56320) with (n mod 1024) by lia.
  rewrite Z.shiftl_mul_pow2 by lia. rewrite lor_shifted_low by (change (2 ^ 10) with 1024; lia).
  change (2 ^ 10) with 1024. pose proof (Z.div_mod n 1024 ltac:(lia)). unfold n in *. lia.
Qed.

Local Arguments decode_uXXXX : simpl never.
Local Arguments is_high : simpl never.
Local Arguments is_low : simpl never.

Lemma scanstring_u_bmp a b c d r uni x :
  decode_uXXXX [a; b; c; d] = Some (uni, x) -> is_high uni = false ->
  scanstring (92 :: 117 :: a :: b :: c :: d :: r) = cons_fst uni (scanstring r).
Proof. intros H1 H2. simpl. rewrite H1, H2. reflexivity. Qed.

Lemma scanstring_u_pair a b c d a2 b2 c2 d2 r hi lo x y :
  decode_uXXXX [a; b; c; d] = Some (hi, x) -> is_high hi = true ->
  decode_uXXXX [a2; b2; c2; d2] = Some (lo, y) -> is_low lo = true ->
  scanstring (92 :: 117 :: a :: b :: c :: d :: 92 :: 117 :: a2 :: b2 :: c2 :: d2 :: r)
  = cons_fst (65536 + Z.lor (Z.shiftl (hi - 55296) 10) (lo - 56320)) (scanstring r).
Proof. intros H1 H2 H3 H4. simpl. rewrite H1, H2. simpl. rewrite H3, H4. reflexivity. Qed.

Lemma scanstring_plain c r :
  32 <= c -> c <> 34 -> c <> 92 -> scanstring (c :: r) = cons_fst c (scanstring r).
Proof.
  intros H1 H2 H3. simpl.
  rewrite (proj2 (Z.eqb_neq c 34) H2), (proj2 (Z.eqb_neq c 92) H3).
  replace ((0 <=? c) && (c <? 32)) with false by lia. reflexivity.
Qed.

Lemma scan_escape_char c tail :
  is_scalar c = true -> scanstring (escape_char c ++ tail) = cons_fst c (scanstring tail).
Proof.
  intros Hc. unfold is_scalar in Hc. unfold escape_char.
  destruct (Z.eqb_spec c 34) as [-> | N34]; [ reflexivity | ].
  destruct (Z.eqb_spec c 92) as [-> | N92]; [ reflexivity | ].
  destruct (Z.eqb_spec c 8) as [-> | N8]; [ reflexivity | ].
  destruct (Z.eqb_spec c 12) as [-> | N12]; [ reflexivity | ].
  destruct (Z.eqb_spec c 10) as [-> | N10]; [ reflexivity | ].
  destruct (Z.eqb_spec c 13) as [-> | N13]; [ reflexivity | ].
  destruct (Z.eqb_spec c 9) as [-> | N9]; [ reflexivity | ].
  destruct ((32 <=? c) && (c <=? 126)) eqn:Hprint.
  { apply scanstring_plain; lia. }
  destruct (Z.ltb_spec c 65536) as [Hbmp | Hastral].
  - unfold u_escape, hex4. cbn [app].
    eapply scanstring_u_bmp; [ apply (decode_hex4 c); lia | unfold is_high; lia ].
  - destruct (surrogates c ltac:(lia)) as (Hhi & Hlo & Rhi & Rlo & Hcomb). cbv zeta in *.
    unfold u_escape, hex4. cbn [app].
    erewrite scanstring_u_pair;
      [ rewrite Hcomb; reflexivity
      | apply (decode_hex4 _ Rhi) | exact Hhi | apply (decode_hex4 _ Rlo) | exact Hlo ].
Qed.

Lemma scanstring_escaped s rest :
  forallb is_scalar s = true ->
  scanstring (flat_map escape_char s ++ [34] ++ rest) = Some (s, rest).
Proof.
  induction s as [ | c s IH ]; intros Hs.
  - reflexivity.
  - cbn [forallb] in Hs. apply andb_prop in Hs as [Hc Hs].
    cbn [flat_map]. rewrite <- app_assoc, (scan_escape_char c _ Hc), (IH Hs). reflexivity.
Qed.

(** The text of a string starts with its quote. *)
Lemma encode_string_loads s rest :
  forallb is_scalar s = true ->
  exists body, encode_basestring_ascii s ++ rest = 34 :: body
               /\ scanstring body = Some (s, rest).
Proof.
  intros Hs. exists (flat_map escape_char s ++ [34] ++ rest). split.
  - unfold encode_basestring_ascii. rewrite <- !app_assoc. reflexivity.
  - apply scanstring_escaped, Hs.
Qed.

(** *** The first character of a text *)

Lemma starts_value_app s rest : starts_value s -> starts_value (s ++ rest).
Proof. intros (c & r & -> & H). exists c, (r ++ rest). split; [ reflexivity | exact H ]. Qed.

Lemma starts_digit c r : is_digit c = true \/ c = 45 -> starts_value (c :: r).
Proof. intros H. exists c, r. unfold is_digit, is_ws in *. repeat split; lia. Qed.

Lemma int_repr_head n : exists c r, int_repr n = c :: r /\ (is_digit c = true \/ c = 45).
Proof.
  unfold int_repr. destruct (n <? 0); [ eexists _, _; split; [ reflexivity | right; reflexivity ] | ].
  destruct (nat_repr_head (Z.abs_N n)) as [E | (c & r & E & Hc & _)]; rewrite E;
    eexists _, _; (split; [ reflexivity | left; auto ]).
Qed.

Lemma float_repr_head m k :
  exists c r, float_repr (FFin m k) = c :: r /\ (is_digit c = true \/ c = 45).
Proof.
  unfold float_repr. destruct (m <? 0); [ eexists _, _; split; [ reflexivity | right; reflexivity ] | ].
  cbn [app].
  set (ds := replicate _ 48 ++ nat_repr (Z.abs_N m)).
  assert (Hdig : Forall (fun c => is_digit c = true) (take (length ds - S k) ds)).
  { apply Forall_take, Forall_app_2; [ apply Forall_replicate; reflexivity | apply uint_chars_digits ]. }
  assert (Hlen : (1 <= length (take (length ds - S k) ds))%nat).
  { rewrite length_take. unfold ds. rewrite length_app, length_replicate. lia. }
  destruct (take (length ds - S k) ds) as [ | c r ]; [ simpl in Hlen; lia | ].
  apply Forall_inv in Hdig. eexists _, _. split; [ reflexivity | left; exact Hdig ].
Qed.

Lemma dumps_starts v : starts_value (dumps v).
Proof.
  destruct v as [ | [] | n | [ m k | | [] ] | s | l | d | s ];
    try (eexists _, _; split; [ reflexivity | repeat split; (reflexivity || discriminate) ]).
  - destruct (int_repr_head n) as (c & r & E & H). cbn [dumps]. rewrite E. apply starts_digit, H.
  - destruct (float_repr_head m k) as (c & r & E & H). cbn [dumps]. rewrite E. apply starts_digit, H.
Qed.

Lemma skip_ws_starts s : starts_value s -> skip_ws s = s.
Proof. intros (c & r & -> & H & _). simpl. rewrite H. reflexivity. Qed.

Lemma skip_ws_delim c r : c = 44 \/ c = 93 \/ c = 125 \/ c = 58 \/ c = 34 -> skip_ws (c :: r) = c :: r.
Proof. intros H. simpl. replace (is_ws c) with false; [ reflexivity | ]. unfold is_ws. lia. Qed.

(** *** Scalars *)

Lemma scan_once_number fuel c r x :
  is_digit c = true \/ c = 45 ->
  match_number (c :: r) = Some x ->
  scan_once (S fuel) (c :: r) = Some x.
Proof.
  intros Hc Hm. cbn [scan_once].
  assert (c <> 34 /\ c <> 123 /\ c <> 91 /\ c <> 110 /\ c <> 116 /\ c <> 102) as (N1 & N2 & N3 & N4 & N5 & N6)
    by (unfold is_digit in Hc; lia).
  rewrite (proj2 (Z.eqb_neq c 34) N1), (proj2 (Z.eqb_neq c 123) N2), (proj2 (Z.eqb_neq c 91) N3).
  unfold scan_literal. cbn [strip_prefix u List.map list_ascii_of_string].
  change (Z.of_N (N_of_ascii "n")) with 110. change (Z.of_N (N_of_ascii "t")) with 116.
  change (Z.of_N (N_of_ascii "f")) with 102.
  rewrite (proj2 (Z.eqb_neq 110 c)), (proj2 (Z.eqb_neq 116 c)), (proj2 (Z.eqb_neq 102 c)) by congruence.
  rewrite Hm. reflexivity.
Qed.

(** *** Values, written and read back *)

Lemma dict_set_fresh {A} (d : list (list Z * A)) k v :
  k ∉ List.map fst d -> dict_set d k v = d ++ [(k, v)].
Proof.
  induction d as [ | [k' v'] d IH ]; simpl; intros H; [ reflexivity | ].
  destruct (str_eqb k' k) eqn:E.
  - apply str_eqb_eq in E. subst. exfalso. apply H. left.
  - rewrite IH; [ reflexivity | ]. intros Hin. apply H. right. exact Hin.
Qed.

Lemma join_cons2 sep x y l : join sep (x :: y :: l) = x ++ sep ++ join sep (y :: l).
Proof. reflexivity. Qed.

Lemma join_starts sep x l : starts_value x -> starts_value (join sep (x :: l)).
Proof.
  intros H. destruct l; [ exact H | ]. rewrite join_cons2. apply starts_value_app, H.
Qed.

Lemma parse_array_dumps l :
  Forall scans_back l ->
  forall acc fuel rest,
    l <> [] ->
    Forall (fun v => wf_value v = true) l -> Forall (fun v => wf_text v = true) l ->
    (sum_list (List.map (fun x => S (vsize x)) l) <= fuel)%nat ->
    parse_array fuel (join [44] (List.map dumps l) ++ [93] ++ rest) acc
    = Some (VList (rev acc ++ List.map stored l), rest).
Proof.
  induction 1 as [ | v l Hv Hl IH ]; intros acc fuel rest Hne Hwf Htx Hfuel; [ congruence | ].
  apply Forall_cons in Hwf as [Hwv Hwl]. apply Forall_cons in Htx as [Htv Htl].
  cbn [List.map sum_list_with id] in Hfuel.
  destruct fuel as [ | fuel ]; [ lia | ]. cbn [parse_array].
  destruct l as [ | v' l ].
  - cbn [List.map join app].
    rewrite (Hv fuel (93 :: rest) Hwv Htv) by (simpl in *; lia || (right; left; reflexivity)).
    rewrite skip_ws_delim by auto. change (93 =? 93) with true. cbv iota.
    reflexivity.
  - cbn [List.map]. rewrite join_cons2, <- !app_assoc.
    change ([44] ++ ?x) with (44 :: x).
    rewrite (Hv fuel _ Hwv Htv) by (simpl in *; lia || (left; reflexivity)).
    rewrite skip_ws_delim by auto.
    change (44 =? 93) with false. change (44 =? 44) with true. cbv iota.
    rewrite skip_ws_starts by (apply starts_value_app, join_starts, dumps_starts).
    change (dumps v' :: List.map dumps l) with (List.map dumps (v' :: l)).
    rewrite (IH (stored v :: acc) fuel rest) by (congruence || assumption || (simpl in *; lia)).
    cbn [rev]. rewrite <- app_assoc. reflexivity.
Qed.

Lemma render_join_head items rest :
  items <> [] ->
  exists body, join [44] (List.map render_item items) ++ rest = 34 :: body.
Proof.
  destruct items as [ | kv items ]; [ congruence | intros _ ].
  cbn [List.map]. destruct (List.map render_item items) as [ | x xs ].
  - eexists. unfold render_item, encode_basestring_ascii. cbn [join app]. reflexivity.
  - eexists. rewrite join_cons2. unfold render_item, encode_basestring_ascii. cbn [app]. reflexivity.
Qed.

Lemma scanstring_escaped_cons s rest :
  forallb is_scalar s = true ->
  scanstring (flat_map escape_char s ++ 34 :: rest) = Some (s, rest).
Proof. exact (scanstring_escaped s rest). Qed.

Lemma parse_object_dumps items :
  Forall (fun kv => scans_back (snd kv)) items ->
  forall acc fuel rest body,
    items <> [] ->
    Forall (fun kv => wf_value (snd kv) = true) items ->
    Forall (fun kv => forallb is_scalar (fst kv) = true /\ wf_text (snd kv) = true) items ->
    NoDup (List.map fst acc ++ List.map fst items) ->
    (sum_list (List.map (fun kv => S (vsize (snd kv))) items) <= fuel)%nat ->
    join [44] (List.map render_item items) ++ [125] ++ rest = 34 :: body ->
    parse_object fuel body acc
    = Some (VDict (acc ++ List.map (fun kv => (fst kv, stored (snd kv))) items), rest).
Proof.
  induction 1 as [ | [k v] items Hv Hitems IH ];
    intros acc fuel rest body Hne Hwf Htx Hnd Hfuel Htext; [ congruence | ].
  apply Forall_cons in Hwf as [Hwv Hwl]. apply Forall_cons in Htx as [[Hk Htv] Htl].
  cbn [fst snd] in *.
  cbn [List.map sum_list_with id] in Hfuel.
  destruct fuel as [ | fuel ]; [ lia | ]. cbn [parse_object].
  assert (Hkacc : k ∉ List.map fst acc).
  { intros Hin. cbn [List.map fst] in Hnd. apply NoDup_app in Hnd as (_ & Hdisj & _).
    apply (Hdisj k Hin). left. }
  assert (Hnd' : NoDup (List.map fst (acc ++ [(k, stored v)]) ++ List.map fst items)).
  { rewrite map_app. cbn [List.map fst]. rewrite <- app_assoc. exact Hnd. }
  destruct items as [ | kv' items ].
  - cbn [List.map join] in Htext. unfold render_item, encode_basestring_ascii in Htext.
    cbn [fst snd] in Htext. rewrite <- !app_assoc in Htext. cbn [app] in Htext.
    injection Htext as <-.
    rewrite (scanstring_escaped_cons k _ Hk).
    rewrite skip_ws_delim by auto. change (58 =? 58) with true. cbv iota.
    rewrite skip_ws_starts by (apply starts_value_app, dumps_starts).
    rewrite (Hv fuel (125 :: rest) Hwv Htv) by (simpl in *; lia || (right; right; reflexivity)).
    rewrite skip_ws_delim by auto. change (125 =? 125) with true. cbv iota.
    rewrite dict_set_fresh by exact Hkacc. reflexivity.
  - cbn [List.map] in Htext. rewrite join_cons2, <- !app_assoc in Htext.
    change (render_item kv' :: List.map render_item items)
      with (List.map render_item (kv' :: items)) in Htext.
    destruct (render_join_head (kv' :: items) ([125] ++ rest) ltac:(congruence)) as [body' Hbody'].
    rewrite Hbody' in Htext.
    unfold render_item, encode_basestring_ascii in Htext.
    cbn [fst snd] in Htext. rewrite <- !app_assoc in Htext. cbn [app] in Htext.
    injection Htext as <-.
    rewrite (scanstring_escaped_cons k _ Hk).
    rewrite skip_ws_delim by auto. change (58 =? 58) with true. cbv iota.
    rewrite skip_ws_starts by (apply starts_value_app, dumps_starts).
    rewrite (Hv fuel _ Hwv Htv) by (simpl in *; lia || (left; reflexivity)).
    rewrite skip_ws_delim by auto.
    change (44 =? 125) with false. change (44 =? 44) with true. cbv iota.
    rewrite skip_ws_delim by auto. change (34 =? 34) with true. cbv iota.
    rewrite dict_set_fresh by exact Hkacc.
    rewrite (IH (acc ++ [(k, stored v)]) fuel rest body')
      by (congruence || assumption || (simpl in *; lia)).
    rewrite <- app_assoc. reflexivity.
Qed.

Lemma scans_back_all v : scans_back v.
Proof.
  induction v as [ | [] | n | [ m k | | [] ] | s | l IH | d IH | s ] using value_rect';
    intros fuel rest Hwf Htx Hfuel Hr; (destruct fuel as [ | fuel ]; [ simpl in Hfuel; lia | ]);
    try reflexivity.
  - destruct (int_repr_head n) as (c & r & E & Hc).
    pose proof (int_repr_loads n rest Hr) as Hl. cbn [dumps]. rewrite E in *.
    apply scan_once_number; assumption.
  - destruct (float_repr_head m k) as (c & r & E & Hc).
    pose proof (float_repr_loads m k rest Hr) as Hl. cbn [dumps]. rewrite E in *.
    apply scan_once_number; assumption.
  - cbn [dumps]. destruct (encode_string_loads s rest Htx) as (body & -> & Hb).
    cbn [scan_once]. change (34 =? 34) with true. cbv iota. rewrite Hb. reflexivity.
  - cbn [dumps stored]. rewrite <- !app_assoc. cbn [app scan_once].
    change (91 =? 34) with false. change (91 =? 123) with false. change (91 =? 91) with true.
    cbv iota.
    destruct l as [ | v l ]; [ reflexivity | ].
    assert (Hs : starts_value (join [44] (List.map dumps (v :: l)) ++ 93 :: rest))
      by (apply starts_value_app, join_starts, dumps_starts).
    rewrite (skip_ws_starts _ Hs). destruct Hs as (c & r & E & _ & N93 & _).
    rewrite E, (proj2 (Z.eqb_neq c 93) N93), <- E.
    change (93 :: rest) with ([93] ++ rest).
    rewrite (parse_array_dumps (v :: l) IH [] fuel rest); [ reflexivity | congruence | | | ].
    + apply wf_list, Hwf.
    + apply Forall_forall. intros x Hx. cbn [wf_text] in Htx. rewrite forallb_forall in Htx.
      apply Htx, list_elem_of_In, Hx.
    + cbn [vsize] in Hfuel. lia.
  - rewrite dumps_dict_eq. unfold dumps_dict. fold render_item.
    cbn [stored]. rewrite sort_items_map.
    apply wf_dict in Hwf as [Hnd Hwd].
    assert (Hperm : Permutation (sort_items d) d) by apply sort_items_perm.
    assert (Hsum : sum_list (List.map (fun kv => S (vsize (snd kv))) (sort_items d))
                   = sum_list (List.map (fun kv => S (vsize (snd kv))) d)).
    { apply sum_list_with_Permutation_proper, Permutation_map, Hperm. }
    rewrite <- !app_assoc. cbn [app scan_once].
    change (123 =? 34) with false. change (123 =? 123) with true. cbv iota.
    destruct (sort_items d) as [ | kv sd ] eqn:Esd; [ reflexivity | ].
    destruct (render_join_head (kv :: sd) ([125] ++ rest) ltac:(congruence)) as [body Hbody].
    change (125 :: rest) with ([125] ++ rest). rewrite Hbody.
    rewrite skip_ws_delim by auto.
    change (34 =? 125) with false. change (34 =? 34) with true. cbv iota.
    rewrite (parse_object_dumps (kv :: sd)) with (rest := rest); [ reflexivity | | congruence | | | | | exact Hbody ].
    + rewrite Hperm. exact IH.
    + rewrite Hperm. exact Hwd.
    + rewrite Hperm. apply Forall_forall. intros x Hx. cbn [wf_text] in Htx.
      rewrite forallb_forall in Htx. apply list_elem_of_In, Htx, andb_prop in Hx. exact Hx.
    + change (NoDup (List.map fst (kv :: sd))). rewrite Hperm. exact Hnd.
    + rewrite Hsum. cbn [vsize] in Hfuel. lia.
  - cbn [dumps stored]. destruct (encode_string_loads s rest Htx) as (body & -> & Hb).
    cbn [scan_once]. change (34 =? 34) with true. cbv iota. rewrite Hb. reflexivity.
Qed.

Lemma join_length_bound {A} (f : A -> list Z) (g : A -> nat) l :
  Forall (fun x => (g x <= length (f x))%nat) l ->
  (sum_list (List.map (fun x => S (g x)) l) <= S (length (join [44%Z] (List.map f l))))%nat.
Proof.
  induction 1 as [ | x l Hx Hl IH ]; [ simpl; lia | ].
  cbn [List.map sum_list_with id].
  destruct l as [ | y l ].
  - simpl. lia.
  - change (List.map f (y :: l)) with (f y :: List.map f l) in *.
    rewrite join_cons2, !length_app. cbn [length].
    lia.
Qed.

Lemma vsize_le_length v : (vsize v <= length (dumps v))%nat.
Proof.
  assert (Hscalar : forall x, vsize x = 1%nat -> (vsize x <= length (dumps x))%nat).
  { intros x Hx. destruct (dumps_starts x) as (c & r & E & _). rewrite Hx, E. simpl. lia. }
  induction v as [ | b | n | f | s | l IH | d IH | s ] using value_rect';
    try (apply Hscalar; reflexivity).
  - cbn [vsize dumps]. rewrite !length_app. cbn [length].
    pose proof (join_length_bound dumps vsize l IH). lia.
  - rewrite dumps_dict_eq. unfold dumps_dict. cbn [vsize]. rewrite !length_app. cbn [length].
    assert (Hperm : Permutation (sort_items d) d) by apply sort_items_perm.
    assert (Hb : Forall (fun kv : list Z * value =>
                           (vsize (snd kv) <= length (render_item kv))%nat) (sort_items d)).
    { rewrite Hperm. eapply Forall_impl; [ exact IH | ]. intros kv Hkv.
      cbv beta in *. unfold render_item. rewrite !length_app. lia. }
    pose proof (join_length_bound render_item (fun kv => vsize (snd kv)) _ Hb) as Hj.
    assert (Hsum : sum_list (List.map (fun kv : list Z * value => S (vsize (snd kv))) (sort_items d))
                   = sum_list (List.map (fun kv => S (vsize (snd kv))) d)).
    { apply sum_list_with_Permutation_proper, Permutation_map, Hperm. }
    cbv beta in Hj. rewrite Hsum in Hj. unfold render_item in Hj. lia.
Qed.

(** The text of a value is read back as the stored value. *)
Lemma json_loads_dumps v :
  wf_value v = true -> wf_text v = true -> json_loads (dumps v) = Ok (stored v).
Proof.
  intros Hwf Htx. unfold json_loads.
  rewrite (skip_ws_starts _ (dumps_starts v)).
  pose proof (scans_back_all v (S (length (dumps v))) [] Hwf Htx) as H.
  rewrite app_nil_r in H. rewrite H; [ reflexivity | | exact I ].
  pose proof (vsize_le_length v). lia.
Qed.

Lemma loads_bytes_dumps v :
  wf_value v = true -> wf_text v = true -> loads_bytes (dumps v) = Ok (stored v).
Proof.
  intros Hwf Htx. unfold loads_bytes.
  rewrite utf8_decode_ascii by apply dumps_ascii. apply json_loads_dumps; assumption.
Qed.

(** *** A call that stores, then a call that finds *)










Lemma joinpath_name (d : bool * list (list Z)) name :
  Path name = (false, [name]) -> d </> name = (fst d, snd d ++ [name]).
Proof.
  intros H. unfold joinpath. rewrite H. cbn [fst]. f_equal.
  change (path_parts name) with (snd (Path name)). rewrite H. reflexivity.
Qed.

Lemma artifact_name_plain (d : bool * list (list Z)) name :
  name = u "meta.json" \/ name = u "payload.json" \/ name = u "result.json" ->
  temporary_name (file_name (d </> name)) = false.
Proof.
  intros [-> | [-> | ->]]; rewrite joinpath_name by (vm_compute; reflexivity);
    unfold file_name; cbn [snd]; rewrite last_snoc; reflexivity.
Qed.

(** The record of a call whose hook is called. *)
Lemma persist_hook_log d m p r h w w2 :
  store_artifacts d m p r w = (Ok tt, w2) ->
  exists l tail,
    log (snd (try_except (persist d m p r (Some h)) (fun e => emit (EvWarn e)) w))
    = log w ++ l ++ EvHook r d :: tail
    /\ forallb is_write l = true
    /\ (tail = [] \/ exists e, tail = [EvWarn e]).
Proof.
  intros E. destruct (emits_store_artifacts d m p r w) as (l & HL & HW). rewrite E in HL.
  cbn [snd] in HL. exists l.
  unfold try_except, persist, bind. rewrite E. unfold call_hook, bind, emit.
  cbn [fst snd log files set_log].
  destruct (h r d (files w2)) as [[[] | e] fs]; cbn [fst snd]; autorewrite with world.
  - exists []. rewrite HL, <- app_assoc. auto.
  - exists [EvWarn e]. unfold emit. cbn [fst snd]. autorewrite with world.
    rewrite HL, <- !app_assoc. split; [ reflexivity | ]. split; [ exact HW | right; eauto ].
Qed.

(** C10. The hook is called once when the call misses, [fetch_fn] returns
    and the three artifacts are written without an error, and is not called
    otherwise.  When it is called, the record of the call is: the lookup,
    the fetch, the writes, the hook with the fetched result and the entry
    directory, and at most the warning. *)
Theorem save_extra_called_once_after_store step endpoint payload fetch_fn cache_dir version
  ttl_seconds refresh save_extra w :
  let key := cache_key endpoint payload version in
  let d := entry_dir cache_dir step key in
  let load := load_from_cache (result_file d) (meta_file d) ttl_seconds refresh w in
  let w1 := after_fetch payload (snd load) in
  let run := query_nim_cached step endpoint payload fetch_fn cache_dir version ttl_seconds
               refresh save_extra w in
  let stores response :=
    store_artifacts d (meta_record step key endpoint version (clock w1)) payload response w1 in
  count_ev is_hook (log (snd run))
  = (count_ev is_hook (log w)
     + match fst load, fetch_fn payload, save_extra with
       | Ok None, Ok (rc, response), Some _ =>
           match fst (stores response) with
           | Ok _ => 1
           | Raise _ => 0
           end
       | _, _, _ => 0
       end)%nat
  /\ forall rc response h,
       fst load = Ok None -> fetch_fn payload = Ok (rc, response) -> save_extra = Some h ->
       fst (stores response) = Ok tt ->
       exists reads writes tail,
         log (snd run)
         = log w ++ reads ++ EvFetch payload :: writes ++ EvHook response d :: tail
         /\ forallb is_read reads = true
         /\ forallb is_write writes = true
         /\ (tail = [] \/ exists e, tail = [EvWarn e]).
Proof.
  cbv zeta.
  set (key := cache_key endpoint payload version).
  set (d := entry_dir cache_dir step key).
  pose proof (emits_count is_hook is_read _ w
                (emits_load_from_cache (result_file d) (meta_file d) ttl_seconds refresh)
                (fun e H => proj1 (proj2 (store_events_kind' e H)))) as Hload.
  split.
  - destruct (load_from_cache_total (result_file d) (meta_file d) ttl_seconds refresh w) as [c Hc].
    destruct c as [ hit | ].
    + rewrite (query_hit _ _ _ _ _ _ _ _ _ _ _ Hc). fold key d. rewrite Hc. cbn [fst snd].
      rewrite Hload, Nat.add_0_r. reflexivity.
    + rewrite (query_miss _ _ _ _ _ _ _ _ _ _ Hc). fold key d. rewrite Hc.
      rewrite fetch_and_store_unfold. cbv zeta.
      set (w0 := snd (load_from_cache (result_file d) (meta_file d) ttl_seconds refresh w)) in *.
      assert (Hw1 : count_ev is_hook (log (after_fetch payload w0)) = count_ev is_hook (log w)).
      { unfold after_fetch. simpl. rewrite count_ev_app, Hload. unfold count_ev. simpl. lia. }
      destruct (fetch_fn payload) as [[rc response] | e];
        [ | cbn [fst snd]; rewrite Hw1, Nat.add_0_r; reflexivity ].
      pose proof (persist_hook_count d (meta_record step key endpoint version
                                          (clock (after_fetch payload w0)))
                    payload response save_extra (after_fetch payload w0)) as Hp.
      destruct (persist _ _ _ _ _ _) as [[[] | e] w2]; cbn [fst snd] in *.
      * rewrite Hp, Hw1. destruct (fst (store_artifacts _ _ _ _ _)), save_extra; reflexivity.
      * cbn [log set_log]. rewrite count_ev_app, Hp, Hw1.
        change (count_ev is_hook [EvWarn e]) with 0%nat. rewrite Nat.add_0_r.
        destruct (fst (store_artifacts _ _ _ _ _)), save_extra; reflexivity.
  - intros rc response h Hmiss Hfetch -> Hstore.
    rewrite (query_miss _ _ _ _ _ _ _ _ _ _ Hmiss). fold key d.
    destruct (emits_load_from_cache (result_file d) (meta_file d) ttl_seconds refresh w)
      as (reads & HR & FR).
    set (w0 := snd (load_from_cache (result_file d) (meta_file d) ttl_seconds refresh w)) in *.
    destruct (store_artifacts d (meta_record step key endpoint version
                                   (clock (after_fetch payload w0)))
                payload response (after_fetch payload w0)) as [rs w2] eqn:Es.
    cbn [fst] in Hstore. subst rs.
    destruct (persist_hook_log _ _ _ _ h _ _ Es) as (writes & tail & HL & FW & Htail).
    exists reads, writes, tail. split; [ | auto ].
    unfold fetch_and_store, call_fetch, bind, emit, lift, time_time, ret. cbn [fst snd].
    fold (after_fetch payload w0). rewrite Hfetch. cbn [fst snd].
    change (clock (after_fetch payload w0)) with (clock w0) in *.
    match goal with |- context [try_except ?m ?k ?x] =>
      change (try_except m k x)
        with (try_except (persist d (meta_record step key endpoint version (clock w0)) payload
                            response (Some h)) (fun e => emit (EvWarn e)) (after_fetch payload w0))
    end.
    destruct (try_except _ _ _) as [[[] | e] w3]; cbn [fst snd] in *;
      rewrite HL; unfold after_fetch; cbn [log set_log]; rewrite HR, <- !app_assoc; reflexivity.
Qed.

(** *** The properties on concrete calls *)

(** C1 at two payloads that differ in the order of their keys. *)
Lemma key_derivation_is_order_independent_witness :
  _stable_json_dumps (VDict [(u "b", VList [VBool true]); (u "a", VInt 1)])
  = _stable_json_dumps (VDict [(u "a", VInt 1); (u "b", VList [VBool true])])
  /\ exists key,
       _hash_key ex_endpoint (VDict [(u "b", VList [VBool true]); (u "a", VInt 1)]) None = Ok key
       /\ _hash_key ex_endpoint (VDict [(u "a", VInt 1); (u "b", VList [VBool true])]) None = Ok key
       /\ length key = 40%nat
       /\ forallb is_hex key = true.
Proof.
  apply (key_derivation_is_order_independent ex_endpoint None
           (VDict [(u "b", VList [VBool true]); (u "a", VInt 1)])
           (VDict [(u "a", VInt 1); (u "b", VList [VBool true])]));
    vm_compute; reflexivity.
Defined.

(** C3 refuted as the specification has it.  The entry has a readable
    result file and a metadata file that is not JSON; with a TTL of 60 the
    call goes to [fetch_fn] and returns its answer, not the stored result. *)
Lemma unreadable_meta_is_recomputed :
  let run := query_nim_cached ex_step ex_endpoint ex_payload ex_busy ex_cache_dir None
               (Some 60) false None ex_corrupt_meta in
  files ex_corrupt_meta !! result_file ex_dir = Some (dumps ex_result)
  /\ loads_bytes (dumps ex_result) = Ok ex_result
  /\ files ex_corrupt_meta !! meta_file ex_dir = Some (u "not json")
  /\ loads_bytes (u "not json") = Raise JSONDecodeError
  /\ fst run = Ok (503, VStr (u "busy"))
  /\ count_ev is_fetch (log (snd run)) = 1%nat
  /\ ~ served run ex_corrupt_meta ex_result
  /\ ~ lenient_on_unreadable_meta.
Proof.
  cbv zeta.
  assert (H1 : files ex_corrupt_meta !! result_file ex_dir = Some (dumps ex_result))
    by (vm_compute; reflexivity).
  assert (H2 : loads_bytes (dumps ex_result) = Ok ex_result) by (vm_compute; reflexivity).
  assert (H3 : files ex_corrupt_meta !! meta_file ex_dir = Some (u "not json"))
    by (vm_compute; reflexivity).
  assert (H4 : loads_bytes (u "not json") = Raise JSONDecodeError) by (vm_compute; reflexivity).
  assert (H5 : fst (query_nim_cached ex_step ex_endpoint ex_payload ex_busy ex_cache_dir None
                      (Some 60) false None ex_corrupt_meta) = Ok (503, VStr (u "busy")))
    by (vm_compute; reflexivity).
  assert (H6 : ~ served (query_nim_cached ex_step ex_endpoint ex_payload ex_busy ex_cache_dir
                           None (Some 60) false None ex_corrupt_meta)
                 ex_corrupt_meta ex_result).
  { intros [Hs _]. rewrite H5 in Hs. vm_compute in Hs. discriminate Hs. }
  repeat (split; [ assumption || (vm_compute; reflexivity) | ]).
  intros H. apply H6.
  apply (H ex_step ex_endpoint ex_payload ex_busy ex_cache_dir None 60 None ex_corrupt_meta
           (dumps ex_result) ex_result H1 H2).
  - right. exists (u "not json"), JSONDecodeError. split; assumption.
  - constructor.
Qed.


(** C3 as the code has it, on an entry without metadata file and on an
    entry whose metadata file cannot be parsed. *)
Lemma missing_meta_serves_corrupt_meta_recomputes_witness :
  served
    (query_nim_cached ex_step ex_endpoint ex_payload ex_busy ex_cache_dir None (Some 60) false
       None (ex_world [(result_file ex_dir, dumps ex_result)] []))
    (ex_world [(result_file ex_dir, dumps ex_result)] []) ex_result
  /\ recomputed
       (query_nim_cached ex_step ex_endpoint ex_payload ex_busy ex_cache_dir None (Some 60)
          false None ex_corrupt_meta)
       ex_corrupt_meta ex_busy ex_payload.
Proof.
  split.
  - pose proof (missing_meta_serves_corrupt_meta_recomputes ex_step ex_endpoint ex_payload
                  ex_busy ex_cache_dir None 60 None
                  (ex_world [(result_file ex_dir, dumps ex_result)] [])
                  (dumps ex_result) ex_result) as H.
    cbv zeta in H.
    assert (E : files (ex_world [(result_file ex_dir, dumps ex_result)] [])
                  !! meta_file (entry_dir ex_cache_dir ex_step
                                  (cache_key ex_endpoint ex_payload None))
                = None) by (vm_compute; reflexivity).
    rewrite E in H. apply H.
    + vm_compute; reflexivity.
    + vm_compute; reflexivity.
    + constructor.
  - pose proof (missing_meta_serves_corrupt_meta_recomputes ex_step ex_endpoint ex_payload
                  ex_busy ex_cache_dir None 60 None ex_corrupt_meta
                  (dumps ex_result) ex_result) as H.
    cbv zeta in H.
    assert (E : files ex_corrupt_meta
                  !! meta_file (entry_dir ex_cache_dir ex_step
                                  (cache_key ex_endpoint ex_payload None))
                = Some (u "not json")) by (vm_compute; reflexivity).
    rewrite E in H. apply (H ltac:(vm_compute; reflexivity) ltac:(vm_compute; reflexivity)
                             JSONDecodeError).
    vm_compute; reflexivity.
Defined.

(** C4 at the TTL 60.  At the time 1700000600.25 an entry created 61.12
    seconds before is recomputed and an entry created 58.95 seconds before
    is served; an entry created at 1700000540.0 is served at 1700000600.0,
    sixty seconds later.  Between 1073741823.9 and 1073741883.9 the
    computed age is 60.00000011920929: the entry is recomputed. *)
Lemma ttl_expiry_boundary_witness :
  let call := query_nim_cached ex_step ex_endpoint ex_payload ex_busy ex_cache_dir None
                (Some 60) false None in
  let now := FFin 170000060025 1 in
  recomputed (call (ex_at now (FFin 170000053913 1))) (ex_at now (FFin 170000053913 1))
    ex_busy ex_payload
  /\ served (call (ex_at now (FFin 17000005413 0))) (ex_at now (FFin 17000005413 0)) ex_result
  /\ served (call (ex_at ex_now (FFin 17000005400 0))) (ex_at ex_now (FFin 17000005400 0))
       ex_result
  /\ recomputed (call (ex_at (FFin 10737418839 0) (FFin 10737418239 0)))
       (ex_at (FFin 10737418839 0) (FFin 10737418239 0)) ex_busy ex_payload.
Proof.
  cbv zeta.
  assert (H : forall now created,
            let w := ex_at now created in
            let run := query_nim_cached ex_step ex_endpoint ex_payload ex_busy ex_cache_dir
                         None (Some 60) false None w in
            (if fgt (fsub now created) 60 then recomputed run w ex_busy ex_payload
             else served run w ex_result)
            /\ (epoch_time now = true -> epoch_time created = true ->
                (elapsed_ms_ge now created (1000 * 60 + 1) = true ->
                 recomputed run w ex_busy ex_payload)
                /\ (elapsed_ms_le now created (1000 * 60 - 1) = true ->
                    served run w ex_result))
            /\ (forall N C, now = FFin (N * 10) 0 -> created = FFin (C * 10) 0 ->
                            Z.abs N < 2 ^ 52 -> Z.abs C < 2 ^ 52 ->
                            fgt (fsub now created) 60 = (60 <? N - C))).
  { intros now created.
    refine (ttl_expiry_boundary ex_step ex_endpoint ex_payload ex_busy ex_cache_dir None 60
              None (ex_at now created) (ex_meta created)
              (stored (meta_record ex_step (cache_key ex_endpoint ex_payload None) ex_endpoint
                         None created))
              (VFloat created) created (dumps ex_result) ex_result _ _ _ _ _ _ _).
    - unfold ex_at. cbn [files]. rewrite lookup_insert_ne by (vm_compute; discriminate).
      apply lookup_insert_eq.
    - apply loads_bytes_dumps; [ reflexivity | ].
      cbn [wf_text meta_record forallb fst snd version_value]. vm_compute. reflexivity.
    - reflexivity.
    - reflexivity.
    - unfold ex_at. cbn [files]. apply lookup_insert_eq.
    - vm_compute. reflexivity.
    - constructor. }
  split; [ | split; [ | split ] ].
  - apply (H (FFin 170000060025 1) (FFin 170000053913 1)); vm_compute; reflexivity.
  - apply (H (FFin 170000060025 1) (FFin 17000005413 0)); vm_compute; reflexivity.
  - destruct (H ex_now (FFin 17000005400 0)) as (H1 & _ & H3). cbv zeta in H1.
    rewrite (H3 1700000600 1700000540) in H1 by (vm_compute; reflexivity). apply H1.
  - destruct (H (FFin 10737418839 0) (FFin 10737418239 0)) as (H1 & _). cbv zeta in H1.
    assert (E : fgt (fsub (FFin 10737418839 0) (FFin 10737418239 0)) 60 = true)
      by (vm_compute; reflexivity).
    rewrite E in H1. apply H1.
Defined.

(** C5 on an entry whose result file is not JSON. *)
Lemma corrupt_entry_recomputes_witness :
  recomputed
    (query_nim_cached ex_step ex_endpoint ex_payload ex_busy ex_cache_dir None None false None
       (ex_world [(result_file ex_dir, u "{not json")] []))
    (ex_world [(result_file ex_dir, u "{not json")] []) ex_busy ex_payload.
Proof.
  apply (corrupt_entry_recomputes ex_step ex_endpoint ex_payload ex_busy ex_cache_dir None None
           false None (ex_world [(result_file ex_dir, u "{not json")] [])).
  left. exists (u "{not json"), JSONDecodeError. split; vm_compute; reflexivity.
Defined.

(** C6 on a miss with status 503 whose first write fails after three
    bytes. *)
Lemma miss_returns_fetch_result_witness :
  fst (query_nim_cached ex_step ex_endpoint ex_payload ex_busy ex_cache_dir None None false
         None (ex_world [] [None; None; None; Some 3%nat]))
  = Ok (503, VStr (u "busy")).
Proof.
  rewrite (miss_returns_fetch_result ex_step ex_endpoint ex_payload ex_busy ex_cache_dir None
             None false None (ex_world [] [None; None; None; Some 3%nat]) 503 (VStr (u "busy")));
    [ reflexivity | vm_compute; reflexivity | reflexivity ].
Defined.

(** C8 on a write of the result file that fails after three bytes, and
    on one that succeeds over an older file. *)
Lemma atomic_write_all_or_nothing_witness :
  (files (snd (_atomic_write (result_file ex_dir) (dumps ex_result)
                 (ex_world [] [None; None; Some 3%nat]))) !! result_file ex_dir = None)
  /\ (files (snd (_atomic_write (result_file ex_dir) (dumps ex_result)
                    (ex_world [(result_file ex_dir, u "old")] []))) !! result_file ex_dir
      = Some (dumps ex_result)).
Proof.
  split.
  - destruct (atomic_write_all_or_nothing (result_file ex_dir) (dumps ex_result)
                (ex_world [] [None; None; Some 3%nat])) as (_ & _ & _ & _ & _ & H & _).
    + apply artifact_name_plain. auto.
    + left. vm_compute; reflexivity.
    + destruct H as [H | H]; [ rewrite H; vm_compute; reflexivity | ].
      exfalso. vm_compute in H. discriminate H.
  - destruct (atomic_write_all_or_nothing (result_file ex_dir) (dumps ex_result)
                (ex_world [(result_file ex_dir, u "old")] [])) as (_ & _ & _ & _ & H & _).
    + apply artifact_name_plain. auto.
    + right. vm_compute; reflexivity.
    + apply H. vm_compute; reflexivity.
Defined.

(** C9 on metadata that hold the step alone, at the time 1700000600 and
    the TTL 60. *)
Lemma meta_without_created_at_is_stale_witness :
  recomputed
    (query_nim_cached ex_step ex_endpoint ex_payload ex_busy ex_cache_dir None (Some 60) false
       None
       (ex_world [(result_file ex_dir, dumps ex_result);
                  (meta_file ex_dir, dumps (VDict [(u "step", VStr ex_step)]))] []))
    (ex_world [(result_file ex_dir, dumps ex_result);
               (meta_file ex_dir, dumps (VDict [(u "step", VStr ex_step)]))] [])
    ex_busy ex_payload.
Proof.
  apply (meta_without_created_at_is_stale ex_step ex_endpoint ex_payload ex_busy ex_cache_dir
           None 60 None
           (ex_world [(result_file ex_dir, dumps ex_result);
                      (meta_file ex_dir, dumps (VDict [(u "step", VStr ex_step)]))] [])
           (dumps (VDict [(u "step", VStr ex_step)])) [(u "step", VStr ex_step)]);
    vm_compute; reflexivity.
Defined.

(** C7 on an entry that a call without refresh serves: with refresh the
    answer is the one of [fetch_fn], and nothing is read. *)
Lemma refresh_bypasses_cache_witness :
  let call refresh :=
    query_nim_cached ex_step ex_endpoint ex_payload ex_busy ex_cache_dir None (Some 60)
      refresh None (ex_aged 59) in
  fst (call false) = Ok (200, mark_from_cache ex_result)
  /\ fst (call true) = Ok (503, VStr (u "busy"))
  /\ count_ev is_fetch (log (snd (call true))) = 1%nat
  /\ count_ev is_read (log (snd (call true))) = 0%nat.
Proof.
  cbv zeta.
  destruct (refresh_bypasses_cache ex_step ex_endpoint ex_payload ex_busy ex_cache_dir None
              (Some 60) None (ex_aged 59)) as (_ & H2 & H3 & H4).
  split; [ vm_compute; reflexivity | ].
  split; [ exact H4 | ]. split; [ exact H2 | exact H3 ].
Defined.

(** C10 on three calls with a hook: a miss that stores, a miss whose first
    write fails, and the hit that follows the first call. *)
Lemma save_extra_called_once_after_store_witness :
  let call :=
    query_nim_cached ex_step ex_endpoint ex_payload ex_fetch ex_cache_dir None None false
      (Some ex_hook) in
  count_ev is_hook (log (snd (call (ex_world [] [])))) = 1%nat
  /\ count_ev is_hook (log (snd (call (ex_world [] [None; None; Some 0%nat])))) = 0%nat
  /\ count_ev is_hook (log (snd (call (snd (call (ex_world [] [])))))) = 1%nat.
Proof.
  cbv zeta. split; [ | split ].
  - rewrite (proj1 (save_extra_called_once_after_store ex_step ex_endpoint ex_payload ex_fetch
                      ex_cache_dir None None false (Some ex_hook) (ex_world [] []))).
    vm_compute; reflexivity.
  - rewrite (proj1 (save_extra_called_once_after_store ex_step ex_endpoint ex_payload ex_fetch
                      ex_cache_dir None None false (Some ex_hook)
                      (ex_world [] [None; None; Some 0%nat]))).
    vm_compute; reflexivity.
  - rewrite (proj1 (save_extra_called_once_after_store ex_step ex_endpoint ex_payload ex_fetch
                      ex_cache_dir None None false (Some ex_hook)
                      (snd (query_nim_cached ex_step ex_endpoint ex_payload ex_fetch
                              ex_cache_dir None None false (Some ex_hook) (ex_world [] []))))).
    vm_compute; reflexivity.
Defined.
